(** * SQL agent web interface: the safety filter of [SafeSQLTool._run] and
      the [/api/query] handler of [week_10/SQLAgent/app.py]

    The development embeds the Python code shallowly.

    - A Python [str] is a [string]; its characters are the code points
      0..255, classified as CPython classifies them ([str.isspace],
      [str.isalnum], [str.isdecimal], [str.lower]).  The validation of
      [_run], whose patterns read further than these, is also modelled on
      a [str] of arbitrary code points (the modules [UChar] to
      [USafeSQLTool]); on the code points 0..255 the two models agree
      (theorem [Agreement.sanitize_agrees]).
    - The three regular expressions of [_run] are values of a small regex
      syntax, run by a backtracking matcher with the semantics of [re.match]
      and [re.search].
    - The database engine, the hosted agent and [json.loads] are oracles of
      an environment record; exceptions are the [Raise] outcome of the [py]
      monad, which also logs every call that leaves the process. *)

From Stdlib Require Import Bool NArith ZArith List Lia.
From Stdlib Require Import Ascii String DecimalString.
Import ListNotations.

Local Open Scope string_scope.
Local Open Scope bool_scope.

Set Implicit Arguments.

(** ** Characters *)

Module PyChar.

Definition code (c : ascii) : N := N_of_ascii c.

Definition between (lo hi : N) (c : ascii) : bool :=
  (lo <=? code c)%N && (code c <=? hi)%N.

Definition code_is (n : N) (c : ascii) : bool := (code c =? n)%N.

(** [Py_UNICODE_ISSPACE]: used by [str.strip] and by [\s]. *)
Definition isspace (c : ascii) : bool :=
  between 9 13 c || between 28 32 c || code_is 133 c || code_is 160 c.

(** [Py_UNICODE_ISDECIMAL]: the class [\d]. *)
Definition isdecimal (c : ascii) : bool := between 48 57 c.

(** [Py_UNICODE_ISALNUM]: letters, digits and numeric characters. *)
Definition isalnum (c : ascii) : bool :=
  between 48 57 c || between 65 90 c || between 97 122 c
  || code_is 170 c || between 178 179 c || code_is 181 c || between 185 186 c
  || between 188 190 c || between 192 214 c || between 216 246 c
  || between 248 255 c.

(** The class [\w]. *)
Definition isword (c : ascii) : bool := isalnum c || code_is 95 c.

(** [Py_UNICODE_TOLOWER], which is also [str.lower] on these code points. *)
Definition tolower (c : ascii) : ascii :=
  if between 65 90 c || (between 192 222 c && negb (code_is 215 c))
  then ascii_of_N (code c + 32)
  else c.

(** A literal [c] of a pattern against the subject character [x]:
    with [re.I] both are lowered first.  This is [re.I] on the code points
    0..255 only; the code points beyond that it also takes for a letter
    (U+0130, U+0131, U+017F, U+212A, ...) are in [UChar.lit_eq]. *)
Definition lit_eq (ignorecase : bool) (c x : ascii) : bool :=
  if ignorecase then Ascii.eqb (tolower x) (tolower c) else Ascii.eqb x c.

End PyChar.

(** ** Strings *)

Module PyStr.

Import PyChar.

Definition is_empty (s : string) : bool :=
  match s with EmptyString => true | String _ _ => false end.

Fixpoint lstrip (s : string) : string :=
  match s with
  | String c s' => if isspace c then lstrip s' else s
  | EmptyString => EmptyString
  end.

Fixpoint rstrip (s : string) : string :=
  match s with
  | String c s' =>
      let r := rstrip s' in
      if isspace c && is_empty r then EmptyString else String c r
  | EmptyString => EmptyString
  end.

(** [s.strip()] *)
Definition strip (s : string) : string := rstrip (lstrip s).

(** [s.lower()] *)
Fixpoint lower (s : string) : string :=
  match s with
  | String c s' => String (tolower c) (lower s')
  | EmptyString => EmptyString
  end.

(** [s.startswith(p)] *)
Definition startswith (s p : string) : bool := String.prefix p s.

(** [sub in s] *)
Fixpoint contains (sub s : string) : bool :=
  String.prefix sub s
  || match s with
     | String _ s' => contains sub s'
     | EmptyString => false
     end.

(** [s.endswith(p)] *)
Fixpoint endswith (s p : string) : bool :=
  String.eqb s p
  || match s with
     | String _ s' => endswith s' p
     | EmptyString => false
     end.

(** [s[n:]] *)
Fixpoint drop (n : nat) (s : string) : string :=
  match n, s with
  | S n', String _ s' => drop n' s'
  | _, _ => s
  end.

(** [str(n)] for a non-negative [int]. *)
Definition of_nat (n : nat) : string := NilZero.string_of_uint (Nat.to_uint n).

(** [sep.join(l)] *)
Definition join (sep : string) (l : list string) : string := String.concat sep l.

End PyStr.

(** ** Regular expressions *)

Module Re.

Import PyChar.

Inductive charclass := Space | Digit.

Definition in_class (p : charclass) (c : ascii) : bool :=
  match p with
  | Space => isspace c
  | Digit => isdecimal c
  end.

(** The fragment of the [re] syntax that the patterns of [app.py] use.
    Repetition is only ever applied to a character class there. *)
Inductive regex :=
| Eps
| Lit (c : ascii)
| Cls (p : charclass)
| Bnd
| Bol
| Seq (a b : regex)
| Alt (a b : regex)
| Star (p : charclass).

(** [p+] *)
Definition Plus (p : charclass) : regex := Seq (Cls p) (Star p).

(** A literal word of a pattern. *)
Fixpoint word (w : string) : regex :=
  match w with
  | String c w' => Seq (Lit c) (word w')
  | EmptyString => Eps
  end.

(** [(w1|w2|...)] *)
Fixpoint alternatives (w : string) (ws : list string) : regex :=
  match ws with
  | [] => word w
  | w' :: ws' => Alt (word w) (alternatives w' ws')
  end.

Definition isword_opt (c : option ascii) : bool :=
  match c with Some x => isword x | None => false end.

Definition head (s : string) : option ascii :=
  match s with String c _ => Some c | EmptyString => None end.

(** [\b]: exactly one side of the position is a word character; the two
    ends of the subject count as non-word. *)
Definition at_boundary (prev : option ascii) (s : string) : bool :=
  xorb (isword_opt prev) (isword_opt (head s)).

Definition at_start (prev : option ascii) : bool :=
  match prev with None => true | Some _ => false end.

(** The continuation receives the character before the current position
    and the rest of the subject. *)
Definition cont := option ascii -> string -> bool.

Fixpoint star_m (p : ascii -> bool) (k : cont)
    (prev : option ascii) (s : string) {struct s} : bool :=
  match s with
  | String x s' => (p x && star_m p k (Some x) s') || k prev s
  | EmptyString => k prev s
  end.

(** Backtracking matcher: [m ic r k prev s] holds when [r] matches a
    prefix of [s] (the character before [s] being [prev]) and the
    continuation accepts what is left. *)
Fixpoint m (ic : bool) (r : regex) (k : cont)
    (prev : option ascii) (s : string) {struct r} : bool :=
  match r with
  | Eps => k prev s
  | Lit c =>
      match s with
      | String x s' => lit_eq ic c x && k (Some x) s'
      | EmptyString => false
      end
  | Cls p =>
      match s with
      | String x s' => in_class p x && k (Some x) s'
      | EmptyString => false
      end
  | Bnd => at_boundary prev s && k prev s
  | Bol => at_start prev && k prev s
  | Seq a b => m ic a (m ic b k) prev s
  | Alt a b => m ic a k prev s || m ic b k prev s
  | Star p => star_m (in_class p) k prev s
  end.

Definition accept : cont := fun _ _ => true.

(** A compiled pattern: the expression and its [IGNORECASE] flag. *)
Record pattern := Pattern { body : regex; ignorecase : bool }.

Definition match_at (p : pattern) (prev : option ascii) (s : string) : bool :=
  m (ignorecase p) (body p) accept prev s.

(** [re.match(p, s) is not None] *)
Definition re_match (p : pattern) (s : string) : bool := match_at p None s.

Fixpoint search_from (p : pattern) (prev : option ascii) (s : string) : bool :=
  match_at p prev s
  || match s with
     | String c s' => search_from p (Some c) s'
     | EmptyString => false
     end.

(** [re.search(p, s) is not None] *)
Definition re_search (p : pattern) (s : string) : bool := search_from p None s.

End Re.

(** ** Python values, exceptions and effects *)

Module Py.

(** The outcome of evaluating a Python expression: a value, or an
    exception, kept as its [str(e)]. *)
Inductive outcome (A : Type) :=
| Return (a : A)
| Raise (msg : string).

Arguments Return {A} a.
Arguments Raise {A} msg.

(** What leaves the process: a statement handed to the database engine,
    and the two calls to the hosted agent. *)
Inductive event :=
| SqlExecuted (stmt : string)
| AgentCreated
| AgentInvoked (input : string).

(** A computation: the calls it made, in order, and its outcome. *)
Definition py (A : Type) : Type := list event * outcome A.

Definition ret {A} (a : A) : py A := ([], Return a).

Definition lift {A} (o : outcome A) : py A := ([], o).

Definition call {A} (e : event) (o : outcome A) : py A := ([e], o).

Definition bind {A B} (c : py A) (f : A -> py B) : py B :=
  match c with
  | (l, Return a) => let (l', o) := f a in ((l ++ l')%list, o)
  | (l, Raise msg) => (l, Raise msg)
  end.

(** [try: c  except Exception as e: h(str(e))] *)
Definition try_except {A} (c : py A) (h : string -> py A) : py A :=
  match c with
  | (l, Return a) => (l, Return a)
  | (l, Raise msg) => let (l', o) := h msg in ((l ++ l')%list, o)
  end.

Definition trace {A} (c : py A) : list event := fst c.
Definition result {A} (c : py A) : outcome A := snd c.

(** The statements a computation handed to the database engine. *)
Fixpoint executed (l : list event) : list string :=
  match l with
  | SqlExecuted stmt :: l' => stmt :: executed l'
  | _ :: l' => executed l'
  | [] => []
  end.

(** Parsed JSON, as [json.loads] and [request.get_json] return it.
    A [float] is kept as its [repr]. *)
#[warnings="-register-all"] Inductive value :=
| VNone
| VBool (b : bool)
| VInt (z : Z)
| VFloat (repr : string)
| VStr (s : string)
| VList (l : list value)
| VDict (l : list (string * value)).

Definition type_name (v : value) : string :=
  match v with
  | VNone => "NoneType"
  | VBool _ => "bool"
  | VInt _ => "int"
  | VFloat _ => "float"
  | VStr _ => "str"
  | VList _ => "list"
  | VDict _ => "dict"
  end.

Definition attribute_error {A} (v : value) (attr : string) : outcome A :=
  Raise ("'" ++ type_name v ++ "' object has no attribute '" ++ attr ++ "'").

Fixpoint lookup (key : string) (l : list (string * value)) : option value :=
  match l with
  | (k, v) :: l' => if String.eqb k key then Some v else lookup key l'
  | [] => None
  end.

(** [v.get(key, default)] *)
Definition value_get (v : value) (key : string) (default : value) : outcome value :=
  match v with
  | VDict l =>
      match lookup key l with
      | Some x => Return x
      | None => Return default
      end
  | _ => attribute_error v "get"
  end.

(** [v.strip()] *)
Definition value_strip (v : value) : outcome string :=
  match v with
  | VStr s => Return (PyStr.strip s)
  | _ => attribute_error v "strip"
  end.

(** [v[key]] for a [str] key; [None] stands for the [KeyError] or
    [TypeError], which the only caller swallows with a bare [except]. *)
Definition value_getitem (v : value) (key : string) : option value :=
  match v with
  | VDict l => lookup key l
  | _ => None
  end.

Definition repr_list {A} (repr : A -> string) (l : list A) : string :=
  "[" ++ PyStr.join ", " (map repr l) ++ "]".

Section Repr.

(** [repr] of a [str]; its quoting and escaping rules are not modelled. *)
Variable repr_str : string -> string.

Fixpoint repr (v : value) : string :=
  match v with
  | VNone => "None"
  | VBool true => "True"
  | VBool false => "False"
  | VInt z => NilZero.string_of_int (Z.to_int z)
  | VFloat r => r
  | VStr s => repr_str s
  | VList l => "[" ++ PyStr.join ", " (map repr l) ++ "]"
  | VDict l =>
      "{" ++ PyStr.join ", "
               (map (fun kv => repr_str (fst kv) ++ ": " ++ repr (snd kv)) l)
      ++ "}"
  end.

(** [str(v)], as an f-string formats it. *)
Definition str (v : value) : string :=
  match v with
  | VStr s => s
  | _ => repr v
  end.

End Repr.

Module Notations.
  Notation "x <- c ;; k" := (bind c (fun x => k))
    (at level 61, c at next level, right associativity).
End Notations.

End Py.

(** ** The application's environment *)

Section Environment.

Import Py.

(** A value of a result row. *)
Variable cell : Type.

(** What [result.keys()] and [result.fetchall()] give. *)
Record result_set := ResultSet {
  columns : list string;
  rows : list (list cell)
}.

(** The world outside the process.
    - [exec_driver_sql stmt]: opening a connection on [engine], running
      [stmt] and fetching its rows and column names, or the exception of
      whichever step failed.
    - [get_sql_agent]: [None] when the agent cannot be built; otherwise
      what [agent.invoke({"input": q})["output"]] gives for each [q].
    - [json_loads]: [json.loads]. *)
Record env := Env {
  exec_driver_sql : string -> outcome result_set;
  get_sql_agent : option (string -> outcome string);
  json_loads : string -> outcome value
}.

Definition run_sql (e : env) (stmt : string) : py result_set :=
  call (SqlExecuted stmt) (exec_driver_sql e stmt).

End Environment.

Arguments ResultSet {cell} columns rows.

(** ** [SafeSQLTool] *)

Module SafeSQLTool.

Import PyStr Re Py Py.Notations.

(** [r"\b(INSERT|UPDATE|DELETE|DROP|TRUNCATE|ALTER|CREATE|REPLACE)\b"]
    with [re.I] *)
Definition keywords : list string :=
  ["UPDATE"; "DELETE"; "DROP"; "TRUNCATE"; "ALTER"; "CREATE"; "REPLACE"].

Definition write_operation : pattern :=
  Pattern (Seq Bnd (Seq (alternatives "INSERT" keywords) Bnd)) true.

(** [r"(?is)^\s*select\b"]; the flag [s] only concerns [.] *)
Definition select_statement : pattern :=
  Pattern (Seq Bol (Seq (Star Space) (Seq (word "select") Bnd))) true.

(** [r"\blimit\s+\d+\b"] with [re.I] *)
Definition limit_clause : pattern :=
  Pattern
    (Seq Bnd (Seq (word "limit") (Seq (Plus Space) (Seq (Plus Digit) Bnd))))
    true.

Definition write_error : string :=
  "ERROR: Write operations are not allowed for security reasons.".
Definition multiple_error : string :=
  "ERROR: Multiple statements are not allowed.".
Definition select_error : string :=
  "ERROR: Only SELECT statements are allowed.".
Definition no_results : string :=
  "Query executed successfully but returned no results.".

(** The security validation of [_run] and its LIMIT step: either the error
    string that [_run] returns at once, or the statement it goes on to
    execute. *)
Inductive verdict :=
| Rejected (msg : string)
| Accepted (stmt : string).

Definition sanitize (sql : string) : verdict :=
  let s := strip sql in
  if re_search write_operation s then Rejected write_error
  else if contains ";" s && negb (endswith (strip s) ";") then
    Rejected multiple_error
  else if negb (re_match select_statement s) then Rejected select_error
  else Accepted (if negb (re_search limit_clause s) then s ++ " LIMIT 50" else s).

Section Run.

Variable cell : Type.

(** [repr] of a row value and of a [str]. *)
Variable repr_cell : cell -> string.
Variable repr_str : string -> string.

(** The dict [result_data] that [_run] builds for the frontend. *)
Record result_data := ResultData {
  rd_columns : list string;
  rd_rows : list (list cell);
  rd_row_count : nat
}.

(** [str(result_data)], as the f-string formats it. *)
Definition str_result_data (d : result_data) : string :=
  "{'columns': " ++ repr_list repr_str (rd_columns d)
  ++ ", 'rows': " ++ repr_list (repr_list repr_cell) (rd_rows d)
  ++ ", 'row_count': " ++ of_nat (rd_row_count d) ++ "}".

Definition _run (e : env cell) (sql : string) : py string :=
  match sanitize sql with
  | Rejected msg => ret msg
  | Accepted s =>
      try_except
        (rs <- run_sql e s ;;
         match rows rs with
         | [] => ret no_results
         | _ :: _ =>
             let result_data :=
               ResultData (columns rs) (rows rs) (List.length (rows rs)) in
             ret ("SUCCESS: " ++ str_result_data result_data)
         end)
        (fun msg => ret ("ERROR: " ++ msg))
  end.

End Run.

End SafeSQLTool.

(** ** The [/api/query] endpoint *)

Section Endpoint.

Import PyStr Py Py.Notations.

Variable cell : Type.
Variable repr_str : string -> string.

(** The [data] entry of a response. *)
Inductive payload :=
| NoData
| Parsed (structured_data : value)
| Table (columns : list string) (rows : list (list cell)) (row_count : nat).

(** The two shapes of dict that the handlers pass to [jsonify]. *)
Inductive body :=
| Error (error : string)
| Answer (success : bool) (message : string) (data : payload).

(** A response and its HTTP status. *)
Definition response : Type := body * nat.

Definition jsonify (b : body) : response := (b, 200).

Definition nl : string := String "010"%char EmptyString.
Definition dq : string := String "034"%char EmptyString.

Definition direct_results : string :=
  " (API quota exceeded, showing direct database results)".

(** The common shape of the four [get_*_data] functions. *)
Definition get_data (e : env cell) (stmt : string) (message : nat -> string)
  : py response :=
  try_except
    (rs <- run_sql e stmt ;;
     ret (jsonify (Answer true (message (List.length (rows rs)))
                     (Table (columns rs) (rows rs) (List.length (rows rs))))))
    (fun msg => ret (jsonify (Answer false ("Database error: " ++ msg) NoData))).

Definition get_customers_data (e : env cell) : py response :=
  get_data e "SELECT * FROM customers LIMIT 20"
    (fun n => "Found " ++ of_nat n ++ " customers" ++ direct_results).

Definition get_products_data (e : env cell) : py response :=
  get_data e "SELECT * FROM products LIMIT 20"
    (fun n => "Found " ++ of_nat n ++ " products" ++ direct_results).

Definition get_orders_data (e : env cell) : py response :=
  get_data e "SELECT * FROM orders LIMIT 20"
    (fun n => "Found " ++ of_nat n ++ " orders" ++ direct_results).

Definition revenue_sql : string :=
  nl ++ "                SELECT " ++
  nl ++ "                    SUM(oi.quantity * oi.unit_price_cents) as total_revenue_cents," ++
  nl ++ "                    COUNT(DISTINCT o.id) as total_orders," ++
  nl ++ "                    COUNT(DISTINCT o.customer_id) as total_customers" ++
  nl ++ "                FROM orders o" ++
  nl ++ "                JOIN order_items oi ON o.id = oi.order_id" ++
  nl ++ "            ".

Definition get_revenue_data (e : env cell) : py response :=
  get_data e revenue_sql (fun _ => "Revenue analysis" ++ direct_results).

Definition quota_message : string :=
  "API quota exceeded. Please try again later or upgrade your plan. For now, try asking about "
  ++ dq ++ "customers" ++ dq ++ ", " ++ dq ++ "products" ++ dq ++ ", or "
  ++ dq ++ "orders" ++ dq ++ ".".

Definition handle_quota_exceeded (e : env cell) (user_query : string)
  : py response :=
  try_except
    (let query_lower := lower user_query in
     if contains "customers" query_lower then get_customers_data e
     else if contains "products" query_lower then get_products_data e
     else if contains "orders" query_lower then get_orders_data e
     else if contains "revenue" query_lower || contains "total" query_lower
     then get_revenue_data e
     else ret (jsonify (Answer false quota_message NoData)))
    (fun msg =>
       ret (jsonify
              (Answer false ("API quota exceeded and fallback failed: " ++ msg)
                 NoData))).

(** [json.loads(data_part)] followed by [structured_data['row_count']];
    any exception of the two is swallowed by the bare [except]. *)
Definition structured (e : env cell) (data_part : string)
  : option (value * value) :=
  match json_loads e data_part with
  | Return structured_data =>
      match value_getitem structured_data "row_count" with
      | Some n => Some (structured_data, n)
      | None => None
      end
  | Raise _ => None
  end.

Definition is_quota_error (error_msg : string) : bool :=
  contains "429" error_msg || contains "quota" (lower error_msg).

(** The handler; [request] is what [request.get_json()] evaluates to. *)
Definition query_agent (e : env cell) (request : outcome value) : py response :=
  try_except
    (data <- lift request ;;
     q <- lift (value_get data "query" (VStr "")) ;;
     user_query <- lift (value_strip q) ;;
     if is_empty user_query then ret (Error "No query provided", 400)
     else
       try_except
         (agent <- call AgentCreated (Return (get_sql_agent e)) ;;
          match agent with
          | None =>
              ret (Error "Failed to initialize SQL agent. Check your API key.", 500)
          | Some invoke =>
              result <- call (AgentInvoked user_query) (invoke user_query) ;;
              if startswith result "SUCCESS: " then
                match structured e (drop 9 result) with
                | Some (structured_data, n) =>
                    ret (jsonify
                           (Answer true
                              ("Query executed successfully. Found "
                               ++ str repr_str n ++ " rows.")
                              (Parsed structured_data)))
                | None => ret (jsonify (Answer true result NoData))
                end
              else ret (jsonify (Answer false result NoData))
          end)
         (fun error_msg =>
            if is_quota_error error_msg
            then handle_quota_exceeded e user_query
            else ret (Error ("Server error: " ++ error_msg), 500)))
    (fun msg => ret (Error ("Server error: " ++ msg), 500)).

End Endpoint.

Arguments NoData {cell}.
Arguments Parsed {cell} structured_data.
Arguments Table {cell} columns rows row_count.
Arguments Error {cell} error.
Arguments Answer {cell} success message data.

(** * A sample world *)

Module Sample.

Import PyStr Py.

(** [repr] of an [int] cell. *)
Definition repr_int (z : Z) : string := NilZero.string_of_int (Z.to_int z).

(** [repr] of a [str] that needs no escaping. *)
Definition repr_plain (s : string) : string := "'" ++ s ++ "'".

(** A database with a table [customers] of two rows; any statement it does
    not know fails. *)
Definition sample_db (stmt : string) : outcome (result_set Z) :=
  if String.eqb stmt "SELECT id FROM customers LIMIT 50" then
    Return (ResultSet ["id"] [[1%Z]; [2%Z]])
  else if String.eqb stmt "SELECT id FROM customers WHERE id < 0 LIMIT 50" then
    Return (ResultSet ["id"] [])
  else if String.eqb stmt "SELECT * FROM customers LIMIT 20" then
    Return (ResultSet ["id"; "region"] [[1%Z; 10%Z]; [2%Z; 20%Z]])
  else Raise "(sqlite3.OperationalError) no such table".

(** A hosted agent whose quota is used up for every question but one,
    which fails for another reason. *)
Definition sample_agent (input : string) : outcome string :=
  if String.eqb input "ping" then Raise "Connection reset by peer"
  else Raise "429 You exceeded your current quota".

Definition sample_env : env Z :=
  Env sample_db (Some sample_agent) (fun _ => Raise "Expecting value").

End Sample.

(** * The words of the specification *)

Unset Implicit Arguments.

Module Reading.

Import PyChar PyStr Re Py.

(** Every character of [s] satisfies [p]. *)
Fixpoint all (p : ascii -> bool) (s : string) : bool :=
  match s with
  | String c s' => p c && all p s'
  | EmptyString => true
  end.

(** The character before the position reached after reading [w], when
    [prev] was the character before [w]. *)
Fixpoint last_of (prev : option ascii) (w : string) : option ascii :=
  match w with
  | String c w' => last_of (Some c) w'
  | EmptyString => prev
  end.

Definition last_char (s : string) : option ascii := last_of None s.

(** [w] is the word [kw], letter for letter, under the flag [ic]. *)
Fixpoint same_word (ic : bool) (kw w : string) : bool :=
  match kw, w with
  | String c kw', String x w' => lit_eq ic c x && same_word ic kw' w'
  | EmptyString, EmptyString => true
  | _, _ => false
  end.

(** A token starts and ends with a word character. *)
Definition token (P : string -> Prop) : Prop :=
  forall w, P w ->
    isword_opt (head w) = true /\ isword_opt (last_char w) = true.

(** A piece [w] of [s] that satisfies [P] and has no word character just
    before it and none just after it. *)
Definition occurs (P : string -> Prop) (s : string) : Prop :=
  exists pre w post,
    s = pre ++ w ++ post /\ P w
    /\ isword_opt (last_char pre) = false /\ isword_opt (head post) = false.

(** [w] is [kw] up to the case of its letters. *)
Definition spells (kw w : string) : Prop := lower w = lower kw.

(** [s] contains [kw], case-insensitively, as a whole word. *)
Definition whole_word (kw s : string) : Prop := occurs (spells kw) s.

Definition write_keywords : list string :=
  ["INSERT"; "UPDATE"; "DELETE"; "DROP"; "TRUNCATE"; "ALTER"; "CREATE"; "REPLACE"].

(** [s] contains one of the write keywords as a whole word. *)
Definition has_write_keyword (s : string) : Prop :=
  exists kw, In kw write_keywords /\ whole_word kw s.

(** [s] begins, after optional white space, with the keyword SELECT. *)
Definition begins_with_select (s : string) : Prop :=
  exists ws w post,
    s = ws ++ w ++ post /\ all isspace ws = true /\ spells "SELECT" w
    /\ isword_opt (head post) = false.

(** [w] is the keyword LIMIT, white space, and a number. *)
Definition limit_number (w : string) : Prop :=
  exists kw ws ds,
    w = kw ++ ws ++ ds /\ spells "LIMIT" kw
    /\ ws <> "" /\ all isspace ws = true
    /\ ds <> "" /\ all isdecimal ds = true.

(** [s] contains a LIMIT clause followed by a number. *)
Definition has_limit (s : string) : Prop := occurs limit_number s.

(** [s] contains the character [c] somewhere before its last position. *)
Definition has_before_end (c : ascii) (s : string) : Prop :=
  exists pre post, s = pre ++ String c post /\ post <> "".

Definition has_char (c : ascii) (s : string) : Prop :=
  exists pre post, s = pre ++ String c post.

Definition ends_with_char (c : ascii) (s : string) : Prop :=
  exists pre, s = pre ++ String c "".

(** The trimmed input holds a semicolon and does not end with one. *)
Definition open_chain (sql : string) : Prop :=
  has_char ";" (strip sql) /\ ~ ends_with_char ";" (strip sql).

(** The input passes the three validation checks of [_run]. *)
Definition passes_validation (sql : string) : Prop :=
  ~ has_write_keyword sql /\ ~ open_chain sql /\ begins_with_select sql.

(** [sub] is a piece of [s]. *)
Definition substring (sub s : string) : Prop :=
  exists pre post, s = pre ++ sub ++ post.

(** The message of a quota error: it mentions 429 or, in any case, quota. *)
Definition quota_error (msg : string) : Prop :=
  substring "429" msg \/ substring "quota" (lower msg).

(** The user query mentions [kw], in any case. *)
Definition mentions (kw q : string) : Prop := substring kw (lower q).

(** The five answers of the fallback. *)
Inductive fallback := Customers | Products | Orders | Revenue | QuotaMessage.

(** The keyword routing of the fallback, in the order the handler tests. *)
Inductive routed (q : string) : fallback -> Prop :=
| route_customers :
    mentions "customers" q -> routed q Customers
| route_products :
    ~ mentions "customers" q -> mentions "products" q -> routed q Products
| route_orders :
    ~ mentions "customers" q -> ~ mentions "products" q ->
    mentions "orders" q -> routed q Orders
| route_revenue :
    ~ mentions "customers" q -> ~ mentions "products" q ->
    ~ mentions "orders" q ->
    mentions "revenue" q \/ mentions "total" q -> routed q Revenue
| route_message :
    ~ mentions "customers" q -> ~ mentions "products" q ->
    ~ mentions "orders" q -> ~ mentions "revenue" q -> ~ mentions "total" q ->
    routed q QuotaMessage.

(** [c], after the calls [l] were made. *)
Definition after {A} (l : list event) (c : py A) : py A :=
  ((l ++ trace c)%list, result c).

Section Handler.

Variable cell : Type.
Variable repr_str : string -> string.
Variable e : env cell.

(** The response of each answer of the fallback. *)
Definition fallback_response (f : fallback) : py (response cell) :=
  match f with
  | Customers => get_customers_data e
  | Products => get_products_data e
  | Orders => get_orders_data e
  | Revenue => get_revenue_data e
  | QuotaMessage => ret (jsonify (Answer false quota_message NoData))
  end.

(** The handler, once the body gave the query [q] and the trimmed query is
    not empty. *)
Definition answer_query (uq : string) : py (response cell) :=
  match get_sql_agent e with
  | None =>
      ([AgentCreated],
       Return (Error "Failed to initialize SQL agent. Check your API key.", 500))
  | Some invoke =>
      match invoke uq with
      | Raise msg =>
          if is_quota_error msg
          then after [AgentCreated; AgentInvoked uq] (handle_quota_exceeded e uq)
          else ([AgentCreated; AgentInvoked uq],
                Return (Error ("Server error: " ++ msg), 500))
      | Return out =>
          ([AgentCreated; AgentInvoked uq],
           Return
             (if startswith out "SUCCESS: " then
                match structured e (drop 9 out) with
                | Some (structured_data, n) =>
                    jsonify
                      (Answer true
                         ("Query executed successfully. Found "
                          ++ str repr_str n ++ " rows.")
                         (Parsed structured_data))
                | None => jsonify (Answer true out NoData)
                end
              else jsonify (Answer false out NoData)))
      end
  end.

End Handler.

End Reading.

(** ** The [/api/schema] endpoint *)

Module SchemaEndpoint.

Import PyStr Py Py.Notations.

(** What the handler does with a value of a row: [cell_str] formats it in
    an f-string, [cell_truth] is its truth value under [not], and
    [cell_eqb] tells whether two values are the same key of a dict.  The
    values are taken to be ones that [jsonify] can serialise, as those of
    [sqlite_master] and [PRAGMA table_info] are. *)
Record cell_ops (cell : Type) := CellOps {
  cell_str : cell -> string;
  cell_truth : cell -> bool;
  cell_eqb : cell -> cell -> bool
}.

Arguments CellOps {cell} cell_str cell_truth cell_eqb.
Arguments cell_str {cell} c _.
Arguments cell_truth {cell} c _.
Arguments cell_eqb {cell} c _ _.

Section Schema.

Variable cell : Type.
Variable ops : cell_ops cell.

(** One entry of the list stored for a table. *)
Record column := Column {
  col_name : cell;
  col_type : cell;
  col_nullable : bool
}.

(** The dict [schema_info], in insertion order. *)
Definition schema_dict : Type := list (cell * list column).

(** [d[k] = v]: an equal key keeps its place and takes the new value. *)
Fixpoint dict_set (k : cell) (v : list column) (d : schema_dict) : schema_dict :=
  match d with
  | [] => [(k, v)]
  | (k', v') :: d' =>
      if cell_eqb ops k' k then (k', v) :: d' else (k', v') :: dict_set k v d'
  end.

(** The two dicts that [get_schema] passes to [jsonify]. *)
Inductive schema_body :=
| SchemaError (error : string)
| SchemaInfo (schema : schema_dict).

Definition schema_response : Type := schema_body * nat.

(** [row[i]]: the [IndexError] of the tuple of the row. *)
Definition item (row : list cell) (i : nat) : outcome cell :=
  match nth_error row i with
  | Some c => Return c
  | None => Raise "tuple index out of range"
  end.

(** [[f(x) for x in l]]: the first exception ends the comprehension. *)
Fixpoint comprehension {A B : Type} (f : A -> outcome B) (l : list A)
  : outcome (list B) :=
  match l with
  | [] => Return []
  | a :: l' =>
      match f a with
      | Raise msg => Raise msg
      | Return b =>
          match comprehension f l' with
          | Raise msg => Raise msg
          | Return bs => Return (b :: bs)
          end
      end
  end.

(** [{'name': col[1], 'type': col[2], 'nullable': not col[3]}] *)
Definition column_of (col : list cell) : outcome column :=
  match item col 1 with
  | Raise msg => Raise msg
  | Return n =>
      match item col 2 with
      | Raise msg => Raise msg
      | Return t =>
          match item col 3 with
          | Raise msg => Raise msg
          | Return notnull => Return (Column n t (negb (cell_truth ops notnull)))
          end
      end
  end.

Definition tables_sql : string :=
  "SELECT name FROM sqlite_master WHERE type='table'".

(** [f"PRAGMA table_info({table})"] *)
Definition table_info_sql (table : cell) : string :=
  "PRAGMA table_info(" ++ cell_str ops table ++ ")".

(** The loop [for table in tables], from the dict built so far. *)
Fixpoint describe (e : env cell) (tables : list cell) (schema_info : schema_dict)
  : py schema_dict :=
  match tables with
  | [] => ret schema_info
  | table :: tables' =>
      result <- run_sql e (table_info_sql table) ;;
      columns <- lift (comprehension column_of (rows result)) ;;
      describe e tables' (dict_set table columns schema_info)
  end.

Definition get_schema (e : env cell) : py schema_response :=
  try_except
    (result <- run_sql e tables_sql ;;
     tables <- lift (comprehension (fun row => item row 0) (rows result)) ;;
     schema_info <- describe e tables [] ;;
     ret (SchemaInfo schema_info, 200))
    (fun msg => ret (SchemaError ("Failed to get schema: " ++ msg), 500)).

(** The keys of a dict. *)
Definition keys (d : schema_dict) : list cell := map fst d.

End Schema.

Arguments Column {cell} col_name col_type col_nullable.
Arguments col_name {cell} c.
Arguments col_type {cell} c.
Arguments col_nullable {cell} c.
Arguments SchemaError {cell} error.
Arguments SchemaInfo {cell} schema.
Arguments dict_set {cell} ops k v d.
Arguments item {cell} row i.
Arguments column_of {cell} ops col.
Arguments table_info_sql {cell} ops table.
Arguments describe {cell} ops e tables schema_info.
Arguments get_schema {cell} ops e.
Arguments keys {cell} d.

(** Values for the examples: text and integers. *)
Inductive datum :=
| Text (s : string)
| Int (z : Z).

Definition datum_ops : cell_ops datum :=
  CellOps
    (fun d => match d with Text s => s | Int z => Sample.repr_int z end)
    (fun d => match d with Text s => negb (is_empty s) | Int z => negb (Z.eqb z 0) end)
    (fun a b =>
       match a, b with
       | Text s, Text t => String.eqb s t
       | Int x, Int y => Z.eqb x y
       | _, _ => false
       end).

(** A database with two tables, for the examples. *)
Definition schema_db (stmt : string) : outcome (result_set datum) :=
  if String.eqb stmt "SELECT name FROM sqlite_master WHERE type='table'" then
    Return (ResultSet ["name"] [[Text "customers"]; [Text "orders"]])
  else if String.eqb stmt "PRAGMA table_info(customers)" then
    Return (ResultSet []
              [[Int 0; Text "id"; Text "INTEGER"; Int 1; Text ""; Int 1];
               [Int 1; Text "name"; Text "TEXT"; Int 0; Text ""; Int 0]])
  else if String.eqb stmt "PRAGMA table_info(orders)" then
    Return (ResultSet []
              [[Int 0; Text "id"; Text "INTEGER"; Int 1; Text ""; Int 1]])
  else Raise "(sqlite3.OperationalError) no such table".

Definition schema_env : env datum :=
  Env schema_db None (fun _ => Raise "Expecting value").

End SchemaEndpoint.

(** ** The command line of [cli_test.py] *)

Module Cli.

Import PyStr Py.

(** A printed text, as its code points: a run of code points below 256 is
    a string, any other code point stands by its number. *)
Inductive piece :=
| Chars (s : string)
| Point (code : N).

Definition text : Type := list piece.

(** What the command line does: a [print], an [input] with its prompt,
    and the [exec] of the text of a file. *)
Inductive event :=
| Printed (line : text)
| Asked (prompt : string)
| Executed (path : string).

(** The world of the command line.
    - [exec_file path]: [exec(open(path).read())], or the exception of
      opening, reading or running the file.  As everywhere, [Raise] is an
      exception of class [Exception], the ones that [except Exception]
      catches; a script is taken not to read the typed lines itself.
    - [getenv name]: [os.getenv(name)], once [load_dotenv()] has run.
    - [path_exists path]: [os.path.exists(path)]. *)
Record world := World {
  exec_file : string -> outcome unit;
  getenv : string -> option string;
  path_exists : string -> bool
}.

(** A computation: what it did, in order, and its outcome. *)
Definition cli (A : Type) : Type := list event * outcome A.

Definition pure {A : Type} (a : A) : cli A := ([], Return a).

Definition seq {A B : Type} (c : cli A) (f : A -> cli B) : cli B :=
  match c with
  | (l, Return a) => let (l', o) := f a in ((l ++ l')%list, o)
  | (l, Raise msg) => (l, Raise msg)
  end.

(** [try: c  except Exception as e: h(str(e))].  An outcome here is a
    return or an exception of class [Exception]: a [SystemExit] or a
    [KeyboardInterrupt], which [except Exception] lets through, is not an
    outcome of this model, and what is proved of the command line is
    proved of the runs without one. *)
Definition attempt {A : Type} (c : cli A) (h : string -> cli A) : cli A :=
  match c with
  | (l, Return a) => (l, Return a)
  | (l, Raise msg) => let (l', o) := h msg in ((l ++ l')%list, o)
  end.

Notation "c ;; k" := (seq c (fun _ => k))
  (at level 61, right associativity).

Definition print (line : text) : cli unit := ([Printed line], Return tt).

Definition exec (w : world) (path : string) : cli unit :=
  ([Executed path], exec_file w path).

(** [input(prompt)] on a line that was typed. *)
Definition asked (prompt : string) : cli unit := ([Asked prompt], Return tt).

(** [input(prompt)] when no line is left: the [EOFError]. *)
Definition end_of_input : string := "EOF when reading a line".

Definition starved {A : Type} (prompt : string) : cli A :=
  ([Asked prompt], Raise end_of_input).

(** [s * n] *)
Fixpoint times (s : string) (n : nat) : string :=
  match n with
  | O => ""
  | S n' => s ++ times s n'
  end.

Definition completed (number : string) : text :=
  [Point 0x2705; Chars (" Script " ++ number ++ " completed successfully!")].

Definition failed (number e : string) : text :=
  [Point 0x274c; Chars (" Script " ++ number ++ " failed: " ++ e)].

(** The common shape of the five [test_script_*] functions. *)
Definition test_script (w : world) (banner : text) (number path : string)
  : cli unit :=
  print banner ;;
  print [Chars (times "=" 50)] ;;
  attempt
    (exec w path ;; print (completed number))
    (fun e => print (failed number e)) ;;
  print [].

Definition test_script_00 (w : world) : cli unit :=
  test_script w [Point 0x1f916; Chars " Testing Script 00: Simple LLM"]
    "00" "scripts/00_simple_llm.py".

Definition test_script_01 (w : world) : cli unit :=
  test_script w [Point 0x1f50d; Chars " Testing Script 01: Simple SQL Agent"]
    "01" "scripts/01_simple_agent.py".

Definition test_script_02 (w : world) : cli unit :=
  test_script w
    [Point 0x26a0; Point 0xfe0f; Chars "  Testing Script 02: Dangerous SQL Agent"]
    "02" "scripts/02_risky_delete_demo.py".

Definition test_script_03 (w : world) : cli unit :=
  test_script w
    [Point 0x1f6e1; Point 0xfe0f; Chars "  Testing Script 03: Secure SQL Agent"]
    "03" "scripts/03_guardrailed_agent.py".

Definition test_script_04 (w : world) : cli unit :=
  test_script w [Point 0x1f4ca; Chars " Testing Script 04: Advanced Analytics"]
    "04" "scripts/04_complex_queries.py".

Definition select_prompt : string := "Select script to test (0-5, q): ".
Definition confirm_prompt : string := "Continue? (y/N): ".

Definition goodbye : text := [Point 0x1f44b; Chars " Goodbye!"].
Definition warning : text :=
  [Point 0x26a0; Point 0xfe0f;
   Chars "  WARNING: This script demonstrates dangerous patterns!"].
Definition invalid : text :=
  [Point 0x274c; Chars " Invalid choice. Please select 0-5 or q."].

(** The loop [while True] of [interactive_mode], on the lines that are
    typed from now on. *)
Fixpoint choose (w : world) (inputs : list string) : cli unit :=
  match inputs with
  | [] => starved select_prompt
  | line :: rest =>
      let choice := lower (strip line) in
      asked select_prompt ;;
      if String.eqb choice "q" then print goodbye
      else if String.eqb choice "0" then test_script_00 w ;; choose w rest
      else if String.eqb choice "1" then test_script_01 w ;; choose w rest
      else if String.eqb choice "2" then
        print warning ;;
        match rest with
        | [] => starved confirm_prompt
        | answer :: rest' =>
            let confirm := lower (strip answer) in
            asked confirm_prompt ;;
            (if String.eqb confirm "y" then test_script_02 w
             else print [Chars "Skipped."]) ;;
            choose w rest'
        end
      else if String.eqb choice "3" then test_script_03 w ;; choose w rest
      else if String.eqb choice "4" then test_script_04 w ;; choose w rest
      else if String.eqb choice "5" then
        print [Point 0x1f680; Chars " Testing all scripts..."] ;;
        test_script_00 w ;;
        test_script_01 w ;;
        test_script_02 w ;;
        test_script_03 w ;;
        test_script_04 w ;;
        print [Point 0x1f389; Chars " All tests completed!"] ;;
        choose w rest
      else print invalid ;; choose w rest
  end.

Definition interactive_mode (w : world) (inputs : list string) : cli unit :=
  print [Point 0x1f3af; Chars " Interactive SQL Agent Testing"] ;;
  print [Chars (times "=" 50)] ;;
  print [Chars "Available scripts:"] ;;
  print [Chars "0 - Simple LLM (no SQL)"] ;;
  print [Chars "1 - Simple SQL Agent"] ;;
  print [Chars "2 - Dangerous SQL Agent ("; Point 0x26a0; Point 0xfe0f;
         Chars "  educational)"] ;;
  print [Chars "3 - Secure SQL Agent"] ;;
  print [Chars "4 - Advanced Analytics"] ;;
  print [Chars "5 - Test all scripts"] ;;
  print [Chars "q - Quit"] ;;
  print [] ;;
  choose w inputs.

(** [not os.getenv(name)] *)
Definition unset (v : option string) : bool :=
  match v with
  | None => true
  | Some s => is_empty s
  end.

Definition main (w : world) (inputs : list string) : cli unit :=
  print [Point 0x1f916; Chars " SQL Agent CLI Test Interface"] ;;
  print [Chars (times "=" 60)] ;;
  print [Chars "Testing SQL Agent scripts with Gemini API"] ;;
  print [] ;;
  if unset (getenv w "GEMINI_API_KEY") then
    print [Point 0x274c; Chars " ERROR: GEMINI_API_KEY not found in environment!"] ;;
    print [Chars "Please set your Google Gemini API key in the .env file"]
  else
    print [Point 0x2705; Chars " GEMINI_API_KEY found"] ;;
    print [] ;;
    if negb (path_exists w "sql_agent_class.db") then
      print [Point 0x274c; Chars " ERROR: Database file not found!"] ;;
      print [Chars "Please ensure sql_agent_class.db exists in the current directory"]
    else
      print [Point 0x2705; Chars " Database file found"] ;;
      print [] ;;
      interactive_mode w inputs.

(** The line that a test prints after it ran its script. *)
Definition report (w : world) (number path : string) : text :=
  match exec_file w path with
  | Return _ => completed number
  | Raise e => failed number e
  end.

(** The files that a computation ran, in order. *)
Fixpoint scripts (l : list event) : list string :=
  match l with
  | Executed path :: l' => path :: scripts l'
  | _ :: l' => scripts l'
  | [] => []
  end.

(** The prompts that a computation showed, in order. *)
Fixpoint prompts (l : list event) : list string :=
  match l with
  | Asked prompt :: l' => prompt :: prompts l'
  | _ :: l' => prompts l'
  | [] => []
  end.

(** The five scripts, in the order of choice 5. *)
Definition all_scripts : list string :=
  ["scripts/00_simple_llm.py";
   "scripts/01_simple_agent.py";
   "scripts/02_risky_delete_demo.py";
   "scripts/03_guardrailed_agent.py";
   "scripts/04_complex_queries.py"].

(** The script of a choice that names one. *)
Definition script_of (choice : string) : option string :=
  if String.eqb choice "0" then Some "scripts/00_simple_llm.py"
  else if String.eqb choice "1" then Some "scripts/01_simple_agent.py"
  else if String.eqb choice "3" then Some "scripts/03_guardrailed_agent.py"
  else if String.eqb choice "4" then Some "scripts/04_complex_queries.py"
  else None.

(** A world for the examples: the key is set, the database is there, and
    the second script fails. *)
Definition sample_world : world :=
  World
    (fun path =>
       if String.eqb path "scripts/01_simple_agent.py"
       then Raise "No module named 'langchain'"
       else Return tt)
    (fun name => if String.eqb name "GEMINI_API_KEY" then Some "k" else None)
    (fun _ => true).

(** The same world without the key. *)
Definition keyless_world : world :=
  World (exec_file sample_world) (fun _ => None) (path_exists sample_world).

End Cli.

(** * More words for the handlers *)

Module Vocabulary.

Import PyStr Py Reading.

(** The inputs with which a computation invoked the agent. *)
Fixpoint invoked (l : list event) : list string :=
  match l with
  | AgentInvoked input :: l' => input :: invoked l'
  | _ :: l' => invoked l'
  | [] => []
  end.

(** The statements that the fallback can run. *)
Definition fixed_statements : list string :=
  ["SELECT * FROM customers LIMIT 20";
   "SELECT * FROM products LIMIT 20";
   "SELECT * FROM orders LIMIT 20";
   revenue_sql].

(** The statement that the revenue answer runs, line by line. *)
Definition revenue_statement : string :=
  String.concat nl
    [EmptyString;
     "                SELECT ";
     "                    SUM(oi.quantity * oi.unit_price_cents) as total_revenue_cents,";
     "                    COUNT(DISTINCT o.id) as total_orders,";
     "                    COUNT(DISTINCT o.customer_id) as total_customers";
     "                FROM orders o";
     "                JOIN order_items oi ON o.id = oi.order_id";
     "            "].

(** The statement that each answer of the fallback runs. *)
Definition fallback_statement (f : fallback) : option string :=
  match f with
  | Customers => Some "SELECT * FROM customers LIMIT 20"
  | Products => Some "SELECT * FROM products LIMIT 20"
  | Orders => Some "SELECT * FROM orders LIMIT 20"
  | Revenue => Some revenue_statement
  | QuotaMessage => None
  end.

(** The message of the answer that runs no statement. *)
Definition quota_text : string :=
  String.concat dq
    ["API quota exceeded. Please try again later or upgrade your plan. For now, try asking about ";
     "customers"; ", "; "products"; ", or "; "orders"; "."].

(** The message of each answer, over the [n] rows that its statement
    gave. *)
Definition fallback_message (f : fallback) (n : nat) : string :=
  match f with
  | Customers =>
      "Found " ++ of_nat n
      ++ " customers (API quota exceeded, showing direct database results)"
  | Products =>
      "Found " ++ of_nat n
      ++ " products (API quota exceeded, showing direct database results)"
  | Orders =>
      "Found " ++ of_nat n
      ++ " orders (API quota exceeded, showing direct database results)"
  | Revenue =>
      "Revenue analysis (API quota exceeded, showing direct database results)"
  | QuotaMessage => quota_text
  end.

(** A world whose agent answers: with a structured result for one
    question, in plain words for the others. *)
Definition counted : string := "{" ++ dq ++ "row_count" ++ dq ++ ": 2}".

Definition answering_agent (input : string) : outcome string :=
  if String.eqb input "count" then Return ("SUCCESS: " ++ counted)
  else Return "There are two customers.".

Definition answering_env : env Z :=
  Env Sample.sample_db (Some answering_agent)
    (fun s =>
       if String.eqb s counted then Return (VDict [("row_count", VInt 2)])
       else Raise "Expecting value").

End Vocabulary.

(** * Strings of any code point

    The modules above keep a [str] within the code points 0..255.  The
    validation of [_run] reads its input through [re.I], [\w], [\s] and
    [\d], which reach beyond them: the modules below model
    [SafeSQLTool._run] on a [str] of arbitrary code points. *)

(** ** Characters *)

Module UChar.

Local Open Scope N_scope.

Definition between (lo hi x : N) : bool := (lo <=? x) && (x <=? hi).

(** [Py_UNICODE_ISSPACE] beyond code point 255: U+1680, U+2000..U+200A,
    U+2028, U+2029, U+202F, U+205F and U+3000. *)
Definition wide_space (x : N) : bool :=
  (x =? 5760) || between 8192 8202 x || between 8232 8233 x
  || (x =? 8239) || (x =? 8287) || (x =? 12288).

(** The code points beyond 255 that [re.I] takes for a letter of the ASCII
    alphabet: U+0130 and U+0131 for I, U+017F for S, U+212A for K. *)
Definition wide_letters : list N := [304; 305; 383; 8490].

(** The Unicode character database beyond code point 255, as far as [\w]
    and [\d] ask it: [Py_UNICODE_ISALNUM] and [Py_UNICODE_ISDECIMAL].  The
    two tables change with the version of the database. *)
Record ucd := Ucd {
  alnum : N -> bool;
  decimal : N -> bool
}.

(** What the two tables have in every version of the database: a decimal
    digit is alphanumeric, white space is not, and the letters above are. *)
Record lawful (db : ucd) : Prop := Lawful {
  decimal_alnum : forall x, decimal db x = true -> alnum db x = true;
  space_not_alnum : forall x, wide_space x = true -> alnum db x = false;
  letters_alnum : forall x, In x wide_letters -> alnum db x = true
}.

(** [Py_UNICODE_ISSPACE]: used by [str.strip] and by [\s]. *)
Definition isspace (x : N) : bool :=
  if x <? 256 then PyChar.isspace (ascii_of_N x) else wide_space x.

(** The code points beyond 255 that [re.I] takes for the literal [c]:
    those whose lower case is the lower case of [c], and those that the
    case table of [re] adds to them. *)
Definition equivalents (c : ascii) : list N :=
  match PyChar.code (PyChar.tolower c) with
  | 105 => [304; 305]
  | 107 => [8490]
  | 115 => [383]
  | 181 => [924; 956]
  | 223 => [7838]
  | 229 => [8491]
  | 255 => [376]
  | _ => []
  end.

(** A literal [c] of a pattern against the subject character [x]. *)
Definition lit_eq (ignorecase : bool) (c : ascii) (x : N) : bool :=
  if x <? 256 then PyChar.lit_eq ignorecase c (ascii_of_N x)
  else ignorecase && existsb (N.eqb x) (equivalents c).

Section Database.

Variable db : ucd.

(** [Py_UNICODE_ISDECIMAL]: the class [\d]. *)
Definition isdecimal (x : N) : bool :=
  if x <? 256 then PyChar.isdecimal (ascii_of_N x) else decimal db x.

(** The class [\w]. *)
Definition isword (x : N) : bool :=
  if x <? 256 then PyChar.isword (ascii_of_N x) else alnum db x.

End Database.

End UChar.

(** ** Strings *)

Module UStr.

Import UChar.

Local Open Scope list_scope.

(** A [str], as the sequence of its code points. *)
Definition str : Type := list N.

(** A text of the source, which is written in code points 0..255. *)
Definition u (s : string) : str := map N_of_ascii (list_ascii_of_string s).

Definition is_empty (s : str) : bool :=
  match s with [] => true | _ :: _ => false end.

Fixpoint lstrip (s : str) : str :=
  match s with
  | c :: s' => if isspace c then lstrip s' else s
  | [] => []
  end.

Fixpoint rstrip (s : str) : str :=
  match s with
  | c :: s' =>
      let r := rstrip s' in
      if isspace c && is_empty r then [] else c :: r
  | [] => []
  end.

(** [s.strip()] *)
Definition strip (s : str) : str := rstrip (lstrip s).

(** [s == t] *)
Fixpoint eqb (s t : str) : bool :=
  match s, t with
  | [], [] => true
  | c :: s', d :: t' => (c =? d)%N && eqb s' t'
  | _, _ => false
  end.

(** [s.startswith(p)] *)
Fixpoint prefix (p s : str) : bool :=
  match p, s with
  | [], _ => true
  | c :: p', d :: s' => (c =? d)%N && prefix p' s'
  | _ :: _, [] => false
  end.

(** [sub in s] *)
Fixpoint contains (sub s : str) : bool :=
  prefix sub s
  || match s with
     | _ :: s' => contains sub s'
     | [] => false
     end.

(** [s.endswith(p)] *)
Fixpoint endswith (s p : str) : bool :=
  eqb s p
  || match s with
     | _ :: s' => endswith s' p
     | [] => false
     end.

(** [sep.join(l)] *)
Fixpoint join (sep : str) (l : list str) : str :=
  match l with
  | [] => []
  | s :: l' =>
      match l' with
      | [] => s
      | _ :: _ => s ++ sep ++ join sep l'
      end
  end.

(** [str(n)] for a non-negative [int]. *)
Definition of_nat (n : nat) : str := u (PyStr.of_nat n).

End UStr.

(** ** Regular expressions

    The syntax and the patterns are those of [Re] and [SafeSQLTool]; the
    matcher is the one of [Re], on code points. *)

Module URe.

Import UChar UStr Re.

Section Database.

Variable db : ucd.

Definition in_class (p : charclass) (x : N) : bool :=
  match p with
  | Space => UChar.isspace x
  | Digit => UChar.isdecimal db x
  end.

Definition isword_opt (c : option N) : bool :=
  match c with Some x => UChar.isword db x | None => false end.

Definition head (s : str) : option N :=
  match s with c :: _ => Some c | [] => None end.

(** [\b] *)
Definition at_boundary (prev : option N) (s : str) : bool :=
  xorb (isword_opt prev) (isword_opt (head s)).

Definition at_start (prev : option N) : bool :=
  match prev with None => true | Some _ => false end.

Definition cont := option N -> str -> bool.

Fixpoint star_m (p : N -> bool) (k : cont)
    (prev : option N) (s : str) {struct s} : bool :=
  match s with
  | x :: s' => (p x && star_m p k (Some x) s') || k prev s
  | [] => k prev s
  end.

Fixpoint m (ic : bool) (r : regex) (k : cont)
    (prev : option N) (s : str) {struct r} : bool :=
  match r with
  | Eps => k prev s
  | Lit c =>
      match s with
      | x :: s' => UChar.lit_eq ic c x && k (Some x) s'
      | [] => false
      end
  | Cls p =>
      match s with
      | x :: s' => in_class p x && k (Some x) s'
      | [] => false
      end
  | Bnd => at_boundary prev s && k prev s
  | Bol => at_start prev && k prev s
  | Seq a b => m ic a (m ic b k) prev s
  | Alt a b => m ic a k prev s || m ic b k prev s
  | Star p => star_m (in_class p) k prev s
  end.

Definition accept : cont := fun _ _ => true.

Definition match_at (p : pattern) (prev : option N) (s : str) : bool :=
  m (ignorecase p) (body p) accept prev s.

(** [re.match(p, s) is not None] *)
Definition re_match (p : pattern) (s : str) : bool := match_at p None s.

Fixpoint search_from (p : pattern) (prev : option N) (s : str) : bool :=
  match_at p prev s
  || match s with
     | c :: s' => search_from p (Some c) s'
     | [] => false
     end.

(** [re.search(p, s) is not None] *)
Definition re_search (p : pattern) (s : str) : bool := search_from p None s.

End Database.

(** The character before a position, from the 8-bit alphabet. *)
Definition up (prev : option ascii) : option N := option_map N_of_ascii prev.

(** The continuation [wk] does on code points what [k] does on the 8-bit
    alphabet. *)
Definition same_cont (wk : cont) (k : Re.cont) : Prop :=
  forall prev s, wk (up prev) (u s) = k prev s.

End URe.

(** ** Exceptions and effects *)

Module UPy.

Import UStr.

Local Open Scope list_scope.

Inductive outcome (A : Type) :=
| Return (a : A)
| Raise (msg : str).

Arguments Return {A} a.
Arguments Raise {A} msg.

(** A statement handed to the database engine. *)
Inductive event :=
| SqlExecuted (stmt : str).

Definition py (A : Type) : Type := list event * outcome A.

Definition ret {A} (a : A) : py A := ([], Return a).

Definition call {A} (e : event) (o : outcome A) : py A := ([e], o).

Definition bind {A B} (c : py A) (f : A -> py B) : py B :=
  match c with
  | (l, Return a) => let (l', o) := f a in (l ++ l', o)
  | (l, Raise msg) => (l, Raise msg)
  end.

(** [try: c  except Exception as e: h(str(e))] *)
Definition try_except {A} (c : py A) (h : str -> py A) : py A :=
  match c with
  | (l, Return a) => (l, Return a)
  | (l, Raise msg) => let (l', o) := h msg in (l ++ l', o)
  end.

Definition trace {A} (c : py A) : list event := fst c.
Definition result {A} (c : py A) : outcome A := snd c.

(** The statements a computation handed to the database engine. *)
Definition executed (l : list event) : list str :=
  map (fun e => match e with SqlExecuted stmt => stmt end) l.

Definition repr_list {A} (repr : A -> str) (l : list A) : str :=
  u "[" ++ join (u ", ") (map repr l) ++ u "]".

Module Notations.
  Notation "x <- c ;; k" := (bind c (fun x => k))
    (at level 61, c at next level, right associativity).
End Notations.

End UPy.

(** ** [SafeSQLTool] *)

Module USafeSQLTool.

Import UChar UStr URe UPy UPy.Notations.

Local Open Scope list_scope.

Inductive verdict :=
| Rejected (msg : str)
| Accepted (stmt : str).

Definition write_error : str := u SafeSQLTool.write_error.
Definition multiple_error : str := u SafeSQLTool.multiple_error.
Definition select_error : str := u SafeSQLTool.select_error.
Definition no_results : str := u SafeSQLTool.no_results.

Section Run.

Variable db : ucd.

Definition sanitize (sql : str) : verdict :=
  let s := strip sql in
  if re_search db SafeSQLTool.write_operation s then Rejected write_error
  else if contains (u ";") s && negb (endswith (strip s) (u ";")) then
    Rejected multiple_error
  else if negb (re_match db SafeSQLTool.select_statement s) then
    Rejected select_error
  else
    Accepted
      (if negb (re_search db SafeSQLTool.limit_clause s) then s ++ u " LIMIT 50"
       else s).

Variable cell : Type.

(** [repr] of a row value and of a [str]. *)
Variable repr_cell : cell -> str.
Variable repr_str : str -> str.

(** What [result.keys()] and [result.fetchall()] give. *)
Record result_set := ResultSet {
  columns : list str;
  rows : list (list cell)
}.

(** [engine stmt]: opening a connection, running [stmt] and fetching its
    rows and column names, or the exception of whichever step failed. *)
Definition engine : Type := str -> outcome result_set.

Definition run_sql (e : engine) (stmt : str) : py result_set :=
  call (SqlExecuted stmt) (e stmt).

(** The dict [result_data] that [_run] builds for the frontend. *)
Record result_data := ResultData {
  rd_columns : list str;
  rd_rows : list (list cell);
  rd_row_count : nat
}.

(** [str(result_data)], as the f-string formats it. *)
Definition str_result_data (d : result_data) : str :=
  u "{'columns': " ++ repr_list repr_str (rd_columns d)
  ++ u ", 'rows': " ++ repr_list (repr_list repr_cell) (rd_rows d)
  ++ u ", 'row_count': " ++ of_nat (rd_row_count d) ++ u "}".

Definition _run (e : engine) (sql : str) : py str :=
  match sanitize sql with
  | Rejected msg => ret msg
  | Accepted s =>
      try_except
        (rs <- run_sql e s ;;
         match rows rs with
         | [] => ret no_results
         | _ :: _ =>
             let result_data :=
               ResultData (columns rs) (rows rs) (List.length (rows rs)) in
             ret (u "SUCCESS: " ++ str_result_data result_data)
         end)
        (fun msg => ret (u "ERROR: " ++ msg))
  end.

End Run.

Arguments ResultSet {cell} columns rows.
Arguments columns {cell} r.
Arguments rows {cell} r.
Arguments ResultData {cell} rd_columns rd_rows rd_row_count.
Arguments rd_columns {cell} r.
Arguments rd_rows {cell} r.
Arguments rd_row_count {cell} r.
Arguments run_sql {cell} e stmt.
Arguments str_result_data {cell} repr_cell repr_str d.
Arguments _run db {cell} repr_cell repr_str e sql.

End USafeSQLTool.

(** ** The words of the specification, on code points *)

Module UReading.

Import UChar UStr URe.

Local Open Scope list_scope.
Local Open Scope N_scope.

(** Every character of [s] satisfies [p]. *)
Fixpoint all (p : N -> bool) (s : str) : bool :=
  match s with
  | c :: s' => p c && all p s'
  | [] => true
  end.

Fixpoint last_of (prev : option N) (w : str) : option N :=
  match w with
  | c :: w' => last_of (Some c) w'
  | [] => prev
  end.

Definition last_char (s : str) : option N := last_of None s.

(** [w] is the word [kw] of a pattern, letter for letter, under the flag
    [ic]. *)
Fixpoint same_word (ic : bool) (kw : string) (w : str) : bool :=
  match kw, w with
  | String c kw', x :: w' => UChar.lit_eq ic c x && same_word ic kw' w'
  | EmptyString, [] => true
  | _, _ => false
  end.

(** The letter of the ASCII alphabet that [x] writes, up to case, and [x]
    itself when it writes none.  Beside the two ASCII forms of a letter,
    Python has three characters that [str.upper], [str.lower] or
    [str.casefold] turn into one: U+0131 (its upper case is I), U+017F
    (its upper case is S) and U+212A (its lower case is k). *)
Definition letter (x : N) : N :=
  if between 65 90 x then x + 32
  else if x =? 305 then 105
  else if x =? 383 then 115
  else if x =? 8490 then 107
  else x.

(** The same as the pattern sees it: [re.I] also takes U+0130, which no
    case conversion of [str] turns into I or i. *)
Definition pattern_letter (x : N) : N :=
  if x =? 304 then 105 else letter x.

(** [w] is [kw] up to the case of its letters. *)
Definition spells (kw : string) (w : str) : Prop :=
  map letter w = map letter (u kw).

(** [w] is [kw] as [re.I] compares them. *)
Definition matches (kw : string) (w : str) : Prop :=
  map pattern_letter w = map pattern_letter (u kw).

(** A letter of the ASCII alphabet. *)
Definition ascii_letter (y : N) : bool := between 65 90 y || between 97 122 y.

(** [kw] is written in letters of the ASCII alphabet. *)
Definition ascii_letters (kw : string) : bool := forallb ascii_letter (u kw).

(** [kw] is written without the letter I. *)
Definition no_letter_i (kw : string) : bool :=
  forallb (fun y => negb (letter y =? 105)) (u kw).


Definition write_keywords : list string :=
  ["INSERT"; "UPDATE"; "DELETE"; "DROP"; "TRUNCATE"; "ALTER"; "CREATE"; "REPLACE"].

(** [s] contains the character [c] somewhere before its last position. *)
Definition has_before_end (c : N) (s : str) : Prop :=
  exists pre post, s = pre ++ c :: post /\ post <> [].

Definition has_char (c : N) (s : str) : Prop :=
  exists pre post, s = pre ++ c :: post.

Definition ends_with_char (c : N) (s : str) : Prop :=
  exists pre, s = pre ++ [c].

(** The semicolon. *)
Definition semicolon : N := 59.

(** The trimmed input holds a semicolon and does not end with one. *)
Definition open_chain (sql : str) : Prop :=
  has_char semicolon (strip sql) /\ ~ ends_with_char semicolon (strip sql).

Section Database.

Variable db : ucd.

(** A token starts and ends with a word character. *)
Definition token (P : str -> Prop) : Prop :=
  forall w, P w ->
    isword_opt db (head w) = true /\ isword_opt db (last_char w) = true.

(** A piece [w] of [s] that satisfies [P] and has no word character just
    before it and none just after it. *)
Definition occurs (P : str -> Prop) (s : str) : Prop :=
  exists pre w post,
    s = pre ++ w ++ post /\ P w
    /\ isword_opt db (last_char pre) = false
    /\ isword_opt db (head post) = false.

(** [s] contains [kw], case-insensitively, as a whole word. *)
Definition whole_word (kw : string) (s : str) : Prop := occurs (spells kw) s.

(** [s] contains, as a whole word, a text that [re.I] takes for [kw]. *)
Definition pattern_word (kw : string) (s : str) : Prop := occurs (matches kw) s.

(** [s] contains one of the write keywords as a whole word. *)
Definition has_write_keyword (s : str) : Prop :=
  exists kw, In kw write_keywords /\ whole_word kw s.

(** The same, as the pattern of [_run] reads its input. *)
Definition has_pattern_keyword (s : str) : Prop :=
  exists kw, In kw write_keywords /\ pattern_word kw s.

(** [s] begins, after optional white space, with the keyword SELECT. *)
Definition begins_with_select (s : str) : Prop :=
  exists ws w post,
    s = ws ++ w ++ post /\ all isspace ws = true /\ spells "SELECT" w
    /\ isword_opt db (head post) = false.

(** [w] is the keyword LIMIT as [re.I] takes it, white space, and a
    number in decimal digits. *)
Definition limit_number (w : str) : Prop :=
  exists kw ws ds,
    w = kw ++ ws ++ ds /\ matches "LIMIT" kw
    /\ ws <> [] /\ all isspace ws = true
    /\ ds <> [] /\ all (isdecimal db) ds = true.

(** [s] contains such a LIMIT with its number, as whole words. *)
Definition has_limit (s : str) : Prop := occurs limit_number s.

(** The input passes the three validation checks of [_run]. *)
Definition passes_validation (sql : str) : Prop :=
  ~ has_pattern_keyword sql /\ ~ open_chain sql /\ begins_with_select sql.

End Database.

End UReading.

(** ** A sample database and engine *)

Module USample.

Import UChar UStr UPy USafeSQLTool.

Local Open Scope N_scope.

(** The letters of Latin Extended-A and -B and the Kelvin sign. *)
Definition sample_alnum (x : N) : bool :=
  between 256 591 x || between 1632 1641 x || (x =? 8490).

(** The Arabic-Indic digits. *)
Definition sample_decimal (x : N) : bool := between 1632 1641 x.

(** A database that knows, beyond code point 255, the letters of Latin
    Extended-A and -B, the Kelvin sign and the Arabic-Indic digits, and
    takes every other character for a symbol. *)
Definition sample_ucd : ucd := Ucd sample_alnum sample_decimal.

(** [repr] of an [int] cell, and of a [str] that needs no escaping. *)
Definition repr_int (z : Z) : str := u (Sample.repr_int z).
Definition repr_plain (s : str) : str := (u "'" ++ s ++ u "'")%list.

(** An engine with a table [customers] of two rows; any statement it does
    not know fails. *)
Definition sample_engine : engine Z :=
  fun stmt =>
    if eqb stmt (u "SELECT id FROM customers LIMIT 50") then
      Return (ResultSet [u "id"] [[1%Z]; [2%Z]])
    else Raise (u "(sqlite3.OperationalError) no such table").



End USample.

(** ** The model on inputs beyond code point 255 *)

Module UExamples.

Import UChar UStr URe UPy USafeSQLTool USample.

Local Open Scope list_scope.

(** U+3000, the ideographic space, is trimmed. *)
Example strip_ideographic_space :
  strip (12288%N :: u "SELECT 1 ") = u "SELECT 1".
Proof. reflexivity. Qed.

(** U+0130 is the letter I for [re.I]: a word "Insert" written with it. *)
Example keyword_dotted_i :
  re_search sample_ucd SafeSQLTool.write_operation
    (u "SELECT 1 AS " ++ 304%N :: u "nsert") = true.
Proof. reflexivity. Qed.

(** U+017F is the letter S for [re.I]. *)
Example select_long_s :
  sanitize sample_ucd (383%N :: u "ELECT 1")
  = Accepted (383%N :: u "ELECT 1 LIMIT 50").
Proof. reflexivity. Qed.

(** U+0131 is the letter I for [re.I]. *)
Example limit_dotless_i :
  sanitize sample_ucd (u "SELECT * FROM c l" ++ 305%N :: u "m" ++ 305%N :: u "t 5")
  = Accepted (u "SELECT * FROM c l" ++ 305%N :: u "m" ++ 305%N :: u "t 5").
Proof. reflexivity. Qed.

(** U+0665, an Arabic-Indic digit, is a digit for [\d]. *)
Example limit_arabic_digit :
  sanitize sample_ucd (u "SELECT * FROM c LIMIT " ++ [1637%N])
  = Accepted (u "SELECT * FROM c LIMIT " ++ [1637%N]).
Proof. reflexivity. Qed.

(** A letter beyond code point 255 is a word character for [\b]. *)
Example keyword_inside_wide_word :
  re_search sample_ucd SafeSQLTool.write_operation (u "SELECT drop" ++ [322%N])
  = false.
Proof. reflexivity. Qed.

Example run_wide_two_rows :
  _run sample_ucd repr_int repr_plain sample_engine
    (12288%N :: u "SELECT id FROM customers")
  = ([SqlExecuted (u "SELECT id FROM customers LIMIT 50")],
     Return (u "SUCCESS: {'columns': ['id'], 'rows': [[1], [2]], 'row_count': 2}")).
Proof. reflexivity. Qed.

End UExamples.

(** * The model on concrete inputs *)

Module Examples.

Import PyStr Re Py SafeSQLTool Sample.

Example strip_both_ends : strip "  SELECT 1 " = "SELECT 1".
Proof. reflexivity. Qed.

Example strip_only_space : strip "   " = "".
Proof. reflexivity. Qed.

Example keyword_whole_word : re_search write_operation "x;DROP" = true.
Proof. reflexivity. Qed.

Example keyword_inside_word : re_search write_operation "SELECT dropped" = false.
Proof. reflexivity. Qed.

Example keyword_after_underscore : re_search write_operation "a_drop" = false.
Proof. reflexivity. Qed.

Example select_needs_boundary : re_match select_statement "selected" = false.
Proof. reflexivity. Qed.

Example select_any_case : re_match select_statement "SeLeCt*" = true.
Proof. reflexivity. Qed.

Example limit_with_number : re_search limit_clause "select 1 limit   5;" = true.
Proof. reflexivity. Qed.

Example limit_number_whole : re_search limit_clause "SELECT 1 LIMIT 10a" = false.
Proof. reflexivity. Qed.

Example limit_glued : re_search limit_clause "limit5" = false.
Proof. reflexivity. Qed.

Example sanitize_keeps_limit :
  sanitize " select * from orders limit 5 " = Accepted "select * from orders limit 5".
Proof. reflexivity. Qed.

Example run_two_rows :
  _run repr_int repr_plain sample_env "SELECT id FROM customers"
  = ([SqlExecuted "SELECT id FROM customers LIMIT 50"],
     Return "SUCCESS: {'columns': ['id'], 'rows': [[1], [2]], 'row_count': 2}").
Proof. reflexivity. Qed.

Example run_no_rows :
  _run repr_int repr_plain sample_env "SELECT id FROM customers WHERE id < 0"
  = ([SqlExecuted "SELECT id FROM customers WHERE id < 0 LIMIT 50"],
     Return "Query executed successfully but returned no results.").
Proof. reflexivity. Qed.

Example query_without_string :
  query_agent repr_plain sample_env (Return (VDict [("query", VNone)]))
  = ([], Return (Error "Server error: 'NoneType' object has no attribute 'strip'", 500)).
Proof. reflexivity. Qed.

Example query_other_failure :
  query_agent repr_plain sample_env (Return (VDict [("query", VStr "ping")]))
  = ([AgentCreated; AgentInvoked "ping"],
     Return (Error "Server error: Connection reset by peer", 500)).
Proof. reflexivity. Qed.

End Examples.

(** * Facts about strings *)

Module StrFacts.

Import PyChar PyStr Re Reading.

Lemma app_nil_r (s : string) : s ++ "" = s.
Proof. induction s as [|c s IH]; simpl; congruence. Qed.

Lemma app_assoc (a b c : string) : (a ++ b) ++ c = a ++ b ++ c.
Proof. induction a as [|x a IH]; simpl; congruence. Qed.

Lemma app_eq_nil (a b : string) : a ++ b = "" -> a = "" /\ b = "".
Proof. destruct a; simpl; [auto | discriminate]. Qed.

Lemma app_eq_app (a b c d : string) :
  a ++ b = c ++ d ->
  exists k, (a = c ++ k /\ d = k ++ b) \/ (c = a ++ k /\ b = k ++ d).
Proof.
  revert c. induction a as [|x a IH]; intros c H; simpl in H.
  - exists c. right. auto.
  - destruct c as [|y c]; simpl in H.
    + exists (String x a). left. auto.
    + injection H as -> H. destruct (IH _ H) as [k [[-> ->] | [-> ->]]];
        exists k; [left | right]; auto.
Qed.

Lemma snoc_view (s : string) :
  s = "" \/ exists s' c, s = s' ++ String c "".
Proof.
  induction s as [|x s IH]; [now left | right].
  destruct IH as [-> | (s' & c & ->)].
  - now exists "", x.
  - now exists (String x s'), c.
Qed.

Lemma snoc_inj (a b : string) (c d : ascii) :
  a ++ String c "" = b ++ String d "" -> a = b /\ c = d.
Proof.
  revert b. induction a as [|x a IH]; intros [|y b] H; simpl in H.
  - injection H; auto.
  - injection H as -> H. destruct b; discriminate.
  - injection H as -> H. destruct a; discriminate.
  - injection H as -> H. destruct (IH _ H). split; congruence.
Qed.

Lemma last_of_app (p : option ascii) (a b : string) :
  last_of p (a ++ b) = last_of (last_of p a) b.
Proof. revert p. induction a as [|x a IH]; intros p; simpl; auto. Qed.

Lemma last_of_snoc (p : option ascii) (w : string) (c : ascii) :
  last_of p (w ++ String c "") = Some c.
Proof. rewrite last_of_app. reflexivity. Qed.

Lemma head_app (a b : string) :
  a <> "" -> head (a ++ b) = head a.
Proof. destruct a; [congruence | reflexivity]. Qed.

Lemma all_app (p : ascii -> bool) (a b : string) :
  all p (a ++ b) = all p a && all p b.
Proof.
  induction a as [|x a IH]; simpl; [reflexivity|].
  rewrite IH. now rewrite andb_assoc.
Qed.

(** *** Character classes *)

Ltac by_cases c :=
  destruct c as [[] [] [] [] [] [] [] []]; vm_compute; intuition congruence.

Lemma space_not_word (c : ascii) : isspace c = true -> isword c = false.
Proof. by_cases c. Qed.

Lemma decimal_is_word (c : ascii) : isdecimal c = true -> isword c = true.
Proof. by_cases c. Qed.

Lemma isword_tolower (c : ascii) : isword (tolower c) = isword c.
Proof. by_cases c. Qed.

Lemma all_isword_lower (s : string) : all isword (lower s) = all isword s.
Proof.
  induction s as [|c s IH]; simpl; [reflexivity|].
  now rewrite isword_tolower, IH.
Qed.

(** A string of word characters, when not empty, starts and ends with one. *)
Lemma all_word_first (w : string) :
  all isword w = true -> w <> "" ->
  exists c, head w = Some c /\ isword c = true.
Proof.
  destruct w as [|c w]; [congruence|]. simpl. intros H _.
  apply andb_prop in H. exists c. tauto.
Qed.

Lemma all_word_last (w : string) (p : option ascii) :
  all isword w = true -> w <> "" ->
  exists c, last_of p w = Some c /\ isword c = true.
Proof.
  revert p. induction w as [|c w IH]; [congruence|]. simpl. intros p H _.
  apply andb_prop in H. destruct H as [Hc Hw].
  destruct w as [|d w]; [exists c; auto|].
  apply IH; [exact Hw | discriminate].
Qed.

End StrFacts.

(** * Facts about [strip] *)

Module StripFacts.

Import PyChar PyStr Reading StrFacts.

Lemma lstrip_split (s : string) :
  exists lead, s = lead ++ lstrip s /\ all isspace lead = true.
Proof.
  induction s as [|c s (lead & E & A)]; simpl.
  - now exists "".
  - destruct (isspace c) eqn:Hc.
    + exists (String c lead). simpl. rewrite Hc, A. split; [congruence | reflexivity].
    + now exists "".
Qed.

Lemma rstrip_split (s : string) :
  exists trail, s = rstrip s ++ trail /\ all isspace trail = true.
Proof.
  induction s as [|c s (trail & E & A)]; simpl.
  - now exists "".
  - destruct (isspace c && is_empty (rstrip s)) eqn:H.
    + apply andb_prop in H. destruct H as [Hc He].
      destruct (rstrip s); [|discriminate]. simpl in E. subst s.
      exists (String c trail). simpl. now rewrite Hc, A.
    + exists trail. simpl. split; congruence.
Qed.

(** The trimmed string, with the white space that was cut on both sides. *)
Lemma strip_split (s : string) :
  exists lead trail,
    s = lead ++ strip s ++ trail
    /\ all isspace lead = true /\ all isspace trail = true.
Proof.
  destruct (lstrip_split s) as (lead & E1 & A1).
  destruct (rstrip_split (lstrip s)) as (trail & E2 & A2).
  exists lead, trail. unfold strip. rewrite <- E2. auto.
Qed.

Lemma lstrip_first (s : string) :
  match lstrip s with String c _ => isspace c = false | EmptyString => True end.
Proof.
  induction s as [|c s IH]; simpl; [exact I|].
  destruct (isspace c) eqn:Hc; [exact IH | exact Hc].
Qed.

Lemma lstrip_fixed (s : string) :
  match s with String c _ => isspace c = false | EmptyString => True end ->
  lstrip s = s.
Proof. destruct s as [|c s]; simpl; [auto | intros ->; auto]. Qed.

Lemma rstrip_first (s : string) :
  match s with String c _ => isspace c = false | EmptyString => True end ->
  match rstrip s with String c _ => isspace c = false | EmptyString => True end.
Proof.
  destruct s as [|c s]; simpl; [auto|]. intros Hc. rewrite Hc. simpl. exact Hc.
Qed.

Lemma rstrip_idem (s : string) : rstrip (rstrip s) = rstrip s.
Proof.
  induction s as [|c s IH]; simpl; [reflexivity|].
  destruct (isspace c && is_empty (rstrip s)) eqn:H; [reflexivity|].
  simpl. rewrite IH, H. reflexivity.
Qed.

(** [s.strip().strip()] is [s.strip()]. *)
Lemma strip_idem (s : string) : strip (strip s) = strip s.
Proof.
  unfold strip.
  rewrite (lstrip_fixed (rstrip (lstrip s))).
  - apply rstrip_idem.
  - apply rstrip_first, lstrip_first.
Qed.

(** A property that the white space at the two ends of a string does not
    affect holds of a string exactly when it holds of the trimmed one. *)
Lemma strip_invariant (P : string -> Prop) :
  (forall c s, isspace c = true -> (P (String c s) <-> P s)) ->
  (forall c s, isspace c = true -> (P (s ++ String c "") <-> P s)) ->
  forall s, P s <-> P (strip s).
Proof.
  intros Hl Hr s.
  destruct (strip_split s) as (lead & trail & E & Al & At).
  rewrite E at 1. clear E. generalize (strip s). intros x.
  transitivity (P (x ++ trail)).
  - clear At. induction lead as [|c lead IH]; simpl; [reflexivity|].
    simpl in Al. apply andb_prop in Al. destruct Al as [Hc Al].
    rewrite (Hl c _ Hc). auto.
  - clear Al. revert x. induction trail as [|c trail IH]; intros x.
    + now rewrite app_nil_r.
    + simpl in At. apply andb_prop in At. destruct At as [Hc At].
      change (x ++ String c trail) with (x ++ String c "" ++ trail).
      rewrite <- app_assoc, (IH At). apply Hr, Hc.
Qed.

End StripFacts.

(** * Facts about the matcher *)

Module ReFacts.

Import PyChar PyStr Re Reading StrFacts.

Lemma same_word_lower (kw w : string) :
  same_word true kw w = true <-> lower w = lower kw.
Proof.
  revert w. induction kw as [|c kw IH]; intros [|x w]; simpl;
    try (split; [discriminate|discriminate]); [tauto|].
  rewrite andb_true_iff, IH. unfold lit_eq. rewrite Ascii.eqb_eq.
  split; [intros [-> ->]; reflexivity | intros H; injection H; auto].
Qed.

Lemma star_m_spec (p : ascii -> bool) (k : cont) (prev : option ascii) (s : string) :
  star_m p k prev s = true <->
  exists w rest, s = w ++ rest /\ all p w = true /\ k (last_of prev w) rest = true.
Proof.
  revert prev. induction s as [|x s IH]; intros prev; simpl.
  - split.
    + intros H. now exists "", "".
    + intros (w & rest & E & _ & H). symmetry in E.
      apply app_eq_nil in E. destruct E as [-> ->]. exact H.
  - rewrite orb_true_iff, andb_true_iff, IH. split.
    + intros [[Hx (w & rest & -> & A & H)] | H].
      * exists (String x w), rest. simpl. rewrite Hx, A. auto.
      * now exists "", (String x s).
    + intros (w & rest & E & A & H). destruct w as [|y w]; simpl in *.
      * subst rest. now right.
      * injection E as -> ->. apply andb_prop in A. destruct A as [Hx A].
        left. split; [exact Hx|]. now exists w, rest.
Qed.

Lemma word_m_spec (ic : bool) (kw : string) (k : cont)
    (prev : option ascii) (s : string) :
  m ic (word kw) k prev s = true <->
  exists w rest,
    s = w ++ rest /\ same_word ic kw w = true /\ k (last_of prev w) rest = true.
Proof.
  revert prev s. induction kw as [|c kw IH]; intros prev s; simpl.
  - split.
    + intros H. now exists "", s.
    + intros (w & rest & -> & E & H). destruct w; [exact H | discriminate].
  - destruct s as [|x s].
    + split; [discriminate|]. intros (w & rest & E & S & _).
      destruct w; [discriminate | discriminate].
    + rewrite andb_true_iff, IH. split.
      * intros [Hx (w & rest & -> & S & H)].
        exists (String x w), rest. simpl. rewrite Hx, S. auto.
      * intros (w & rest & E & S & H). destruct w as [|y w]; [discriminate|].
        simpl in E. injection E as -> ->. apply andb_prop in S.
        destruct S as [Hx S]. split; [exact Hx|]. now exists w, rest.
Qed.

Lemma alternatives_m_spec (ic : bool) (w : string) (ws : list string)
    (k : cont) (prev : option ascii) (s : string) :
  m ic (alternatives w ws) k prev s = true <->
  exists kw, In kw (w :: ws) /\ m ic (word kw) k prev s = true.
Proof.
  revert w. induction ws as [|w' ws IH]; intros w.
  - simpl. split.
    + intros H. exists w. auto.
    + intros (kw & [-> | []] & H). exact H.
  - change (alternatives w (w' :: ws)) with (Alt (word w) (alternatives w' ws)).
    cbn [m]. rewrite orb_true_iff, IH. split.
    + intros [H | (kw & I & H)]; [exists w | exists kw]; simpl; auto.
    + intros (kw & [-> | I] & H); [left | right]; eauto.
Qed.

Lemma search_from_spec (p : pattern) (prev : option ascii) (s : string) :
  search_from p prev s = true <->
  exists pre rest, s = pre ++ rest /\ match_at p (last_of prev pre) rest = true.
Proof.
  revert prev. induction s as [|c s IH]; intros prev; simpl.
  - rewrite orb_false_r. split.
    + intros H. now exists "", "".
    + intros (pre & rest & E & H). symmetry in E.
      apply app_eq_nil in E. destruct E as [-> ->]. exact H.
  - rewrite orb_true_iff, IH. split.
    + intros [H | (pre & rest & -> & H)].
      * now exists "", (String c s).
      * now exists (String c pre), rest.
    + intros (pre & rest & E & H). destruct pre as [|d pre]; simpl in *.
      * subst rest. now left.
      * injection E as -> ->. right. now exists pre, rest.
Qed.

Lemma re_search_spec (p : pattern) (s : string) :
  re_search p s = true <->
  exists pre rest, s = pre ++ rest /\ match_at p (last_char pre) rest = true.
Proof. apply search_from_spec. Qed.

End ReFacts.

(** * The three patterns of [_run] *)

Module PatternFacts.

Import PyChar PyStr Re StrFacts ReFacts Reading.

Lemma boundary_before (prev : option ascii) (s : string) :
  isword_opt (head s) = true -> at_boundary prev s = negb (isword_opt prev).
Proof. unfold at_boundary. intros ->. now destruct (isword_opt prev). Qed.

Lemma boundary_after (prev : option ascii) (s : string) :
  isword_opt prev = true -> at_boundary prev s = negb (isword_opt (head s)).
Proof. unfold at_boundary. intros ->. reflexivity. Qed.

Lemma spells_nonempty (kw w : string) : spells kw w -> kw <> "" -> w <> "".
Proof.
  unfold spells. intros H Hk ->. destruct kw; [congruence | discriminate].
Qed.

Lemma spells_word (kw w : string) :
  spells kw w -> all isword kw = true -> all isword w = true.
Proof.
  unfold spells. intros H Hk.
  now rewrite <- all_isword_lower, H, all_isword_lower.
Qed.

(** A word of the pattern starts and ends with a word character. *)
Lemma spells_head (kw w rest : string) :
  spells kw w -> kw <> "" -> all isword kw = true ->
  isword_opt (head (w ++ rest)) = true.
Proof.
  intros H Hk Hw. pose proof (spells_nonempty _ _ H Hk) as Hn.
  destruct (all_word_first w (spells_word _ _ H Hw) Hn) as (c & E & Hc).
  now rewrite head_app, E.
Qed.

Lemma spells_last (kw w : string) (p : option ascii) :
  spells kw w -> kw <> "" -> all isword kw = true ->
  isword_opt (last_of p w) = true.
Proof.
  intros H Hk Hw. pose proof (spells_nonempty _ _ H Hk) as Hn.
  destruct (all_word_last w p (spells_word _ _ H Hw) Hn) as (c & E & Hc).
  now rewrite E.
Qed.

Lemma m_bnd_accept (ic : bool) (prev : option ascii) (s : string) :
  m ic Bnd accept prev s = at_boundary prev s.
Proof. simpl. apply andb_true_r. Qed.

Lemma plus_m_spec (ic : bool) (p : charclass) (k : cont)
    (prev : option ascii) (s : string) :
  m ic (Plus p) k prev s = true <->
  exists w rest,
    s = w ++ rest /\ w <> "" /\ all (in_class p) w = true
    /\ k (last_of prev w) rest = true.
Proof.
  unfold Plus. cbn [m]. destruct s as [|x s].
  - split; [discriminate|]. intros (w & rest & E & N & _).
    destruct w; [congruence | discriminate].
  - rewrite andb_true_iff, star_m_spec. split.
    + intros [Hx (w & rest & -> & A & H)].
      exists (String x w), rest. simpl. rewrite Hx, A.
      repeat split; [discriminate | exact H].
    + intros (w & rest & E & N & A & H). destruct w as [|y w]; [congruence|].
      simpl in E, A. injection E as -> ->. apply andb_prop in A.
      destruct A as [Hx A]. split; [exact Hx|]. now exists w, rest.
Qed.

Section Keywords.

Variable w0 : string.
Variable ws : list string.
Hypothesis letters :
  forall kw, In kw (w0 :: ws) -> kw <> "" /\ all isword kw = true.

(** [\b(w0|...)\b] at one position. *)
Lemma keywords_at (prev : option ascii) (s : string) :
  m true (Seq Bnd (Seq (alternatives w0 ws) Bnd)) accept prev s = true <->
  exists kw w rest,
    In kw (w0 :: ws) /\ s = w ++ rest /\ spells kw w
    /\ isword_opt prev = false /\ isword_opt (head rest) = false.
Proof.
  cbn [m]. rewrite andb_true_iff, alternatives_m_spec. split.
  - intros [Hb (kw & I & H)]. apply word_m_spec in H.
    destruct H as (w & rest & -> & S & K). apply same_word_lower in S.
    destruct (letters kw I) as [Hn Hw].
    rewrite (boundary_before _ _ (spells_head _ _ rest S Hn Hw)) in Hb.
    rewrite andb_true_r, (boundary_after _ _ (spells_last _ _ prev S Hn Hw)) in K.
    exists kw, w, rest. repeat split; auto.
    + now apply negb_true_iff.
    + now apply negb_true_iff.
  - intros (kw & w & rest & I & -> & S & Hp & Hr).
    destruct (letters kw I) as [Hn Hw]. split.
    + rewrite (boundary_before _ _ (spells_head _ _ rest S Hn Hw)), Hp. reflexivity.
    + exists kw. split; [exact I|]. apply word_m_spec.
      exists w, rest. repeat split.
      * now apply same_word_lower.
      * rewrite andb_true_r, (boundary_after _ _ (spells_last _ _ prev S Hn Hw)), Hr.
        reflexivity.
Qed.

End Keywords.

Lemma write_keywords_letters (kw : string) :
  In kw write_keywords -> kw <> "" /\ all isword kw = true.
Proof.
  unfold write_keywords. simpl.
  intros H; repeat (destruct H as [<- | H]; [split; [discriminate | reflexivity]|]).
  destruct H.
Qed.

(** [re.search] with the pattern of write operations finds exactly the
    write keywords that stand as whole words. *)
Lemma write_operation_spec (s : string) :
  re_search SafeSQLTool.write_operation s = true <-> has_write_keyword s.
Proof.
  rewrite re_search_spec. unfold match_at, SafeSQLTool.write_operation.
  cbn [body ignorecase]. split.
  - intros (pre & rest & -> & H).
    apply (keywords_at _ _ write_keywords_letters) in H.
    destruct H as (kw & w & post & I & -> & S & Hp & Hr).
    exists kw. split; [exact I|]. now exists pre, w, post.
  - intros (kw & I & pre & w & post & -> & S & Hp & Hr).
    exists pre, (w ++ post). split; [reflexivity|].
    apply (keywords_at _ _ write_keywords_letters). now exists kw, w, post.
Qed.

Section Select.

Variable kw : string.
Hypothesis kw_nonempty : kw <> "".
Hypothesis kw_letters : all isword kw = true.

(** [^\s*kw\b] *)
Lemma begins_at (s : string) :
  m true (Seq Bol (Seq (Star Space) (Seq (word kw) Bnd))) accept None s = true <->
  exists ws w post,
    s = ws ++ w ++ post /\ all isspace ws = true /\ spells kw w
    /\ isword_opt (head post) = false.
Proof.
  change (m true (Seq Bol (Seq (Star Space) (Seq (word kw) Bnd))) accept None s)
    with (star_m isspace (m true (word kw) (m true Bnd accept)) None s).
  rewrite star_m_spec. split.
  - intros (ws & rest & -> & A & H). apply word_m_spec in H.
    destruct H as (w & post & -> & S & K). apply same_word_lower in S.
    rewrite m_bnd_accept, (boundary_after _ _ (spells_last _ _ _ S kw_nonempty kw_letters)) in K.
    exists ws, w, post. repeat split; auto. now apply negb_true_iff.
  - intros (ws & w & post & -> & A & S & Hr).
    exists ws, (w ++ post). repeat split; [exact A|]. apply word_m_spec.
    exists w, post. repeat split.
    + now apply same_word_lower.
    + rewrite m_bnd_accept, (boundary_after _ _ (spells_last _ _ _ S kw_nonempty kw_letters)), Hr.
      reflexivity.
Qed.

(** [\bkw\s+\d+\b] at one position. *)
Lemma number_clause_at (prev : option ascii) (s : string) :
  m true (Seq Bnd (Seq (word kw) (Seq (Plus Space) (Seq (Plus Digit) Bnd))))
    accept prev s = true <->
  exists w sp ds rest,
    s = w ++ sp ++ ds ++ rest /\ spells kw w
    /\ sp <> "" /\ all isspace sp = true
    /\ ds <> "" /\ all isdecimal ds = true
    /\ isword_opt prev = false /\ isword_opt (head rest) = false.
Proof.
  assert (D : forall ds p, ds <> "" -> all isdecimal ds = true ->
                           isword_opt (last_of p ds) = true).
  { intros ds p N A.
    assert (W : all isword ds = true).
    { clear N. induction ds as [|c ds IH]; [reflexivity|]. simpl in *.
      apply andb_prop in A. destruct A as [Hc A].
      now rewrite (decimal_is_word _ Hc), IH. }
    destruct (all_word_last ds p W N) as (c & -> & Hc). exact Hc. }
  change (m true (Seq Bnd (Seq (word kw) (Seq (Plus Space) (Seq (Plus Digit) Bnd))))
            accept prev s)
    with (at_boundary prev s
          && m true (word kw)
               (m true (Plus Space) (m true (Plus Digit) (m true Bnd accept)))
               prev s).
  rewrite andb_true_iff, word_m_spec. split.
  - intros [Hb (w & r1 & -> & S & H)]. apply same_word_lower in S.
    apply plus_m_spec in H. destruct H as (sp & r2 & -> & Ns & As & H).
    apply plus_m_spec in H. destruct H as (ds & rest & -> & Nd & Ad & H).
    rewrite m_bnd_accept, (boundary_after _ _ (D ds _ Nd Ad)) in H.
    rewrite (boundary_before _ _ (spells_head _ _ _ S kw_nonempty kw_letters)) in Hb.
    exists w, sp, ds, rest. repeat split; auto; now apply negb_true_iff.
  - intros (w & sp & ds & rest & -> & S & Ns & As & Nd & Ad & Hp & Hr). split.
    + rewrite (boundary_before _ _ (spells_head _ _ _ S kw_nonempty kw_letters)), Hp.
      reflexivity.
    + exists w, (sp ++ ds ++ rest). repeat split.
      * now apply same_word_lower.
      * apply plus_m_spec. exists sp, (ds ++ rest). repeat split; auto.
        apply plus_m_spec. exists ds, rest. repeat split; auto.
        rewrite m_bnd_accept, (boundary_after _ _ (D ds _ Nd Ad)), Hr. reflexivity.
Qed.

End Select.

(** [re.match] with the SELECT pattern. *)
Lemma select_statement_spec (s : string) :
  re_match SafeSQLTool.select_statement s = true <-> begins_with_select s.
Proof.
  unfold re_match, match_at, SafeSQLTool.select_statement, begins_with_select.
  cbn [body ignorecase].
  rewrite (begins_at "select"); [|discriminate|reflexivity].
  reflexivity.
Qed.

(** [re.search] with the LIMIT pattern. *)
Lemma limit_clause_spec (s : string) :
  re_search SafeSQLTool.limit_clause s = true <-> has_limit s.
Proof.
  rewrite re_search_spec. unfold match_at, SafeSQLTool.limit_clause.
  cbn [body ignorecase]. split.
  - intros (pre & rest & -> & H).
    apply (number_clause_at "limit") in H; [|discriminate|reflexivity].
    destruct H as (w & sp & ds & post & -> & S & Ns & As & Nd & Ad & Hp & Hr).
    exists pre, (w ++ sp ++ ds), post. repeat split; auto.
    + now rewrite !app_assoc.
    + now exists w, sp, ds.
  - intros (pre & t & post & -> & (w & sp & ds & -> & S & Ns & As & Nd & Ad) & Hp & Hr).
    exists pre, ((w ++ sp ++ ds) ++ post). split; [reflexivity|].
    apply (number_clause_at "limit"); [discriminate|reflexivity|].
    exists w, sp, ds, post. repeat split; auto. now rewrite !app_assoc.
Qed.

End PatternFacts.

(** * Whole words, white space and concatenation *)

Module OccursFacts.

Import PyChar PyStr Re StrFacts StripFacts ReFacts Reading PatternFacts.

Lemma last_after_nonword (c : ascii) (s : string) :
  isword c = false ->
  isword_opt (last_of (Some c) s) = isword_opt (last_char s).
Proof.
  intros Hc. destruct s as [|d s]; [exact Hc | reflexivity].
Qed.

Lemma head_before_nonword (c : ascii) (s t : string) :
  isword c = false ->
  isword_opt (head (s ++ String c t)) = isword_opt (head s).
Proof.
  intros Hc. destruct s as [|d s]; [exact Hc | reflexivity].
Qed.

Lemma occurs_leading (P : string -> Prop) (c : ascii) (s : string) :
  token P -> isword c = false -> (occurs P (String c s) <-> occurs P s).
Proof.
  intros T Hc. split.
  - intros (pre & w & post & E & Pw & Hp & Hr). destruct pre as [|d pre].
    + simpl in E. destruct (T w Pw) as [Hh _].
      destruct w as [|x w]; [discriminate|]. simpl in E, Hh. congruence.
    + simpl in E. injection E as <- ->. exists pre, w, post.
      repeat split; auto. rewrite <- (last_after_nonword c pre Hc). exact Hp.
  - intros (pre & w & post & -> & Pw & Hp & Hr).
    exists (String c pre), w, post. repeat split; auto.
    unfold last_char. simpl. now rewrite (last_after_nonword c pre Hc).
Qed.

Lemma occurs_trailing (P : string -> Prop) (c : ascii) (s : string) :
  token P -> isword c = false -> (occurs P (s ++ String c "") <-> occurs P s).
Proof.
  intros T Hc. split.
  - intros (pre & w & post & E & Pw & Hp & Hr).
    destruct (snoc_view post) as [-> | (post' & d & ->)].
    + exfalso. rewrite app_nil_r in E. destruct (T w Pw) as [_ Hl].
      destruct (snoc_view w) as [-> | (w' & d & ->)]; [discriminate|].
      rewrite <- app_assoc in E. apply snoc_inj in E. destruct E as [_ ->].
      unfold last_char in Hl. rewrite last_of_snoc in Hl. simpl in Hl. congruence.
    + rewrite <- !app_assoc in E. apply snoc_inj in E. destruct E as [-> ->].
      exists pre, w, post'. rewrite app_assoc. repeat split; auto.
      rewrite <- (head_before_nonword d post' "" Hc). exact Hr.
  - intros (pre & w & post & -> & Pw & Hp & Hr).
    exists pre, w, (post ++ String c ""). rewrite ?app_assoc.
    repeat split; auto. now rewrite head_before_nonword.
Qed.

(** Trimming a string neither adds nor removes a token. *)
Lemma occurs_strip (P : string -> Prop) (s : string) :
  token P -> (occurs P s <-> occurs P (strip s)).
Proof.
  intros T. revert s. apply strip_invariant; intros c s Hc.
  - apply occurs_leading; [exact T | now apply space_not_word].
  - apply occurs_trailing; [exact T | now apply space_not_word].
Qed.

Lemma spells_token (kw : string) :
  kw <> "" -> all isword kw = true -> token (spells kw).
Proof.
  intros Hn Hw w S. split.
  - rewrite <- (app_nil_r w). exact (spells_head kw w "" S Hn Hw).
  - exact (spells_last kw w None S Hn Hw).
Qed.

Lemma limit_number_token : token limit_number.
Proof.
  intros t (w & sp & ds & -> & S & Ns & As & Nd & Ad). split.
  - apply (spells_head "LIMIT" w (sp ++ ds) S); [discriminate | reflexivity].
  - unfold last_char. rewrite !last_of_app.
    assert (W : all isword ds = true).
    { clear Nd. induction ds as [|c ds IH]; [reflexivity|]. simpl in *.
      apply andb_prop in Ad. destruct Ad as [Hc Ad].
      now rewrite (decimal_is_word _ Hc), IH. }
    destruct (all_word_last ds (last_of (last_of None w) sp) W Nd) as (c & -> & Hc).
    exact Hc.
Qed.

(** A word cannot straddle a character that is not a word character. *)
Lemma whole_word_split (kw s t : string) (c : ascii) :
  kw <> "" -> all isword kw = true -> isword c = false ->
  (whole_word kw (s ++ String c t) <-> whole_word kw s \/ whole_word kw t).
Proof.
  intros Hn Hw Hc. split.
  - intros (pre & w & post & E & S & Hp & Hr).
    pose proof (spells_word kw w S Hw) as Ww.
    pose proof (spells_nonempty kw w S Hn) as Nw.
    destruct (app_eq_app _ _ _ _ E) as [k [[-> E2] | [-> E2]]].
    + destruct (app_eq_app _ _ _ _ E2) as [j [[-> E3] | [-> E3]]].
      * destruct j as [|d j].
        -- simpl in E3. subst post. left. exists pre, k, "".
           rewrite app_nil_r in S. repeat split; auto.
           now rewrite !app_nil_r.
        -- simpl in E3. injection E3 as <- ->.
           rewrite all_app in Ww. simpl in Ww. rewrite Hc in Ww.
           rewrite andb_false_r in Ww. discriminate.
      * left. exists pre, w, j. subst post. rewrite ?app_assoc.
        repeat split; auto. now rewrite head_before_nonword in Hr.
    + destruct k as [|d k].
      * simpl in E2. exfalso. destruct w as [|x w]; [congruence|].
        simpl in E2, Ww. injection E2 as -> _. rewrite Hc in Ww. discriminate.
      * simpl in E2. injection E2 as <- ->. right. exists k, w, post.
        repeat split; auto. unfold last_char in Hp.
        rewrite last_of_app in Hp. simpl in Hp.
        now rewrite last_after_nonword in Hp.
  - intros [(pre & w & post & -> & S & Hp & Hr) | (pre & w & post & -> & S & Hp & Hr)].
    + exists pre, w, (post ++ String c t). rewrite ?app_assoc.
      repeat split; auto. now rewrite head_before_nonword.
    + exists (s ++ String c pre), w, post. rewrite ?app_assoc. simpl.
      repeat split; auto. unfold last_char. rewrite last_of_app. simpl.
      now rewrite last_after_nonword.
Qed.

End OccursFacts.

(** * The validation of [_run], in the words of the specification *)

Module SanitizeFacts.

Import PyChar PyStr Re Py StrFacts StripFacts ReFacts Reading PatternFacts OccursFacts.
Import SafeSQLTool.

Lemma prefix_spec (p s : string) :
  String.prefix p s = true <-> exists post, s = p ++ post.
Proof.
  revert s. induction p as [|c p IH]; intros s; simpl.
  - split; [intros _; now exists s | now destruct s].
  - destruct s as [|x s].
    + split; [discriminate | intros (post & E); discriminate].
    + simpl. destruct (ascii_dec c x) as [<- | N].
      * rewrite IH. split; intros (post & E); exists post; congruence.
      * split; [discriminate | intros (post & E); congruence].
Qed.

Lemma contains_spec (sub s : string) :
  contains sub s = true <-> substring sub s.
Proof.
  unfold substring. induction s as [|x s IH]; cbn [contains].
  - rewrite orb_false_r, prefix_spec. split.
    + intros (post & E). now exists "", post.
    + intros (pre & post & E). symmetry in E. apply app_eq_nil in E.
      destruct E as [-> E]. now exists post.
  - rewrite orb_true_iff, prefix_spec, IH. split.
    + intros [(post & E) | (pre & post & ->)].
      * now exists "", post.
      * now exists (String x pre), post.
    + intros (pre & post & E). destruct pre as [|y pre]; simpl in E.
      * left. now exists post.
      * injection E as -> ->. right. now exists pre, post.
Qed.

Lemma contains_char (c : ascii) (s : string) :
  contains (String c "") s = true <-> has_char c s.
Proof. rewrite contains_spec. reflexivity. Qed.

Lemma endswith_spec (s p : string) :
  endswith s p = true <-> exists pre, s = pre ++ p.
Proof.
  induction s as [|x s IH]; cbn [endswith].
  - rewrite orb_false_r, String.eqb_eq. split.
    + intros <-. now exists "".
    + intros (pre & E). symmetry in E. apply app_eq_nil in E. now destruct E.
  - rewrite orb_true_iff, String.eqb_eq, IH. split.
    + intros [<- | (pre & ->)]; [now exists "" | now exists (String x pre)].
    + intros (pre & E). destruct pre as [|y pre]; simpl in E.
      * now left.
      * injection E as -> ->. right. now exists pre.
Qed.

Lemma endswith_char (c : ascii) (s : string) :
  endswith s (String c "") = true <-> ends_with_char c s.
Proof. apply endswith_spec. Qed.

Lemma all_space_strip (s : string) : all isspace s = true -> strip s = "".
Proof.
  unfold strip. intros H. replace (lstrip s) with ""; [reflexivity|].
  induction s as [|c s IH]; [reflexivity|]. simpl in *.
  apply andb_prop in H. destruct H as [-> H]. auto.
Qed.

(** *** The three checks do not depend on the white space around the input *)

Lemma has_write_keyword_strip (sql : string) :
  has_write_keyword sql <-> has_write_keyword (strip sql).
Proof.
  unfold has_write_keyword, whole_word.
  split; intros (kw & I & H); exists kw; (split; [exact I|]);
    destruct (write_keywords_letters kw I) as [Hn Hw];
    now apply (occurs_strip (spells kw) sql (spells_token kw Hn Hw)).
Qed.

Lemma has_limit_strip (sql : string) : has_limit sql <-> has_limit (strip sql).
Proof. apply occurs_strip, limit_number_token. Qed.

Lemma begins_with_select_strip (sql : string) :
  begins_with_select sql <-> begins_with_select (strip sql).
Proof.
  assert (T : token (spells "SELECT")).
  { apply spells_token; [discriminate | reflexivity]. }
  revert sql. apply strip_invariant; intros c s Hc;
    pose proof (space_not_word c Hc) as Hw.
  - split.
    + intros (ws & w & post & E & A & S & Hr). destruct ws as [|d ws].
      * exfalso. destruct (T w S) as [Hh _].
        destruct w as [|x w]; [discriminate|]. simpl in E, Hh. congruence.
      * simpl in E, A. injection E as <- ->. apply andb_prop in A.
        exists ws, w, post. tauto.
    + intros (ws & w & post & -> & A & S & Hr).
      exists (String c ws), w, post. simpl. rewrite Hc, A. auto.
  - split.
    + intros (ws & w & post & E & A & S & Hr).
      destruct (snoc_view post) as [-> | (post' & d & ->)].
      * exfalso. rewrite app_nil_r in E. destruct (T w S) as [_ Hl].
        destruct (snoc_view w) as [-> | (w' & d & ->)]; [discriminate|].
        rewrite <- app_assoc in E. apply snoc_inj in E. destruct E as [_ ->].
        unfold last_char in Hl. rewrite last_of_snoc in Hl. simpl in Hl.
        congruence.
      * rewrite <- !app_assoc in E. apply snoc_inj in E. destruct E as [-> ->].
        exists ws, w, post'. rewrite app_assoc. repeat split; auto.
        rewrite <- (head_before_nonword d post' "" Hw). exact Hr.
    + intros (ws & w & post & -> & A & S & Hr).
      exists ws, w, (post ++ String c ""). rewrite !app_assoc.
      repeat split; auto. now rewrite head_before_nonword.
Qed.

(** *** The guards of [sanitize] *)

Lemma write_guard (sql : string) :
  re_search write_operation (strip sql) = true <-> has_write_keyword sql.
Proof. now rewrite write_operation_spec, <- has_write_keyword_strip. Qed.

Lemma chain_guard (sql : string) :
  contains ";" (strip sql) && negb (endswith (strip (strip sql)) ";") = true
  <-> open_chain sql.
Proof.
  unfold open_chain.
  rewrite strip_idem, andb_true_iff, negb_true_iff, contains_char.
  rewrite <- endswith_char, not_true_iff_false. reflexivity.
Qed.

Lemma select_guard (sql : string) :
  re_match select_statement (strip sql) = true <-> begins_with_select sql.
Proof. now rewrite select_statement_spec, <- begins_with_select_strip. Qed.

Lemma limit_guard (sql : string) :
  re_search limit_clause (strip sql) = true <-> has_limit sql.
Proof. now rewrite limit_clause_spec, <- has_limit_strip. Qed.

Ltac reflect_guard H lem :=
  match type of H with
  | _ = true => apply lem in H
  | _ = false => apply not_true_iff_false in H; rewrite lem in H
  end.

(** The verdict of [sanitize], case by case. *)
Lemma sanitize_cases (sql : string) :
  (has_write_keyword sql /\ sanitize sql = Rejected write_error)
  \/ (~ has_write_keyword sql /\ open_chain sql
      /\ sanitize sql = Rejected multiple_error)
  \/ (~ has_write_keyword sql /\ ~ open_chain sql /\ ~ begins_with_select sql
      /\ sanitize sql = Rejected select_error)
  \/ (passes_validation sql /\ ~ has_limit sql
      /\ sanitize sql = Accepted (strip sql ++ " LIMIT 50"))
  \/ (passes_validation sql /\ has_limit sql
      /\ sanitize sql = Accepted (strip sql)).
Proof.
  unfold sanitize, passes_validation.
  destruct (re_search write_operation (strip sql)) eqn:W; reflect_guard W write_guard;
    [now left | right].
  destruct (contains ";" (strip sql) && negb (endswith (strip (strip sql)) ";"))
    eqn:C; reflect_guard C chain_guard; [now left | right].
  destruct (re_match select_statement (strip sql)) eqn:S; reflect_guard S select_guard;
    simpl; [right | now left].
  destruct (re_search limit_clause (strip sql)) eqn:L; reflect_guard L limit_guard;
    simpl; [right | left]; tauto.
Qed.

Lemma sanitize_accepted (sql : string) :
  passes_validation sql <-> exists stmt, sanitize sql = Accepted stmt.
Proof.
  destruct (sanitize_cases sql)
    as [[W E] | [(W & C & E) | [(W & C & S & E) | [(P & L & E) | (P & L & E)]]]];
    rewrite E; unfold passes_validation; split;
    try (intros (stmt & D); discriminate); try tauto; eauto.
Qed.

End SanitizeFacts.

(** * [SafeSQLTool._run]: the safety filter contract *)

Module RunClaims.

Import PyChar PyStr Re Py StrFacts StripFacts ReFacts Reading PatternFacts.
Import OccursFacts SanitizeFacts SafeSQLTool Sample.

Section Contract.

Variable cell : Type.
Variable repr_cell : cell -> string.
Variable repr_str : string -> string.
Variable e : env cell.

Local Abbreviation run := (_run repr_cell repr_str e).

Lemma run_rejected (sql msg : string) :
  sanitize sql = Rejected msg -> run sql = ([], Return msg).
Proof. unfold _run. now intros ->. Qed.

Lemma run_accepted (sql stmt : string) :
  sanitize sql = Accepted stmt ->
  run sql
  = ([SqlExecuted stmt],
     Return
       match exec_driver_sql e stmt with
       | Raise msg => "ERROR: " ++ msg
       | Return rs =>
           match rows rs with
           | [] => no_results
           | _ :: _ =>
               "SUCCESS: "
               ++ str_result_data repr_cell repr_str
                    (ResultData (columns rs) (rows rs) (List.length (rows rs)))
           end
       end).
Proof.
  unfold _run, run_sql, call. intros ->.
  destruct (exec_driver_sql e stmt) as [rs | msg]; simpl; [|reflexivity].
  now destruct (rows rs).
Qed.

(** C1, on the code: two statements chained with a semicolon are not
    rejected when the text ends with a semicolon: the check for multiple
    statements lets them through, and they reach the engine together. *)
Theorem run_accepts_closed_chain :
  has_before_end ";" (strip "SELECT 1; SELECT 2;")
  /\ sanitize "SELECT 1; SELECT 2;" = Accepted "SELECT 1; SELECT 2; LIMIT 50"
  /\ trace (run "SELECT 1; SELECT 2;")
     = [SqlExecuted "SELECT 1; SELECT 2; LIMIT 50"].
Proof.
  split; [|split].
  - exists "SELECT 1", " SELECT 2;". split; [reflexivity | discriminate].
  - reflexivity.
  - now rewrite (run_accepted "SELECT 1; SELECT 2;" _ eq_refl).
Qed.

(** C5: [_run] always returns a string; when executing the validated
    statement fails, the string is "ERROR: " followed by the message of
    the failure. *)
Theorem run_never_raises (sql : string) :
  (exists out, result (run sql) = Return out)
  /\ (forall stmt msg,
        sanitize sql = Accepted stmt ->
        exec_driver_sql e stmt = Raise msg ->
        run sql = ([SqlExecuted stmt], Return ("ERROR: " ++ msg))).
Proof.
  split.
  - destruct (sanitize sql) as [msg | stmt] eqn:E.
    + rewrite (run_rejected _ _ E). now exists msg.
    + rewrite (run_accepted _ _ E). eexists. reflexivity.
  - intros stmt msg E X. rewrite (run_accepted _ _ E), X. reflexivity.
Qed.

(** C6: when the accepted statement executes, [_run] returns the
    no-results string for zero rows, and otherwise "SUCCESS: " followed by
    the dict with the column names, the rows and a row count that is the
    number of rows, as Python prints it. *)
Theorem run_reports_rows (sql stmt : string) (rs : result_set cell) :
  sanitize sql = Accepted stmt ->
  exec_driver_sql e stmt = Return rs ->
  (rows rs = [] ->
   run sql
   = ([SqlExecuted stmt],
      Return "Query executed successfully but returned no results."))
  /\ (rows rs <> [] ->
      run sql
      = ([SqlExecuted stmt],
         Return
           ("SUCCESS: {'columns': ["
            ++ String.concat ", " (map repr_str (columns rs))
            ++ "], 'rows': ["
            ++ String.concat ", "
                 (map (fun row =>
                         "[" ++ String.concat ", " (map repr_cell row) ++ "]")
                    (rows rs))
            ++ "], 'row_count': "
            ++ NilZero.string_of_uint (Nat.to_uint (List.length (rows rs)))
            ++ "}"))).
Proof.
  intros E X. rewrite (run_accepted _ _ E), X. split.
  - now intros ->.
  - intros N. destruct (rows rs) as [|r l] eqn:R; [congruence|].
    unfold str_result_data, repr_list, join, of_nat. cbn [rd_columns rd_rows rd_row_count].
    do 2 f_equal. simpl. now rewrite !app_assoc.
Qed.

Lemma has_limit_appended (s : string) : has_limit (s ++ " LIMIT 50").
Proof.
  exists (s ++ " "), "LIMIT 50", "". repeat split.
  - rewrite app_assoc. reflexivity.
  - exists "LIMIT", " ", "50". repeat split; discriminate.
  - unfold last_char. rewrite last_of_app. reflexivity.
Qed.

Lemma no_write_keyword_appended (s : string) :
  ~ has_write_keyword s -> ~ has_write_keyword (s ++ " LIMIT 50").
Proof.
  intros N (kw & I & H). destruct (write_keywords_letters kw I) as [Hn Hw].
  apply (whole_word_split kw s "LIMIT 50" " " Hn Hw) in H; [|reflexivity].
  destruct H as [H | H].
  - apply N. now exists kw.
  - assert (K : has_write_keyword "LIMIT 50") by now exists kw.
    apply write_operation_spec in K. discriminate.
Qed.

Lemma begins_with_select_appended (s : string) :
  begins_with_select s -> begins_with_select (s ++ " LIMIT 50").
Proof.
  intros (ws & w & post & -> & A & S & Hr).
  exists ws, w, (post ++ " LIMIT 50"). rewrite !app_assoc. repeat split; auto.
  now rewrite (head_before_nonword " " post "LIMIT 50").
Qed.

Lemma rstrip_app (a b : string) :
  rstrip b <> "" -> rstrip (a ++ b) = a ++ rstrip b.
Proof.
  intros N. induction a as [|c a IH]; simpl; [reflexivity|].
  rewrite IH. destruct (a ++ rstrip b) eqn:E.
  - apply app_eq_nil in E. now destruct E.
  - now rewrite andb_false_r.
Qed.

Lemma strip_appended (s : string) :
  s <> "" -> strip s = s -> strip (s ++ " LIMIT 50") = s ++ " LIMIT 50".
Proof.
  intros N F. unfold strip.
  pose proof (rstrip_first _ (lstrip_first s)) as H.
  fold (strip s) in H. rewrite F in H.
  destruct s as [|c s]; [congruence|].
  rewrite (lstrip_fixed (String c s ++ " LIMIT 50") H).
  rewrite rstrip_app; [reflexivity | discriminate].
Qed.

Lemma has_char_app (c : ascii) (a b : string) :
  has_char c (a ++ b) -> has_char c a \/ has_char c b.
Proof.
  intros (pre & post & E).
  destruct (app_eq_app _ _ _ _ E) as [k [[-> E2] | [-> E2]]].
  - destruct k as [|d k].
    + simpl in E2. subst b. right. now exists "", post.
    + simpl in E2. injection E2 as <- ->. left. now exists pre, k.
  - right. now exists k, post.
Qed.

Lemma begins_with_select_nonempty (s : string) : begins_with_select s -> s <> "".
Proof.
  intros (ws & w & post & -> & _ & S & _) E.
  apply app_eq_nil in E. destruct E as [_ E].
  apply app_eq_nil in E. destruct E as [-> _]. discriminate.
Qed.

(** X5: The transform of [_run] leaves its own output alone, unless the
    trimmed input ends with a semicolon and has no LIMIT with a number. *)
Lemma sanitize_idempotent (sql stmt : string) :
  sanitize sql = Accepted stmt ->
  has_limit sql \/ ~ ends_with_char ";" (strip sql) ->
  sanitize stmt = Accepted stmt.
Proof.
  intros E H.
  assert (P : passes_validation sql) by (apply sanitize_accepted; eauto).
  destruct P as (W & C & S).
  rewrite has_write_keyword_strip in W. rewrite begins_with_select_strip in S.
  assert (G : passes_validation stmt /\ has_limit stmt /\ strip stmt = stmt).
  { destruct (sanitize_cases sql)
      as [[_ E'] | [(_ & _ & E') | [(_ & _ & _ & E') | [(_ & L & E') | (_ & L & E')]]]];
      rewrite E' in E; try discriminate; injection E as <-.
    - destruct H as [H | H]; [contradiction|].
      assert (F : strip (strip sql ++ " LIMIT 50") = strip sql ++ " LIMIT 50").
      { apply strip_appended; [now apply begins_with_select_nonempty|].
        apply strip_idem. }
      repeat split.
      + now apply no_write_keyword_appended.
      + unfold open_chain. rewrite F. intros [K _].
        apply has_char_app in K. destruct K as [K | K].
        * apply C. split; [exact K | exact H].
        * apply contains_char in K. discriminate.
      + now apply begins_with_select_appended.
      + apply has_limit_appended.
      + exact F.
    - repeat split; auto.
      + unfold open_chain. rewrite strip_idem. exact C.
      + exact (proj1 (has_limit_strip sql) L).
      + apply strip_idem. }
  destruct G as (P & L & F).
  destruct (sanitize_cases stmt)
    as [[W' _] | [(_ & C' & _) | [(_ & _ & S' & _) | [(_ & L' & _) | (_ & _ & E')]]]];
    try (destruct P as (? & ? & ?); contradiction).
  now rewrite E', F.
Qed.

End Contract.

(** *** The contract on the sample world *)

Local Abbreviation sample_run := (_run repr_int repr_plain sample_env).

(** C5, witness: a statement on a table that the database does not have. *)
Lemma run_never_raises_witness :
  sanitize "SELECT x FROM missing" = Accepted "SELECT x FROM missing LIMIT 50"
  /\ sample_run "SELECT x FROM missing"
     = ([SqlExecuted "SELECT x FROM missing LIMIT 50"],
        Return "ERROR: (sqlite3.OperationalError) no such table").
Proof.
  split; [reflexivity|].
  exact (proj2 (run_never_raises Z repr_int repr_plain sample_env
                  "SELECT x FROM missing")
           "SELECT x FROM missing LIMIT 50"
           "(sqlite3.OperationalError) no such table" eq_refl eq_refl).
Defined.

(** C6, witness: two rows. *)
Lemma run_reports_rows_witness :
  sanitize "SELECT id FROM customers"
  = Accepted "SELECT id FROM customers LIMIT 50"
  /\ sample_run "SELECT id FROM customers"
     = ([SqlExecuted "SELECT id FROM customers LIMIT 50"],
        Return "SUCCESS: {'columns': ['id'], 'rows': [[1], [2]], 'row_count': 2}").
Proof.
  split; [reflexivity|].
  refine (proj2 (run_reports_rows Z repr_int repr_plain sample_env
                   "SELECT id FROM customers"
                   "SELECT id FROM customers LIMIT 50"
                   (ResultSet ["id"] [[1%Z]; [2%Z]]) eq_refl eq_refl) _).
  discriminate.
Defined.

(** C10, on the code: a statement that ends with a semicolon and has no
    LIMIT is accepted and becomes a text that the same validation rejects
    as multiple statements. *)
Theorem sanitize_trailing_semicolon :
  sanitize "SELECT name FROM customers;"
  = Accepted "SELECT name FROM customers; LIMIT 50"
  /\ sanitize "SELECT name FROM customers; LIMIT 50" = Rejected multiple_error.
Proof. split; reflexivity. Qed.

End RunClaims.

(** * [/api/query]: the quota fallback and the empty query *)

Module EndpointClaims.

Import PyChar PyStr Py StrFacts StripFacts Reading SanitizeFacts Sample.
Import Vocabulary.

Section Handler.

Variable cell : Type.
Variable repr_str : string -> string.
Variable e : env cell.

Local Abbreviation response_of := (fallback_response cell e).
Local Abbreviation answer_of := (answer_query cell repr_str e).

Lemma get_data_returns (stmt : string) (message : nat -> string) :
  exists r, get_data e stmt message = ([SqlExecuted stmt], Return r).
Proof.
  unfold get_data, run_sql, call. simpl.
  destruct (exec_driver_sql e stmt); simpl; eauto.
Qed.

Lemma try_except_returned {A} (c : py A) (h : string -> py A) (a : A) :
  result c = Return a -> try_except c h = c.
Proof. destruct c as [l o]. simpl. now intros ->. Qed.

Lemma fallback_response_returns (f : fallback) :
  exists r, result (response_of f) = Return r.
Proof.
  destruct f; unfold fallback_response; simpl; try (now eexists);
    unfold get_customers_data, get_products_data, get_orders_data,
      get_revenue_data;
    match goal with
    | |- context [get_data e ?s ?m] =>
        destruct (get_data_returns s m) as (r & ->); now exists r
    end.
Qed.

Lemma mentions_guard (kw q : string) :
  contains kw (lower q) = true <-> mentions kw q.
Proof. apply contains_spec. Qed.

Lemma quota_guard (msg : string) :
  is_quota_error msg = true <-> quota_error msg.
Proof.
  unfold is_quota_error, quota_error.
  now rewrite orb_true_iff, !contains_spec.
Qed.

Ltac reflect_mentions H :=
  match type of H with
  | _ = true => apply mentions_guard in H
  | _ = false => apply not_true_iff_false in H; rewrite mentions_guard in H
  end.

(** The fallback answers with the first data set whose keyword the query
    mentions. *)
Lemma handle_quota_exceeded_routes (q : string) :
  exists f, routed q f /\ handle_quota_exceeded e q = response_of f.
Proof.
  unfold handle_quota_exceeded.
  destruct (contains "customers" (lower q)) eqn:C; reflect_mentions C.
  { exists Customers. split; [now constructor|].
    destruct (fallback_response_returns Customers) as (r & R).
    exact (try_except_returned _ _ _ R). }
  destruct (contains "products" (lower q)) eqn:P; reflect_mentions P.
  { exists Products. split; [now constructor|].
    destruct (fallback_response_returns Products) as (r & R).
    exact (try_except_returned _ _ _ R). }
  destruct (contains "orders" (lower q)) eqn:O; reflect_mentions O.
  { exists Orders. split; [now constructor|].
    destruct (fallback_response_returns Orders) as (r & R).
    exact (try_except_returned _ _ _ R). }
  destruct (contains "revenue" (lower q)) eqn:R1; reflect_mentions R1.
  { exists Revenue. split; [constructor; auto|].
    destruct (fallback_response_returns Revenue) as (r & R).
    exact (try_except_returned _ _ _ R). }
  destruct (contains "total" (lower q)) eqn:T; reflect_mentions T.
  { exists Revenue. split; [constructor; auto|].
    destruct (fallback_response_returns Revenue) as (r & R).
    exact (try_except_returned _ _ _ R). }
  exists QuotaMessage. split; [now constructor | reflexivity].
Qed.

Lemma handle_quota_exceeded_returns (q : string) :
  exists r, result (handle_quota_exceeded e q) = Return r.
Proof.
  destruct (handle_quota_exceeded_routes q) as (f & _ & ->).
  apply fallback_response_returns.
Qed.

Local Arguments drop : simpl never.
Local Arguments startswith : simpl never.

Lemma query_agent_answers (fields : list (string * value)) (q : string) :
  lookup "query" fields = Some (VStr q) -> strip q <> "" ->
  query_agent repr_str e (Return (VDict fields)) = answer_of (strip q).
Proof.
  intros L N. unfold query_agent, answer_query. simpl. rewrite L. simpl.
  destruct (strip q) as [|c uq] eqn:U; [congruence|]. simpl.
  destruct (get_sql_agent e) as [invoke|]; simpl; [|reflexivity].
  destruct (invoke (String c uq)) as [out | msg]; simpl.
  - destruct (startswith out "SUCCESS: "); [|reflexivity].
    destruct (structured e (drop 9 out)) as [[sd n]|]; reflexivity.
  - destruct (is_quota_error msg); [|reflexivity].
    destruct (handle_quota_exceeded_returns (String c uq)) as (r & R).
    unfold after. destruct (handle_quota_exceeded e (String c uq)) as [l o].
    simpl in R. subst o. reflexivity.
Qed.

Lemma query_agent_blank (fields : list (string * value)) :
  (lookup "query" fields = None
   \/ exists q, lookup "query" fields = Some (VStr q) /\ strip q = "") ->
  query_agent repr_str e (Return (VDict fields))
  = ([], Return (Error "No query provided", 400)).
Proof.
  unfold query_agent. simpl. intros [-> | (q & -> & U)]; simpl.
  - reflexivity.
  - rewrite U. reflexivity.
Qed.

(** The handler runs a statement of its own only after a quota error. *)
Lemma query_agent_executes_on_quota (request : outcome value) :
  executed (trace (query_agent repr_str e request)) <> [] ->
  exists invoke uq msg,
    get_sql_agent e = Some invoke /\ invoke uq = Raise msg /\ quota_error msg.
Proof.
  destruct request as [data | m]; [|intros H; now elim H].
  destruct data as [| b | z | r | s | l | fields];
    try (intros H; now elim H).
  destruct (lookup "query" fields) as [v|] eqn:L.
  - destruct v as [| b | z | r | q | l | d];
      try (unfold query_agent; simpl; rewrite L; intros H; now elim H).
    destruct (string_dec (strip q) "") as [U | U].
    + rewrite query_agent_blank; [intros H; now elim H | eauto].
    + rewrite (query_agent_answers _ _ L U). unfold answer_query.
      destruct (get_sql_agent e) as [invoke|]; [|intros H; now elim H].
      destruct (invoke (strip q)) as [out | msg] eqn:I;
        [intros H; now elim H|].
      destruct (is_quota_error msg) eqn:Q; [|intros H; now elim H].
      intros _. exists invoke, (strip q), msg.
      repeat split; auto. now apply quota_guard.
  - rewrite query_agent_blank; [intros H; now elim H | auto].
Qed.

(** Each answer of the fallback, spelled out: the statement that it runs
    and what it makes of the result. *)
Lemma fallback_response_explicit (f : fallback) (called : list event) :
  after called (response_of f)
  = match fallback_statement f with
    | Some stmt =>
        ((called ++ [SqlExecuted stmt])%list,
         Return
           (match exec_driver_sql e stmt with
            | Return rs =>
                Answer true (fallback_message f (List.length (rows rs)))
                  (Table (columns rs) (rows rs) (List.length (rows rs)))
            | Raise m => Answer false ("Database error: " ++ m) NoData
            end, 200))
    | None => (called, Return (Answer false quota_text NoData, 200))
    end.
Proof.
  destruct f; cbn [fallback_statement fallback_message];
    try change revenue_statement with revenue_sql;
    unfold after, fallback_response, get_customers_data, get_products_data,
      get_orders_data, get_revenue_data, get_data, run_sql, call, jsonify;
    simpl;
    try (destruct (exec_driver_sql e _); reflexivity).
  now rewrite List.app_nil_r.
Qed.

(** C7: when the query is not empty and invoking the agent raises, a
    message that mentions 429 or quota makes the handler answer through the
    fallback, routed by the keyword of the query: it runs the one statement
    of the route and answers with its columns, its rows and their number,
    or with the database error, or it answers with the quota message and
    runs nothing; any other message gives the 500 server error.  The
    handler runs a statement of its own on no other path. *)
Theorem query_agent_quota_fallback (request : outcome value) :
  (forall fields q invoke msg,
      request = Return (VDict fields) ->
      lookup "query" fields = Some (VStr q) -> strip q <> "" ->
      get_sql_agent e = Some invoke -> invoke (strip q) = Raise msg ->
      let called := [AgentCreated; AgentInvoked (strip q)] in
      (quota_error msg ->
       exists f,
         routed (strip q) f
         /\ query_agent repr_str e request
            = match fallback_statement f with
              | Some stmt =>
                  ((called ++ [SqlExecuted stmt])%list,
                   Return
                     (match exec_driver_sql e stmt with
                      | Return rs =>
                          Answer true
                            (fallback_message f (List.length (rows rs)))
                            (Table (columns rs) (rows rs)
                               (List.length (rows rs)))
                      | Raise m =>
                          Answer false ("Database error: " ++ m) NoData
                      end, 200))
              | None =>
                  (called, Return (Answer false quota_text NoData, 200))
              end)
      /\ (~ quota_error msg ->
          query_agent repr_str e request
          = (called, Return (Error ("Server error: " ++ msg), 500))))
  /\ (executed (trace (query_agent repr_str e request)) <> [] ->
      exists invoke uq msg,
        get_sql_agent e = Some invoke /\ invoke uq = Raise msg
        /\ quota_error msg).
Proof.
  split; [|apply query_agent_executes_on_quota].
  intros fields q invoke msg -> L U A I called.
  rewrite (query_agent_answers _ _ L U). unfold answer_query. rewrite A, I.
  split; intros Q.
  - apply quota_guard in Q. rewrite Q.
    destruct (handle_quota_exceeded_routes (strip q)) as (f & R & ->).
    exists f. split; [exact R|]. apply fallback_response_explicit.
  - rewrite <- quota_guard in Q. apply not_true_iff_false in Q.
    now rewrite Q.
Qed.

(** C9: a body without a "query" entry, or whose "query" is empty or only
    white space, is answered with status 400 and "No query provided"; the
    agent is not called and no statement is executed. *)
Theorem query_agent_no_query (fields : list (string * value)) :
  (lookup "query" fields = None
   \/ exists q, lookup "query" fields = Some (VStr q) /\ all isspace q = true) ->
  query_agent repr_str e (Return (VDict fields))
  = ([], Return (Error "No query provided", 400)).
Proof.
  intros [L | (q & L & A)]; apply query_agent_blank; [now left | right].
  exists q. split; [exact L | now apply all_space_strip].
Qed.

End Handler.

(** *** The handler on the sample world *)

Local Abbreviation sample_query q :=
  (query_agent repr_plain sample_env (Return (VDict [("query", VStr q)]))).

(** C7, witness: the quota of the sample agent is used up. *)
Lemma query_agent_quota_fallback_witness :
  quota_error "429 You exceeded your current quota"
  /\ (exists f,
        routed "Show all Customers" f
        /\ sample_query " Show all Customers "
           = match fallback_statement f with
             | Some stmt =>
                 ([AgentCreated; AgentInvoked "Show all Customers";
                   SqlExecuted stmt],
                  Return
                    (match exec_driver_sql sample_env stmt with
                     | Return rs =>
                         Answer true
                           (fallback_message f (List.length (rows rs)))
                           (Table (columns rs) (rows rs)
                              (List.length (rows rs)))
                     | Raise m =>
                         Answer false ("Database error: " ++ m) NoData
                     end, 200))
             | None =>
                 ([AgentCreated; AgentInvoked "Show all Customers"],
                  Return (Answer false quota_text NoData, 200))
             end)
  /\ sample_query " Show all Customers "
     = ([AgentCreated; AgentInvoked "Show all Customers";
         SqlExecuted "SELECT * FROM customers LIMIT 20"],
        Return
          (Answer true
             "Found 2 customers (API quota exceeded, showing direct database results)"
             (Table ["id"; "region"] [[1%Z; 10%Z]; [2%Z; 20%Z]] 2), 200)).
Proof.
  assert (Q : quota_error "429 You exceeded your current quota")
    by (apply quota_guard; reflexivity).
  split; [exact Q | split; [|reflexivity]].
  refine (proj1 (proj1 (query_agent_quota_fallback Z repr_plain sample_env _)
                   [("query", VStr " Show all Customers ")]
                   " Show all Customers " sample_agent _
                   eq_refl eq_refl _ eq_refl eq_refl) Q).
  discriminate.
Defined.

(** C9, witness: a query of white space only. *)
Lemma query_agent_no_query_witness :
  all isspace "   " = true
  /\ sample_query "   " = ([], Return (Error "No query provided", 400)).
Proof.
  split; [reflexivity|].
  apply (query_agent_no_query Z repr_plain sample_env).
  right. exists "   ". split; reflexivity.
Defined.

End EndpointClaims.

(** * [SafeSQLTool._run]: more of its behaviour *)

Module RunExtras.

Import PyChar PyStr Re Py StrFacts StripFacts ReFacts Reading PatternFacts.
Import OccursFacts SanitizeFacts SafeSQLTool Sample RunClaims.

Lemma lstrip_app (a b : string) :
  lstrip (a ++ b) = if is_empty (lstrip a) then lstrip b else lstrip a ++ b.
Proof.
  induction a as [|c a IH]; simpl; [reflexivity|].
  destruct (isspace c); [exact IH | reflexivity].
Qed.

Lemma rstrip_all_space (s : string) : all isspace s = true -> rstrip s = "".
Proof.
  induction s as [|c s IH]; simpl; [reflexivity|]. intros H.
  apply andb_prop in H. destruct H as [-> H]. now rewrite (IH H).
Qed.

Lemma rstrip_pad (s trail : string) :
  all isspace trail = true -> rstrip (s ++ trail) = rstrip s.
Proof.
  intros H. induction s as [|c s IH]; simpl.
  - now apply rstrip_all_space.
  - now rewrite IH.
Qed.

Lemma lstrip_all_space (s : string) : all isspace s = true -> lstrip s = "".
Proof.
  induction s as [|c s IH]; simpl; [reflexivity|]. intros H.
  apply andb_prop in H. destruct H as [-> H]. auto.
Qed.

(** White space added around a string is trimmed away with its own. *)
Lemma strip_pad (lead s trail : string) :
  all isspace lead = true -> all isspace trail = true ->
  strip (lead ++ s ++ trail) = strip s.
Proof.
  intros Hl Ht. unfold strip.
  rewrite lstrip_app, (lstrip_all_space lead Hl). simpl.
  rewrite lstrip_app. destruct (lstrip s) as [|c r] eqn:E; simpl.
  - now rewrite (lstrip_all_space trail Ht).
  - now rewrite (rstrip_pad r trail Ht).
Qed.

Section Behaviour.

Variable cell : Type.
Variable repr_cell : cell -> string.
Variable repr_str : string -> string.
Variable e : env cell.

Local Abbreviation run := (_run repr_cell repr_str e).

(** X1: White space before and after the input changes nothing: [_run]
    returns the same string and executes the same statement. *)
Theorem run_ignores_padding (lead sql trail : string) :
  all isspace lead = true -> all isspace trail = true ->
  run (lead ++ sql ++ trail) = run sql.
Proof.
  intros Hl Ht. unfold _run, sanitize.
  now rewrite (strip_pad lead sql trail Hl Ht).
Qed.

(** X6: The three kinds of answer of [_run] cannot be confused, whatever the
    engine says: the answer starts with "SUCCESS: " exactly when the
    statement ran and gave rows, it starts with "ERROR: " exactly when the
    input was rejected or the engine failed, and it is the no-results
    string exactly when the statement ran and gave no row. *)
Theorem run_answer_tags (sql : string) :
  exists out,
    result (run sql) = Return out
    /\ (startswith out "SUCCESS: " = true
        <-> exists stmt rs,
              sanitize sql = Accepted stmt
              /\ exec_driver_sql e stmt = Return rs /\ rows rs <> [])
    /\ (startswith out "ERROR: " = true
        <-> (exists msg, sanitize sql = Rejected msg)
            \/ exists stmt msg,
                 sanitize sql = Accepted stmt
                 /\ exec_driver_sql e stmt = Raise msg)
    /\ (out = no_results
        <-> exists stmt rs,
              sanitize sql = Accepted stmt
              /\ exec_driver_sql e stmt = Return rs /\ rows rs = []).
Proof.
  destruct (sanitize sql) as [msg | stmt] eqn:E.
  - rewrite (run_rejected _ repr_cell repr_str e _ _ E). exists msg.
    split; [reflexivity|].
    assert (M : In msg [write_error; multiple_error; select_error]).
    { destruct (sanitize_cases sql)
        as [[_ E'] | [(_ & _ & E') | [(_ & _ & _ & E') | [(_ & _ & E') | (_ & _ & E')]]]];
        rewrite E' in E; try discriminate; injection E as <-; simpl; tauto. }
    simpl in M. destruct M as [<- | [<- | [<- | []]]];
      (split; [|split]);
      (split; [try discriminate; eauto | ]);
      try (intros (stmt & rs & D & _); discriminate);
      try (intros _; reflexivity).
  - rewrite (run_accepted _ repr_cell repr_str e _ _ E).
    destruct (exec_driver_sql e stmt) as [rs | msg] eqn:X.
    + destruct (rows rs) as [|r l] eqn:R.
      * exists no_results. split; [reflexivity|]. split; [|split].
        -- split; [discriminate|]. intros (stmt' & rs' & D & X' & N).
           injection D as <-. rewrite X in X'. injection X' as <-. congruence.
        -- split; [discriminate|].
           intros [(msg & D) | (stmt' & msg & D & X')]; [discriminate|].
           injection D as <-. congruence.
        -- split; [|reflexivity]. intros _. exists stmt, rs. auto.
      * eexists. split; [reflexivity|]. split; [|split].
        -- split; [|reflexivity]. intros _. exists stmt, rs.
           repeat split; auto. congruence.
        -- split; [discriminate|].
           intros [(msg & D) | (stmt' & msg & D & X')]; [discriminate|].
           injection D as <-. congruence.
        -- split; [discriminate|]. intros (stmt' & rs' & D & X' & N).
           injection D as <-. rewrite X in X'. injection X' as <-. congruence.
    + eexists. split; [reflexivity|]. split; [|split].
      * split; [discriminate|]. intros (stmt' & rs' & D & X' & _).
        injection D as <-. congruence.
      * split; [|intros _; apply prefix_spec; now exists msg].
        intros _. right. exists stmt, msg. auto.
      * split; [discriminate|]. intros (stmt' & rs' & D & X' & _).
        injection D as <-. congruence.
Qed.

End Behaviour.

Local Abbreviation sample_run := (_run repr_int repr_plain sample_env).

(** X1, witness: a tab and a newline around the input. *)
Lemma run_ignores_padding_witness :
  all isspace (String "009" "") = true
  /\ all isspace (String "010" " ") = true
  /\ sample_run (String "009" "" ++ "SELECT id FROM customers" ++ String "010" " ")
     = sample_run "SELECT id FROM customers".
Proof.
  split; [reflexivity | split; [reflexivity|]].
  exact (run_ignores_padding Z repr_int repr_plain sample_env
           (String "009" "") "SELECT id FROM customers" (String "010" " ")
           eq_refl eq_refl).
Defined.

(** X5, witness: an input that already has its LIMIT. *)
Lemma sanitize_idempotent_witness :
  sanitize " SELECT id FROM customers LIMIT 5; "
  = Accepted "SELECT id FROM customers LIMIT 5;"
  /\ has_limit " SELECT id FROM customers LIMIT 5; "
  /\ sanitize "SELECT id FROM customers LIMIT 5;"
     = Accepted "SELECT id FROM customers LIMIT 5;".
Proof.
  assert (L : has_limit " SELECT id FROM customers LIMIT 5; ")
    by (apply limit_guard; reflexivity).
  split; [reflexivity | split; [exact L|]].
  exact (sanitize_idempotent " SELECT id FROM customers LIMIT 5; " _
           eq_refl (or_introl L)).
Defined.

End RunExtras.

(** * Facts about strings of code points *)

Module UStrFacts.

Import UChar UStr URe UReading.

Local Open Scope list_scope.

Lemma u_app (a b : string) : u (a ++ b)%string = u a ++ u b.
Proof.
  unfold u. induction a as [|c a IH]; simpl; [reflexivity|].
  now rewrite IH.
Qed.

Lemma u_app_eq_app (a b c d : str) :
  a ++ b = c ++ d ->
  exists k, (a = c ++ k /\ d = k ++ b) \/ (c = a ++ k /\ b = k ++ d).
Proof.
  revert c. induction a as [|x a IH]; intros c H; simpl in H.
  - exists c. right. auto.
  - destruct c as [|y c]; simpl in H.
    + exists (x :: a). left. auto.
    + injection H as -> H. destruct (IH _ H) as [k [[-> ->] | [-> ->]]];
        exists k; [left | right]; auto.
Qed.

Lemma u_snoc_view (s : str) : s = [] \/ exists s' c, s = s' ++ [c].
Proof.
  induction s as [|x s IH]; [now left | right].
  destruct IH as [-> | (s' & c & ->)].
  - now exists [], x.
  - now exists (x :: s'), c.
Qed.

Lemma u_last_of_app (p : option N) (a b : str) :
  last_of p (a ++ b) = last_of (last_of p a) b.
Proof. revert p. induction a as [|x a IH]; intros p; simpl; auto. Qed.

Lemma u_last_of_snoc (p : option N) (w : str) (c : N) :
  last_of p (w ++ [c]) = Some c.
Proof. rewrite u_last_of_app. reflexivity. Qed.

Lemma u_head_app (a b : str) : a <> [] -> head (a ++ b) = head a.
Proof. destruct a; [congruence | reflexivity]. Qed.

Lemma u_all_app (p : N -> bool) (a b : str) :
  all p (a ++ b) = all p a && all p b.
Proof.
  induction a as [|x a IH]; simpl; [reflexivity|].
  rewrite IH. now rewrite andb_assoc.
Qed.

(** *** Character classes *)

(** A code point below 256 is the code of a character of the 8-bit
    alphabet. *)
Lemma u_narrow (x : N) : (x <? 256)%N = true -> exists a, x = N_of_ascii a.
Proof.
  intros H. apply N.ltb_lt in H. exists (ascii_of_N x).
  symmetry. now apply N_ascii_embedding.
Qed.

Lemma u_narrow_code (a : ascii) : (N_of_ascii a <? 256)%N = true.
Proof. apply N.ltb_lt, N_ascii_bounded. Qed.

Lemma u_isspace_narrow (a : ascii) : isspace (N_of_ascii a) = PyChar.isspace a.
Proof. unfold isspace. now rewrite u_narrow_code, ascii_N_embedding. Qed.

Section Database.

Variable db : ucd.
Hypothesis laws : lawful db.

Lemma u_isword_narrow (a : ascii) : isword db (N_of_ascii a) = PyChar.isword a.
Proof. unfold isword. now rewrite u_narrow_code, ascii_N_embedding. Qed.

Lemma u_isdecimal_narrow (a : ascii) :
  isdecimal db (N_of_ascii a) = PyChar.isdecimal a.
Proof. unfold isdecimal. now rewrite u_narrow_code, ascii_N_embedding. Qed.

Lemma u_space_not_word (x : N) : isspace x = true -> isword db x = false.
Proof.
  unfold isspace, isword. destruct (x <? 256)%N.
  - apply StrFacts.space_not_word.
  - apply (space_not_alnum db laws).
Qed.

Lemma u_decimal_is_word (x : N) : isdecimal db x = true -> isword db x = true.
Proof.
  unfold isdecimal, isword. destruct (x <? 256)%N.
  - apply StrFacts.decimal_is_word.
  - apply (decimal_alnum db laws).
Qed.

(** A string of word characters, when not empty, starts and ends with one. *)
Lemma u_all_word_first (w : str) :
  all (isword db) w = true -> w <> [] ->
  exists c, head w = Some c /\ isword db c = true.
Proof.
  destruct w as [|c w]; [congruence|]. simpl. intros H _.
  apply andb_prop in H. exists c. tauto.
Qed.

Lemma u_all_word_last (w : str) (p : option N) :
  all (isword db) w = true -> w <> [] ->
  exists c, last_of p w = Some c /\ isword db c = true.
Proof.
  revert p. induction w as [|c w IH]; [congruence|]. simpl. intros p H _.
  apply andb_prop in H. destruct H as [Hc Hw].
  destruct w as [|d w]; [exists c; auto|].
  apply IH; [exact Hw | discriminate].
Qed.

End Database.

End UStrFacts.

(** * Facts about [strip], on code points *)

Module UStripFacts.

Import UChar UStr UReading UStrFacts.

Local Open Scope list_scope.

Lemma u_lstrip_split (s : str) :
  exists lead, s = lead ++ lstrip s /\ all isspace lead = true.
Proof.
  induction s as [|c s (lead & E & A)]; simpl.
  - now exists [].
  - destruct (isspace c) eqn:Hc.
    + exists (c :: lead). simpl. rewrite Hc, A. split; [congruence | reflexivity].
    + now exists [].
Qed.

Lemma u_rstrip_split (s : str) :
  exists trail, s = rstrip s ++ trail /\ all isspace trail = true.
Proof.
  induction s as [|c s (trail & E & A)]; simpl.
  - now exists [].
  - destruct (isspace c && is_empty (rstrip s)) eqn:H.
    + apply andb_prop in H. destruct H as [Hc He].
      destruct (rstrip s); [|discriminate]. simpl in E. subst s.
      exists (c :: trail). simpl. now rewrite Hc, A.
    + exists trail. simpl. split; congruence.
Qed.

Lemma u_strip_split (s : str) :
  exists lead trail,
    s = lead ++ strip s ++ trail
    /\ all isspace lead = true /\ all isspace trail = true.
Proof.
  destruct (u_lstrip_split s) as (lead & E1 & A1).
  destruct (u_rstrip_split (lstrip s)) as (trail & E2 & A2).
  exists lead, trail. unfold strip. rewrite <- E2. auto.
Qed.

Lemma u_lstrip_first (s : str) :
  match lstrip s with c :: _ => isspace c = false | [] => True end.
Proof.
  induction s as [|c s IH]; simpl; [exact I|].
  destruct (isspace c) eqn:Hc; [exact IH | exact Hc].
Qed.

Lemma u_lstrip_fixed (s : str) :
  match s with c :: _ => isspace c = false | [] => True end ->
  lstrip s = s.
Proof. destruct s as [|c s]; simpl; [auto | intros ->; auto]. Qed.

Lemma u_rstrip_first (s : str) :
  match s with c :: _ => isspace c = false | [] => True end ->
  match rstrip s with c :: _ => isspace c = false | [] => True end.
Proof.
  destruct s as [|c s]; simpl; [auto|]. intros Hc. rewrite Hc. simpl. exact Hc.
Qed.

Lemma u_rstrip_idem (s : str) : rstrip (rstrip s) = rstrip s.
Proof.
  induction s as [|c s IH]; simpl; [reflexivity|].
  destruct (isspace c && is_empty (rstrip s)) eqn:H; [reflexivity|].
  simpl. rewrite IH, H. reflexivity.
Qed.

Lemma u_strip_idem (s : str) : strip (strip s) = strip s.
Proof.
  unfold strip.
  rewrite (u_lstrip_fixed (rstrip (lstrip s))).
  - apply u_rstrip_idem.
  - apply u_rstrip_first, u_lstrip_first.
Qed.

(** A property that the white space at the two ends of a string does not
    affect holds of a string exactly when it holds of the trimmed one. *)
Lemma u_strip_invariant (P : str -> Prop) :
  (forall c s, isspace c = true -> (P (c :: s) <-> P s)) ->
  (forall c s, isspace c = true -> (P (s ++ [c]) <-> P s)) ->
  forall s, P s <-> P (strip s).
Proof.
  intros Hl Hr s.
  destruct (u_strip_split s) as (lead & trail & E & Al & At).
  rewrite E at 1. clear E. generalize (strip s). intros x.
  transitivity (P (x ++ trail)).
  - clear At. induction lead as [|c lead IH]; simpl; [reflexivity|].
    simpl in Al. apply andb_prop in Al. destruct Al as [Hc Al].
    rewrite (Hl c _ Hc). auto.
  - clear Al. revert x. induction trail as [|c trail IH]; intros x.
    + now rewrite app_nil_r.
    + simpl in At. apply andb_prop in At. destruct At as [Hc At].
      change (x ++ c :: trail) with (x ++ [c] ++ trail).
      rewrite app_assoc, (IH At). apply Hr, Hc.
Qed.

Lemma u_all_space_strip (s : str) : all isspace s = true -> strip s = [].
Proof.
  unfold strip. intros H. replace (lstrip s) with (@nil N); [reflexivity|].
  induction s as [|c s IH]; [reflexivity|]. simpl in *.
  apply andb_prop in H. destruct H as [-> H]. auto.
Qed.

Lemma u_rstrip_app (a b : str) :
  rstrip b <> [] -> rstrip (a ++ b) = a ++ rstrip b.
Proof.
  intros N. induction a as [|c a IH]; simpl; [reflexivity|].
  rewrite IH. destruct (a ++ rstrip b) eqn:E.
  - apply app_eq_nil in E. now destruct E.
  - now rewrite andb_false_r.
Qed.

End UStripFacts.

(** * Facts about the matcher, on code points *)

Module UReFacts.

Import UChar UStr Re URe UReading UStrFacts.

Local Open Scope list_scope.

Section Database.

Variable db : ucd.

Lemma u_star_m_spec (p : N -> bool) (k : cont) (prev : option N) (s : str) :
  star_m p k prev s = true <->
  exists w rest, s = w ++ rest /\ all p w = true /\ k (last_of prev w) rest = true.
Proof.
  revert prev. induction s as [|x s IH]; intros prev; simpl.
  - split.
    + intros H. now exists [], [].
    + intros (w & rest & E & _ & H). symmetry in E.
      apply app_eq_nil in E. destruct E as [-> ->]. exact H.
  - rewrite orb_true_iff, andb_true_iff, IH. split.
    + intros [[Hx (w & rest & -> & A & H)] | H].
      * exists (x :: w), rest. simpl. rewrite Hx, A. auto.
      * now exists [], (x :: s).
    + intros (w & rest & E & A & H). destruct w as [|y w]; simpl in *.
      * subst rest. now right.
      * injection E as -> ->. apply andb_prop in A. destruct A as [Hx A].
        left. split; [exact Hx|]. now exists w, rest.
Qed.

Lemma u_word_m_spec (ic : bool) (kw : string) (k : cont)
    (prev : option N) (s : str) :
  m db ic (word kw) k prev s = true <->
  exists w rest,
    s = w ++ rest /\ same_word ic kw w = true /\ k (last_of prev w) rest = true.
Proof.
  revert prev s. induction kw as [|c kw IH]; intros prev s; simpl.
  - split.
    + intros H. now exists [], s.
    + intros (w & rest & -> & E & H). destruct w; [exact H | discriminate].
  - destruct s as [|x s].
    + split; [discriminate|]. intros (w & rest & E & S & _).
      destruct w; [discriminate | discriminate].
    + rewrite andb_true_iff, IH. split.
      * intros [Hx (w & rest & -> & S & H)].
        exists (x :: w), rest. simpl. rewrite Hx, S. auto.
      * intros (w & rest & E & S & H). destruct w as [|y w]; [discriminate|].
        simpl in E. injection E as -> ->. apply andb_prop in S.
        destruct S as [Hx S]. split; [exact Hx|]. now exists w, rest.
Qed.

Lemma u_alternatives_m_spec (ic : bool) (w : string) (ws : list string)
    (k : cont) (prev : option N) (s : str) :
  m db ic (alternatives w ws) k prev s = true <->
  exists kw, In kw (w :: ws) /\ m db ic (word kw) k prev s = true.
Proof.
  revert w. induction ws as [|w' ws IH]; intros w.
  - simpl. split.
    + intros H. exists w. auto.
    + intros (kw & [-> | []] & H). exact H.
  - change (alternatives w (w' :: ws)) with (Alt (word w) (alternatives w' ws)).
    cbn [m]. rewrite orb_true_iff, IH. split.
    + intros [H | (kw & I & H)]; [exists w | exists kw]; simpl; auto.
    + intros (kw & [-> | I] & H); [left | right]; eauto.
Qed.

Lemma u_search_from_spec (p : pattern) (prev : option N) (s : str) :
  search_from db p prev s = true <->
  exists pre rest,
    s = pre ++ rest /\ match_at db p (last_of prev pre) rest = true.
Proof.
  revert prev. induction s as [|c s IH]; intros prev; simpl.
  - rewrite orb_false_r. split.
    + intros H. now exists [], [].
    + intros (pre & rest & E & H). symmetry in E.
      apply app_eq_nil in E. destruct E as [-> ->]. exact H.
  - rewrite orb_true_iff, IH. split.
    + intros [H | (pre & rest & -> & H)].
      * now exists [], (c :: s).
      * now exists (c :: pre), rest.
    + intros (pre & rest & E & H). destruct pre as [|d pre]; simpl in *.
      * subst rest. now left.
      * injection E as -> ->. right. now exists pre, rest.
Qed.

Lemma u_re_search_spec (p : pattern) (s : str) :
  re_search db p s = true <->
  exists pre rest, s = pre ++ rest /\ match_at db p (last_char pre) rest = true.
Proof. apply u_search_from_spec. Qed.

End Database.

End UReFacts.

(** * Letters, up to case and under [re.I] *)

Module ULetterFacts.

Import UChar UStr URe UReading UStrFacts.

Local Open Scope list_scope.
Local Open Scope N_scope.

Ltac by_points :=
  unfold pattern_letter, letter, ascii_letter, between in *;
  repeat (match goal with
          | H : context [N.eqb ?a ?b] |- _ => destruct (N.eqb_spec a b)
          | H : context [N.leb ?a ?b] |- _ => destruct (N.leb_spec a b)
          | |- context [N.eqb ?a ?b] => destruct (N.eqb_spec a b)
          | |- context [N.leb ?a ?b] => destruct (N.leb_spec a b)
          end;
          simpl in *; try discriminate; try lia).

(** Up to case, a letter is read the same by the pattern. *)
Lemma u_letter_pattern (x y : N) :
  ascii_letter y = true -> letter x = letter y ->
  pattern_letter x = pattern_letter y.
Proof. intros H E. by_points. Qed.

(** The pattern reads more: U+0130 as the letter I. *)
Lemma u_pattern_letter (x y : N) :
  ascii_letter y = true -> letter y <> 105 ->
  pattern_letter x = pattern_letter y -> letter x = letter y.
Proof. intros H N E. by_points. Qed.

(** The characters that the pattern reads as a letter. *)
Lemma u_pattern_letter_cases (x y : N) :
  ascii_letter y = true -> pattern_letter x = pattern_letter y ->
  ((x <? 256) = true /\ ascii_letter x = true) \/ In x wide_letters.
Proof.
  intros H E. unfold wide_letters. simpl.
  destruct (N.ltb_spec x 256); by_points; auto.
Qed.

(** On the code points 0..255, the pattern reads a letter as the lower
    case of the 8-bit alphabet does. *)
Lemma u_narrow_letter (a : ascii) :
  between 97 122 (N_of_ascii (PyChar.tolower a)) = true
  \/ between 97 122 (pattern_letter (N_of_ascii a)) = true ->
  pattern_letter (N_of_ascii a) = N_of_ascii (PyChar.tolower a).
Proof.
  destruct a as [[] [] [] [] [] [] [] []]; vm_compute;
    intros [H | H]; try reflexivity; discriminate H.
Qed.

Lemma u_letter_lower (c : ascii) :
  ascii_letter (N_of_ascii c) = true ->
  between 97 122 (N_of_ascii (PyChar.tolower c)) = true.
Proof.
  destruct c as [[] [] [] [] [] [] [] []]; vm_compute; congruence.
Qed.

Lemma u_lit_eq_narrow (c a : ascii) :
  ascii_letter (N_of_ascii c) = true ->
  (PyChar.lit_eq true c a = true
   <-> pattern_letter (N_of_ascii a) = pattern_letter (N_of_ascii c)).
Proof.
  intros H. pose proof (u_letter_lower c H) as L.
  rewrite (u_narrow_letter c (or_introl L)).
  unfold PyChar.lit_eq. rewrite Ascii.eqb_eq. split.
  - intros E. rewrite u_narrow_letter; [now rewrite E | left; now rewrite E].
  - intros E. rewrite u_narrow_letter in E; [|right; now rewrite E].
    apply (f_equal ascii_of_N) in E. now rewrite !ascii_N_embedding in E.
Qed.

Lemma u_lit_eq_wide (c : ascii) (x : N) :
  ascii_letter (N_of_ascii c) = true -> 256 <= x ->
  (existsb (N.eqb x) (equivalents c) = true
   <-> pattern_letter x = pattern_letter (N_of_ascii c)).
Proof.
  intros H W.
  destruct c as [[] [] [] [] [] [] [] []];
    try (vm_compute in H; discriminate H); clear H;
    match goal with
    | |- context [equivalents ?c] =>
        let l := eval vm_compute in (equivalents c) in
        change (equivalents c) with l
    end;
    match goal with
    | |- context [pattern_letter (N_of_ascii ?c)] =>
        let v := eval vm_compute in (pattern_letter (N_of_ascii c)) in
        change (pattern_letter (N_of_ascii c)) with v
    end;
    cbn [existsb]; by_points; split; intros E;
    try reflexivity; try discriminate E; try lia.
Qed.

(** [re.I] on a letter of the ASCII alphabet. *)
Lemma u_lit_eq_letter (c : ascii) (x : N) :
  ascii_letter (N_of_ascii c) = true ->
  (lit_eq true c x = true
   <-> pattern_letter x = pattern_letter (N_of_ascii c)).
Proof.
  intros H. unfold lit_eq. destruct (x <? 256) eqn:W.
  - destruct (u_narrow x W) as (a & ->). rewrite ascii_N_embedding.
    now apply u_lit_eq_narrow.
  - apply N.ltb_ge in W. now apply u_lit_eq_wide.
Qed.

Lemma u_ascii_letters_cons (c : ascii) (kw : string) :
  ascii_letters (String c kw)
  = ascii_letter (N_of_ascii c) && ascii_letters kw.
Proof. reflexivity. Qed.

Lemma u_same_word_matches (kw : string) (w : str) :
  ascii_letters kw = true ->
  (same_word true kw w = true <-> matches kw w).
Proof.
  unfold matches. revert w.
  induction kw as [|c kw IH]; intros [|x w] L; simpl;
    try (split; [discriminate|discriminate]); [tauto|].
  rewrite u_ascii_letters_cons in L. apply andb_prop in L.
  destruct L as [Lc L].
  rewrite andb_true_iff, (IH w L), (u_lit_eq_letter c x Lc).
  change (u (String c kw)) with (N_of_ascii c :: u kw). simpl.
  split; [intros [-> ->]; reflexivity | intros H; injection H; auto].
Qed.

Lemma u_spells_matches (kw : string) (w : str) :
  ascii_letters kw = true -> spells kw w -> matches kw w.
Proof.
  unfold spells, matches. revert w.
  induction kw as [|c kw IH]; intros [|x w] L E; try discriminate E;
    [reflexivity|].
  rewrite u_ascii_letters_cons in L. apply andb_prop in L.
  destruct L as [Lc L].
  change (u (String c kw)) with (N_of_ascii c :: u kw) in *. simpl in *.
  injection E as E1 E2.
  now rewrite (u_letter_pattern _ _ Lc E1), (IH w L E2).
Qed.

(** A keyword without the letter I is read by the pattern as it is read
    up to case. *)
Lemma u_matches_spells (kw : string) (w : str) :
  ascii_letters kw = true -> no_letter_i kw = true ->
  matches kw w -> spells kw w.
Proof.
  unfold spells, matches, no_letter_i. revert w.
  induction kw as [|c kw IH]; intros [|x w] L I E; try discriminate E;
    [reflexivity|].
  rewrite u_ascii_letters_cons in L. apply andb_prop in L.
  destruct L as [Lc L].
  change (u (String c kw)) with (N_of_ascii c :: u kw) in *. simpl in *.
  apply andb_prop in I. destruct I as [Ic I].
  apply negb_true_iff, N.eqb_neq in Ic.
  injection E as E1 E2.
  now rewrite (u_pattern_letter _ _ Lc Ic E1), (IH w L I E2).
Qed.

Lemma u_matches_nonempty (kw : string) (w : str) :
  matches kw w -> kw <> ""%string -> w <> [].
Proof.
  unfold matches. intros H Hk ->. destruct kw; [congruence | discriminate].
Qed.

Section Database.

Variable db : ucd.
Hypothesis laws : lawful db.

(** The characters that the pattern reads as letters are word
    characters. *)
Lemma u_letter_isword (x y : N) :
  ascii_letter y = true -> pattern_letter x = pattern_letter y ->
  isword db x = true.
Proof.
  intros H E. destruct (u_pattern_letter_cases x y H E) as [[W L] | I].
  - destruct (u_narrow x W) as (a & ->). rewrite u_isword_narrow.
    revert L. clear.
    destruct a as [[] [] [] [] [] [] [] []]; vm_compute; congruence.
  - unfold isword. destruct (x <? 256) eqn:W.
    + exfalso. apply N.ltb_lt in W. unfold wide_letters in I. simpl in I.
      lia.
    + now apply (letters_alnum db laws).
Qed.

Lemma u_matches_word (kw : string) (w : str) :
  matches kw w -> ascii_letters kw = true -> all (isword db) w = true.
Proof.
  unfold matches. revert w.
  induction kw as [|c kw IH]; intros [|x w] E L; try discriminate E;
    [reflexivity|].
  rewrite u_ascii_letters_cons in L. apply andb_prop in L.
  destruct L as [Lc L].
  change (u (String c kw)) with (N_of_ascii c :: u kw) in *. simpl in *.
  injection E as E1 E2.
  now rewrite (u_letter_isword _ _ Lc E1), (IH w E2 L).
Qed.

(** A word of the pattern starts and ends with a word character. *)
Lemma u_matches_head (kw : string) (w rest : str) :
  matches kw w -> kw <> ""%string -> ascii_letters kw = true ->
  isword_opt db (head (w ++ rest)) = true.
Proof.
  intros H Hk Hw. pose proof (u_matches_nonempty _ _ H Hk) as Hn.
  destruct (u_all_word_first db w (u_matches_word _ _ H Hw) Hn) as (c & E & Hc).
  now rewrite u_head_app, E.
Qed.

Lemma u_matches_last (kw : string) (w : str) (p : option N) :
  matches kw w -> kw <> ""%string -> ascii_letters kw = true ->
  isword_opt db (last_of p w) = true.
Proof.
  intros H Hk Hw. pose proof (u_matches_nonempty _ _ H Hk) as Hn.
  destruct (u_all_word_last db w p (u_matches_word _ _ H Hw) Hn) as (c & E & Hc).
  now rewrite E.
Qed.

End Database.

End ULetterFacts.

(** * The three patterns of [_run], on code points *)

Module UPatternFacts.

Import UChar UStr Re URe UReading UStrFacts UReFacts ULetterFacts.

Local Open Scope list_scope.

Section Database.

Variable db : ucd.
Hypothesis laws : lawful db.

Lemma u_boundary_before (prev : option N) (s : str) :
  isword_opt db (head s) = true ->
  at_boundary db prev s = negb (isword_opt db prev).
Proof. unfold at_boundary. intros ->. now destruct (isword_opt db prev). Qed.

Lemma u_boundary_after (prev : option N) (s : str) :
  isword_opt db prev = true ->
  at_boundary db prev s = negb (isword_opt db (head s)).
Proof. unfold at_boundary. intros ->. reflexivity. Qed.

Lemma u_m_bnd_accept (ic : bool) (prev : option N) (s : str) :
  m db ic Bnd accept prev s = at_boundary db prev s.
Proof. simpl. apply andb_true_r. Qed.

Lemma u_plus_m_spec (ic : bool) (p : charclass) (k : cont)
    (prev : option N) (s : str) :
  m db ic (Plus p) k prev s = true <->
  exists w rest,
    s = w ++ rest /\ w <> [] /\ all (in_class db p) w = true
    /\ k (last_of prev w) rest = true.
Proof.
  unfold Plus. cbn [m]. destruct s as [|x s].
  - split; [discriminate|]. intros (w & rest & E & N & _).
    destruct w; [congruence | discriminate].
  - rewrite andb_true_iff, u_star_m_spec. split.
    + intros [Hx (w & rest & -> & A & H)].
      exists (x :: w), rest. simpl. rewrite Hx, A.
      repeat split; [discriminate | exact H].
    + intros (w & rest & E & N & A & H). destruct w as [|y w]; [congruence|].
      simpl in E, A. injection E as -> ->. apply andb_prop in A.
      destruct A as [Hx A]. split; [exact Hx|]. now exists w, rest.
Qed.

Section Keywords.

Variable w0 : string.
Variable ws : list string.
Hypothesis letters :
  forall kw, In kw (w0 :: ws) -> kw <> ""%string /\ ascii_letters kw = true.

(** [\b(w0|...)\b] at one position. *)
Lemma u_keywords_at (prev : option N) (s : str) :
  m db true (Seq Bnd (Seq (alternatives w0 ws) Bnd)) accept prev s = true <->
  exists kw w rest,
    In kw (w0 :: ws) /\ s = w ++ rest /\ matches kw w
    /\ isword_opt db prev = false /\ isword_opt db (head rest) = false.
Proof.
  cbn [m]. rewrite andb_true_iff, u_alternatives_m_spec. split.
  - intros [Hb (kw & I & H)]. apply u_word_m_spec in H.
    destruct H as (w & rest & -> & S & K).
    destruct (letters kw I) as [Hn Hw].
    apply (u_same_word_matches kw w Hw) in S.
    rewrite (u_boundary_before _ _ (u_matches_head db laws _ _ rest S Hn Hw)) in Hb.
    rewrite andb_true_r,
      (u_boundary_after _ _ (u_matches_last db laws _ _ prev S Hn Hw)) in K.
    exists kw, w, rest. repeat split; auto.
    + now apply negb_true_iff.
    + now apply negb_true_iff.
  - intros (kw & w & rest & I & -> & S & Hp & Hr).
    destruct (letters kw I) as [Hn Hw]. split.
    + rewrite (u_boundary_before _ _ (u_matches_head db laws _ _ rest S Hn Hw)), Hp.
      reflexivity.
    + exists kw. split; [exact I|]. apply u_word_m_spec.
      exists w, rest. repeat split.
      * now apply u_same_word_matches.
      * rewrite andb_true_r,
          (u_boundary_after _ _ (u_matches_last db laws _ _ prev S Hn Hw)), Hr.
        reflexivity.
Qed.

End Keywords.

Lemma u_write_keywords_letters (kw : string) :
  In kw write_keywords -> kw <> ""%string /\ ascii_letters kw = true.
Proof.
  unfold write_keywords. simpl.
  intros H; repeat (destruct H as [<- | H]; [split; [discriminate | reflexivity]|]).
  destruct H.
Qed.

(** [re.search] with the pattern of write operations finds exactly the
    texts that [re.I] takes for a write keyword and that stand as whole
    words. *)
Lemma u_write_operation_spec (s : str) :
  re_search db SafeSQLTool.write_operation s = true <-> has_pattern_keyword db s.
Proof.
  rewrite u_re_search_spec. unfold match_at, SafeSQLTool.write_operation.
  cbn [body ignorecase]. split.
  - intros (pre & rest & -> & H).
    apply (u_keywords_at _ _ u_write_keywords_letters) in H.
    destruct H as (kw & w & post & I & -> & S & Hp & Hr).
    exists kw. split; [exact I|]. now exists pre, w, post.
  - intros (kw & I & pre & w & post & -> & S & Hp & Hr).
    exists pre, (w ++ post). split; [reflexivity|].
    apply (u_keywords_at _ _ u_write_keywords_letters). now exists kw, w, post.
Qed.

Section Select.

Variable kw : string.
Hypothesis kw_nonempty : kw <> ""%string.
Hypothesis kw_letters : ascii_letters kw = true.

(** [^\s*kw\b] *)
Lemma u_begins_at (s : str) :
  m db true (Seq Bol (Seq (Star Space) (Seq (word kw) Bnd))) accept None s = true <->
  exists ws w post,
    s = ws ++ w ++ post /\ all isspace ws = true /\ matches kw w
    /\ isword_opt db (head post) = false.
Proof.
  change (m db true (Seq Bol (Seq (Star Space) (Seq (word kw) Bnd))) accept None s)
    with (star_m isspace (m db true (word kw) (m db true Bnd accept)) None s).
  rewrite u_star_m_spec. split.
  - intros (ws & rest & -> & A & H). apply u_word_m_spec in H.
    destruct H as (w & post & -> & S & K).
    apply (u_same_word_matches kw w kw_letters) in S.
    rewrite u_m_bnd_accept,
      (u_boundary_after _ _ (u_matches_last db laws _ _ _ S kw_nonempty kw_letters)) in K.
    exists ws, w, post. repeat split; auto. now apply negb_true_iff.
  - intros (ws & w & post & -> & A & S & Hr).
    exists ws, (w ++ post). repeat split; [exact A|]. apply u_word_m_spec.
    exists w, post. repeat split.
    + now apply u_same_word_matches.
    + rewrite u_m_bnd_accept,
        (u_boundary_after _ _ (u_matches_last db laws _ _ _ S kw_nonempty kw_letters)), Hr.
      reflexivity.
Qed.

Lemma u_decimals_last (ds : str) (p : option N) :
  ds <> [] -> all (isdecimal db) ds = true ->
  isword_opt db (last_of p ds) = true.
Proof.
  intros N A.
  assert (W : all (isword db) ds = true).
  { clear N. induction ds as [|c ds IH]; [reflexivity|]. simpl in *.
    apply andb_prop in A. destruct A as [Hc A].
    now rewrite (u_decimal_is_word db laws _ Hc), IH. }
  destruct (u_all_word_last db ds p W N) as (c & -> & Hc). exact Hc.
Qed.

(** [\bkw\s+\d+\b] at one position. *)
Lemma u_number_clause_at (prev : option N) (s : str) :
  m db true (Seq Bnd (Seq (word kw) (Seq (Plus Space) (Seq (Plus Digit) Bnd))))
    accept prev s = true <->
  exists w sp ds rest,
    s = w ++ sp ++ ds ++ rest /\ matches kw w
    /\ sp <> [] /\ all isspace sp = true
    /\ ds <> [] /\ all (isdecimal db) ds = true
    /\ isword_opt db prev = false /\ isword_opt db (head rest) = false.
Proof.
  change (m db true (Seq Bnd (Seq (word kw) (Seq (Plus Space) (Seq (Plus Digit) Bnd))))
            accept prev s)
    with (at_boundary db prev s
          && m db true (word kw)
               (m db true (Plus Space) (m db true (Plus Digit) (m db true Bnd accept)))
               prev s).
  rewrite andb_true_iff, u_word_m_spec. split.
  - intros [Hb (w & r1 & -> & S & H)].
    apply (u_same_word_matches kw w kw_letters) in S.
    apply u_plus_m_spec in H. destruct H as (sp & r2 & -> & Ns & As & H).
    apply u_plus_m_spec in H. destruct H as (ds & rest & -> & Nd & Ad & H).
    rewrite u_m_bnd_accept, (u_boundary_after _ _ (u_decimals_last ds _ Nd Ad)) in H.
    rewrite (u_boundary_before _ _ (u_matches_head db laws _ _ _ S kw_nonempty kw_letters)) in Hb.
    exists w, sp, ds, rest. repeat split; auto; now apply negb_true_iff.
  - intros (w & sp & ds & rest & -> & S & Ns & As & Nd & Ad & Hp & Hr). split.
    + rewrite (u_boundary_before _ _ (u_matches_head db laws _ _ _ S kw_nonempty kw_letters)), Hp.
      reflexivity.
    + exists w, (sp ++ ds ++ rest). repeat split.
      * now apply u_same_word_matches.
      * apply u_plus_m_spec. exists sp, (ds ++ rest). repeat split; auto.
        apply u_plus_m_spec. exists ds, rest. repeat split; auto.
        rewrite u_m_bnd_accept, (u_boundary_after _ _ (u_decimals_last ds _ Nd Ad)), Hr.
        reflexivity.
Qed.

End Select.

(** The pattern reads SELECT as it is read up to case. *)
Lemma u_select_matches (w : str) : matches "select" w <-> spells "SELECT" w.
Proof.
  split; intros H.
  - apply (u_matches_spells "SELECT" w); [reflexivity | reflexivity | exact H].
  - apply (u_spells_matches "SELECT" w); [reflexivity | exact H].
Qed.

(** [re.match] with the SELECT pattern. *)
Lemma u_select_statement_spec (s : str) :
  re_match db SafeSQLTool.select_statement s = true <-> begins_with_select db s.
Proof.
  unfold re_match, match_at, SafeSQLTool.select_statement, begins_with_select.
  cbn [body ignorecase].
  rewrite (u_begins_at "select"); [|discriminate|reflexivity].
  split; intros (ws & w & post & E & A & S & Hr); exists ws, w, post;
    repeat split; auto; now apply u_select_matches.
Qed.

(** [re.search] with the LIMIT pattern. *)
Lemma u_limit_clause_spec (s : str) :
  re_search db SafeSQLTool.limit_clause s = true <-> has_limit db s.
Proof.
  rewrite u_re_search_spec. unfold match_at, SafeSQLTool.limit_clause.
  cbn [body ignorecase]. split.
  - intros (pre & rest & -> & H).
    apply (u_number_clause_at "limit") in H; [|discriminate|reflexivity].
    destruct H as (w & sp & ds & post & -> & S & Ns & As & Nd & Ad & Hp & Hr).
    exists pre, (w ++ sp ++ ds), post. repeat split; auto.
    + now rewrite <- !app_assoc.
    + now exists w, sp, ds.
  - intros (pre & t & post & -> & (w & sp & ds & -> & S & Ns & As & Nd & Ad) & Hp & Hr).
    exists pre, ((w ++ sp ++ ds) ++ post). split; [reflexivity|].
    apply (u_number_clause_at "limit"); [discriminate|reflexivity|].
    exists w, sp, ds, post. repeat split; auto. now rewrite <- !app_assoc.
Qed.

End Database.

End UPatternFacts.

(** * Whole words, white space and concatenation, on code points *)

Module UOccursFacts.

Import UChar UStr Re URe UReading UStrFacts UStripFacts UReFacts.
Import ULetterFacts UPatternFacts.

Local Open Scope list_scope.

Section Database.

Variable db : ucd.
Hypothesis laws : lawful db.

Lemma u_last_after_nonword (c : N) (s : str) :
  isword db c = false ->
  isword_opt db (last_of (Some c) s) = isword_opt db (last_char s).
Proof.
  intros Hc. destruct s as [|d s]; [exact Hc | reflexivity].
Qed.

Lemma u_head_before_nonword (c : N) (s t : str) :
  isword db c = false ->
  isword_opt db (head (s ++ c :: t)) = isword_opt db (head s).
Proof.
  intros Hc. destruct s as [|d s]; [exact Hc | reflexivity].
Qed.

Lemma u_occurs_leading (P : str -> Prop) (c : N) (s : str) :
  token db P -> isword db c = false ->
  (occurs db P (c :: s) <-> occurs db P s).
Proof.
  intros T Hc. split.
  - intros (pre & w & post & E & Pw & Hp & Hr). destruct pre as [|d pre].
    + simpl in E. destruct (T w Pw) as [Hh _].
      destruct w as [|x w]; [discriminate|]. simpl in E, Hh. congruence.
    + simpl in E. injection E as <- ->. exists pre, w, post.
      repeat split; auto. rewrite <- (u_last_after_nonword c pre Hc). exact Hp.
  - intros (pre & w & post & -> & Pw & Hp & Hr).
    exists (c :: pre), w, post. repeat split; auto.
    unfold last_char. simpl. now rewrite (u_last_after_nonword c pre Hc).
Qed.

Lemma u_occurs_trailing (P : str -> Prop) (c : N) (s : str) :
  token db P -> isword db c = false ->
  (occurs db P (s ++ [c]) <-> occurs db P s).
Proof.
  intros T Hc. split.
  - intros (pre & w & post & E & Pw & Hp & Hr).
    destruct (u_snoc_view post) as [-> | (post' & d & ->)].
    + exfalso. rewrite app_nil_r in E. destruct (T w Pw) as [_ Hl].
      destruct (u_snoc_view w) as [-> | (w' & d & ->)]; [discriminate|].
      rewrite app_assoc in E. apply app_inj_tail in E. destruct E as [_ ->].
      unfold last_char in Hl. rewrite u_last_of_snoc in Hl. simpl in Hl. congruence.
    + rewrite !app_assoc in E. apply app_inj_tail in E. destruct E as [-> ->].
      exists pre, w, post'. rewrite <- app_assoc. repeat split; auto.
      rewrite <- (u_head_before_nonword d post' [] Hc). exact Hr.
  - intros (pre & w & post & -> & Pw & Hp & Hr).
    exists pre, w, (post ++ [c]). rewrite <- ?app_assoc.
    repeat split; auto. now rewrite u_head_before_nonword.
Qed.

(** Trimming a string neither adds nor removes a token. *)
Lemma u_occurs_strip (P : str -> Prop) (s : str) :
  token db P -> (occurs db P s <-> occurs db P (strip s)).
Proof.
  intros T. revert s. apply u_strip_invariant; intros c s Hc.
  - apply u_occurs_leading; [exact T | now apply u_space_not_word].
  - apply u_occurs_trailing; [exact T | now apply u_space_not_word].
Qed.

Lemma u_matches_token (kw : string) :
  kw <> ""%string -> ascii_letters kw = true -> token db (matches kw).
Proof.
  intros Hn Hw w S. split.
  - rewrite <- (app_nil_r w). exact (u_matches_head db laws kw w [] S Hn Hw).
  - exact (u_matches_last db laws kw w None S Hn Hw).
Qed.

Lemma u_spells_token (kw : string) :
  kw <> ""%string -> ascii_letters kw = true -> token db (spells kw).
Proof.
  intros Hn Hw w S. apply (u_matches_token kw Hn Hw).
  now apply u_spells_matches.
Qed.

Lemma u_limit_number_token : token db (limit_number db).
Proof.
  intros t (w & sp & ds & -> & S & Ns & As & Nd & Ad). split.
  - apply (u_matches_head db laws "LIMIT" w (sp ++ ds) S);
      [discriminate | reflexivity].
  - unfold last_char. rewrite !u_last_of_app.
    now apply (u_decimals_last db laws).
Qed.

(** A word cannot straddle a character that is not a word character. *)
Lemma u_pattern_word_split (kw : string) (s t : str) (c : N) :
  kw <> ""%string -> ascii_letters kw = true -> isword db c = false ->
  (pattern_word db kw (s ++ c :: t)
   <-> pattern_word db kw s \/ pattern_word db kw t).
Proof.
  intros Hn Hw Hc. split.
  - intros (pre & w & post & E & S & Hp & Hr).
    pose proof (u_matches_word db laws kw w S Hw) as Ww.
    pose proof (u_matches_nonempty kw w S Hn) as Nw.
    destruct (u_app_eq_app _ _ _ _ E) as [k [[-> E2] | [-> E2]]].
    + destruct (u_app_eq_app _ _ _ _ E2) as [j [[-> E3] | [-> E3]]].
      * destruct j as [|d j].
        -- simpl in E3. subst post. left. exists pre, k, [].
           rewrite app_nil_r in S. repeat split; auto.
           now rewrite !app_nil_r.
        -- simpl in E3. injection E3 as <- ->.
           rewrite u_all_app in Ww. simpl in Ww. rewrite Hc in Ww.
           rewrite andb_false_r in Ww. discriminate.
      * left. exists pre, w, j. subst post. rewrite <- ?app_assoc.
        repeat split; auto. now rewrite u_head_before_nonword in Hr.
    + destruct k as [|d k].
      * simpl in E2. exfalso. destruct w as [|x w]; [congruence|].
        simpl in E2, Ww. injection E2 as -> _. rewrite Hc in Ww. discriminate.
      * simpl in E2. injection E2 as <- ->. right. exists k, w, post.
        repeat split; auto. unfold last_char in Hp.
        rewrite u_last_of_app in Hp. simpl in Hp.
        now rewrite u_last_after_nonword in Hp.
  - intros [(pre & w & post & -> & S & Hp & Hr) | (pre & w & post & -> & S & Hp & Hr)].
    + exists pre, w, (post ++ c :: t). rewrite <- ?app_assoc.
      repeat split; auto. now rewrite u_head_before_nonword.
    + exists (s ++ c :: pre), w, post. rewrite <- ?app_assoc. simpl.
      repeat split; auto. unfold last_char. rewrite u_last_of_app. simpl.
      now rewrite u_last_after_nonword.
Qed.



(** *** The dotted capital I

    U+0130 is a word character that no keyword holds up to case: a whole
    word up to case stays one when every U+0130 of the text is replaced
    by a low line. *)







End Database.

End UOccursFacts.

(** * The validation of [_run] on code points, in the words of the
      specification *)

Module USanitizeFacts.

Import UChar UStr Re URe UPy UReading UStrFacts UStripFacts UReFacts.
Import ULetterFacts UPatternFacts UOccursFacts USafeSQLTool.

Local Open Scope list_scope.

Lemma u_eqb_eq (s t : str) : eqb s t = true <-> s = t.
Proof.
  revert t. induction s as [|c s IH]; intros [|d t]; simpl;
    try (split; [discriminate | discriminate]); [tauto|].
  rewrite andb_true_iff, N.eqb_eq, IH.
  split; [intros [-> ->]; reflexivity | intros H; injection H; auto].
Qed.

Lemma u_contains_char (c : N) (s : str) :
  contains [c] s = true <-> has_char c s.
Proof.
  unfold has_char. induction s as [|x s IH]; cbn [contains prefix].
  - split; [discriminate|]. intros (pre & post & E).
    destruct pre; discriminate.
  - rewrite andb_true_r, orb_true_iff, N.eqb_eq, IH. split.
    + intros [-> | (pre & post & ->)].
      * now exists [], s.
      * now exists (x :: pre), post.
    + intros (pre & post & E). destruct pre as [|y pre]; simpl in E.
      * left. congruence.
      * injection E as -> ->. right. now exists pre, post.
Qed.

Lemma u_endswith_char (c : N) (s : str) :
  endswith s [c] = true <-> ends_with_char c s.
Proof.
  unfold ends_with_char. induction s as [|x s IH]; cbn [endswith].
  - split; [discriminate|]. intros (pre & E). destruct pre; discriminate.
  - rewrite orb_true_iff, u_eqb_eq, IH. split.
    + intros [E | (pre & ->)]; [now exists [] | now exists (x :: pre)].
    + intros (pre & E). destruct pre as [|y pre]; simpl in E.
      * now left.
      * injection E as -> ->. right. now exists pre.
Qed.

Section Database.

Variable db : ucd.
Hypothesis laws : lawful db.

(** *** The three checks do not depend on the white space around the input *)

Lemma u_has_pattern_keyword_strip (sql : str) :
  has_pattern_keyword db sql <-> has_pattern_keyword db (strip sql).
Proof.
  unfold has_pattern_keyword, pattern_word.
  split; intros (kw & I & H); exists kw; (split; [exact I|]);
    destruct (u_write_keywords_letters kw I) as [Hn Hw];
    now apply (u_occurs_strip db laws (matches kw) sql
                 (u_matches_token db laws kw Hn Hw)).
Qed.

Lemma u_has_limit_strip (sql : str) :
  has_limit db sql <-> has_limit db (strip sql).
Proof. apply (u_occurs_strip db laws), (u_limit_number_token db laws). Qed.

Lemma u_begins_with_select_strip (sql : str) :
  begins_with_select db sql <-> begins_with_select db (strip sql).
Proof.
  assert (T : token db (spells "SELECT")).
  { apply (u_spells_token db laws); [discriminate | reflexivity]. }
  revert sql. apply u_strip_invariant; intros c s Hc;
    pose proof (u_space_not_word db laws c Hc) as Hw.
  - split.
    + intros (ws & w & post & E & A & S & Hr). destruct ws as [|d ws].
      * exfalso. destruct (T w S) as [Hh _].
        destruct w as [|x w]; [discriminate|]. simpl in E, Hh. congruence.
      * simpl in E, A. injection E as <- ->. apply andb_prop in A.
        exists ws, w, post. tauto.
    + intros (ws & w & post & -> & A & S & Hr).
      exists (c :: ws), w, post. simpl. rewrite Hc, A. auto.
  - split.
    + intros (ws & w & post & E & A & S & Hr).
      destruct (u_snoc_view post) as [-> | (post' & d & ->)].
      * exfalso. rewrite app_nil_r in E. destruct (T w S) as [_ Hl].
        destruct (u_snoc_view w) as [-> | (w' & d & ->)]; [discriminate|].
        rewrite app_assoc in E. apply app_inj_tail in E. destruct E as [_ ->].
        unfold last_char in Hl. rewrite u_last_of_snoc in Hl. simpl in Hl.
        congruence.
      * rewrite !app_assoc in E. apply app_inj_tail in E. destruct E as [-> ->].
        exists ws, w, post'. rewrite <- app_assoc. repeat split; auto.
        rewrite <- (u_head_before_nonword db d post' [] Hw). exact Hr.
    + intros (ws & w & post & -> & A & S & Hr).
      exists ws, w, (post ++ [c]). rewrite <- !app_assoc.
      repeat split; auto. now rewrite u_head_before_nonword.
Qed.

(** *** The guards of [sanitize] *)

Lemma u_write_guard (sql : str) :
  re_search db SafeSQLTool.write_operation (strip sql) = true
  <-> has_pattern_keyword db sql.
Proof.
  now rewrite (u_write_operation_spec db laws), <- u_has_pattern_keyword_strip.
Qed.

Lemma u_chain_guard (sql : str) :
  contains (u ";") (strip sql) && negb (endswith (strip (strip sql)) (u ";")) = true
  <-> open_chain sql.
Proof.
  unfold open_chain. change (u ";") with [semicolon].
  rewrite u_strip_idem, andb_true_iff, negb_true_iff, u_contains_char.
  rewrite <- u_endswith_char, not_true_iff_false. reflexivity.
Qed.

Lemma u_select_guard (sql : str) :
  re_match db SafeSQLTool.select_statement (strip sql) = true
  <-> begins_with_select db sql.
Proof.
  now rewrite (u_select_statement_spec db laws), <- u_begins_with_select_strip.
Qed.

Lemma u_limit_guard (sql : str) :
  re_search db SafeSQLTool.limit_clause (strip sql) = true <-> has_limit db sql.
Proof.
  now rewrite (u_limit_clause_spec db laws), <- u_has_limit_strip.
Qed.


Ltac u_reflect_guard H lem :=
  match type of H with
  | _ = true => apply lem in H
  | _ = false => apply not_true_iff_false in H; rewrite lem in H
  end.

(** The verdict of [sanitize], case by case. *)
Lemma u_sanitize_cases (sql : str) :
  (has_pattern_keyword db sql /\ sanitize db sql = Rejected write_error)
  \/ (~ has_pattern_keyword db sql /\ open_chain sql
      /\ sanitize db sql = Rejected multiple_error)
  \/ (~ has_pattern_keyword db sql /\ ~ open_chain sql
      /\ ~ begins_with_select db sql
      /\ sanitize db sql = Rejected select_error)
  \/ (passes_validation db sql /\ ~ has_limit db sql
      /\ sanitize db sql = Accepted (strip sql ++ u " LIMIT 50"))
  \/ (passes_validation db sql /\ has_limit db sql
      /\ sanitize db sql = Accepted (strip sql)).
Proof.
  unfold sanitize, passes_validation.
  destruct (re_search db SafeSQLTool.write_operation (strip sql)) eqn:W;
    u_reflect_guard W u_write_guard; [now left | right].
  destruct (contains (u ";") (strip sql)
            && negb (endswith (strip (strip sql)) (u ";")))
    eqn:C; u_reflect_guard C u_chain_guard; [now left | right].
  destruct (re_match db SafeSQLTool.select_statement (strip sql)) eqn:S;
    u_reflect_guard S u_select_guard; simpl; [right | now left].
  destruct (re_search db SafeSQLTool.limit_clause (strip sql)) eqn:L;
    u_reflect_guard L u_limit_guard; simpl; [right | left]; tauto.
Qed.

Lemma u_sanitize_accepted (sql : str) :
  passes_validation db sql <-> exists stmt, sanitize db sql = Accepted stmt.
Proof.
  destruct (u_sanitize_cases sql)
    as [[W E] | [(W & C & E) | [(W & C & S & E) | [(P & L & E) | (P & L & E)]]]];
    rewrite E; unfold passes_validation; split;
    try (intros (stmt & D); discriminate); try tauto; eauto.
Qed.

(** *** The appended limit *)


Lemma u_no_pattern_keyword_appended (s : str) :
  ~ has_pattern_keyword db s -> ~ has_pattern_keyword db (s ++ u " LIMIT 50").
Proof.
  intros N (kw & I & H). destruct (u_write_keywords_letters kw I) as [Hn Hw].
  change (u " LIMIT 50") with (32%N :: u "LIMIT 50") in H.
  apply (u_pattern_word_split db laws kw s (u "LIMIT 50") 32%N Hn Hw) in H;
    [|reflexivity].
  destruct H as [H | H].
  - apply N. now exists kw.
  - assert (K : has_pattern_keyword db (u "LIMIT 50")) by now exists kw.
    apply (u_write_operation_spec db laws) in K. discriminate.
Qed.


Lemma u_strip_appended (s : str) :
  s <> [] -> strip s = s -> strip (s ++ u " LIMIT 50") = s ++ u " LIMIT 50".
Proof.
  intros N F. unfold strip.
  pose proof (u_rstrip_first _ (u_lstrip_first s)) as H.
  fold (strip s) in H. rewrite F in H.
  destruct s as [|c s]; [congruence|].
  rewrite (u_lstrip_fixed ((c :: s) ++ u " LIMIT 50") H).
  rewrite u_rstrip_app; [reflexivity | discriminate].
Qed.

Lemma u_has_char_app (c : N) (a b : str) :
  has_char c (a ++ b) -> has_char c a \/ has_char c b.
Proof.
  intros (pre & post & E).
  destruct (u_app_eq_app _ _ _ _ E) as [k [[-> E2] | [-> E2]]].
  - destruct k as [|d k].
    + simpl in E2. subst b. right. now exists [], post.
    + simpl in E2. injection E2 as <- ->. left. now exists pre, k.
  - right. now exists k, post.
Qed.

Lemma u_begins_with_select_nonempty (s : str) :
  begins_with_select db s -> s <> [].
Proof.
  intros (ws & w & post & -> & _ & S & _) E.
  apply app_eq_nil in E. destruct E as [_ E].
  apply app_eq_nil in E. destruct E as [-> _]. discriminate.
Qed.

End Database.

End USanitizeFacts.

(** * [SafeSQLTool._run] on any [str]: keywords, SELECT and LIMIT *)

Module URunClaims.

Import UChar UStr Re URe UPy UReading UStrFacts UStripFacts UReFacts.
Import ULetterFacts UPatternFacts UOccursFacts USanitizeFacts.
Import USafeSQLTool USample.

Local Open Scope list_scope.

Lemma sample_lawful : lawful sample_ucd.
Proof.
  split; simpl.
  - unfold sample_alnum, sample_decimal. intros x ->.
    now rewrite orb_true_r.
  - unfold wide_space, sample_alnum, between. intros x H.
    repeat (match goal with
            | H : context [N.eqb ?a ?b] |- _ => destruct (N.eqb_spec a b)
            | H : context [N.leb ?a ?b] |- _ => destruct (N.leb_spec a b)
            | |- context [N.eqb ?a ?b] => destruct (N.eqb_spec a b)
            | |- context [N.leb ?a ?b] => destruct (N.leb_spec a b)
            end;
            simpl in *; try discriminate; try lia).
  - unfold wide_letters. simpl.
    intros x [<- | [<- | [<- | [<- | []]]]]; reflexivity.
Qed.

Section Contract.

Variable db : ucd.
Hypothesis laws : lawful db.

Variable cell : Type.
Variable repr_cell : cell -> str.
Variable repr_str : str -> str.
Variable e : engine cell.

Local Abbreviation run := (_run db repr_cell repr_str e).

Lemma u_run_rejected (sql msg : str) :
  sanitize db sql = Rejected msg -> run sql = ([], Return msg).
Proof. unfold _run. now intros ->. Qed.

Lemma u_run_accepted (sql stmt : str) :
  sanitize db sql = Accepted stmt ->
  run sql
  = ([SqlExecuted stmt],
     Return
       match e stmt with
       | Raise msg => u "ERROR: " ++ msg
       | Return rs =>
           match rows rs with
           | [] => no_results
           | _ :: _ =>
               u "SUCCESS: "
               ++ str_result_data repr_cell repr_str
                    (ResultData (columns rs) (rows rs) (List.length (rows rs)))
           end
       end).
Proof.
  unfold _run, run_sql, call. intros ->.
  destruct (e stmt) as [rs | msg]; simpl; [|reflexivity].
  now destruct (rows rs).
Qed.







(** X2: The engine is called exactly when the input passes the three checks,
    and then with one statement; a rejected input leaves no trace. *)
Theorem run_executes_when_valid (sql : str) :
  (passes_validation db sql <-> exists stmt, trace (run sql) = [SqlExecuted stmt])
  /\ (~ passes_validation db sql <-> trace (run sql) = []).
Proof.
  destruct (sanitize db sql) as [msg | stmt] eqn:E.
  - assert (N : ~ passes_validation db sql).
    { intros P. apply (u_sanitize_accepted db laws) in P.
      destruct P as (stmt & P). congruence. }
    rewrite (u_run_rejected _ _ E). simpl. split; split;
      try tauto; intros (stmt & H); discriminate.
  - assert (P : passes_validation db sql)
      by (apply (u_sanitize_accepted db laws); eauto).
    rewrite (u_run_accepted _ _ E). simpl. split; split;
      try tauto; try discriminate; eauto.
Qed.

(** X3: The multiple-statements error is returned exactly for an input without
    write keyword whose trimmed text holds a semicolon and does not end
    with one; the SELECT-only error exactly for an input that passes these
    two checks and does not begin with the keyword SELECT. *)
Theorem run_error_conditions (sql : str) :
  (run sql = ([], Return multiple_error)
   <-> ~ has_pattern_keyword db sql /\ open_chain sql)
  /\ (run sql = ([], Return select_error)
      <-> ~ has_pattern_keyword db sql /\ ~ open_chain sql
          /\ ~ begins_with_select db sql).
Proof.
  destruct (u_sanitize_cases db laws sql)
    as [[W E] | [(W & C & E) | [(W & C & S & E) | [(P & _ & E) | (P & _ & E)]]]];
    try (destruct P as (W & C & S));
    try rewrite (u_run_rejected _ _ E);
    try rewrite (u_run_accepted _ _ E);
    split; split; try tauto; try discriminate.
Qed.

(** X4: An accepted input whose trimmed text ends with a semicolon and has no
    LIMIT with a number is executed as a text that the validation of
    [_run] itself rejects as multiple statements. *)
Theorem run_trailing_semicolon (sql : str) :
  passes_validation db sql -> ~ has_limit db sql ->
  ends_with_char semicolon (strip sql) ->
  executed (trace (run sql)) = [strip sql ++ u " LIMIT 50"]
  /\ sanitize db (strip sql ++ u " LIMIT 50") = Rejected multiple_error.
Proof.
  intros P L T.
  split.
  { destruct (u_sanitize_cases db laws sql)
      as [[W _] | [(_ & C & _) | [(_ & _ & S & _) | [(_ & _ & E) | (_ & L' & _)]]]];
      try (destruct P as (? & ? & ?); contradiction); try contradiction.
    now rewrite (u_run_accepted _ _ E). }
  destruct P as (W & C & S).
  rewrite (u_has_pattern_keyword_strip db laws) in W.
  rewrite (u_begins_with_select_strip db laws) in S.
  assert (F : strip (strip sql ++ u " LIMIT 50") = strip sql ++ u " LIMIT 50").
  { apply u_strip_appended; [now apply (u_begins_with_select_nonempty db)|].
    apply u_strip_idem. }
  assert (O : open_chain (strip sql ++ u " LIMIT 50")).
  { unfold open_chain. rewrite F. split.
    - destruct T as (pre & ->). exists pre, (u " LIMIT 50").
      now rewrite <- app_assoc.
    - intros (pre & K).
      change (u " LIMIT 50") with (u " LIMIT 5" ++ [48%N]) in K.
      rewrite app_assoc in K. apply app_inj_tail in K. destruct K as [_ K].
      discriminate. }
  destruct (u_sanitize_cases db laws (strip sql ++ u " LIMIT 50"))
    as [[W' _] | [(_ & _ & E) | [(_ & C' & _) | [(P' & _) | (P' & _)]]]];
    try (destruct P' as (_ & C' & _)); try tauto.
  exfalso. now apply (u_no_pattern_keyword_appended db laws (strip sql)).
Qed.

End Contract.

(** *** The contract on the sample world *)

Local Abbreviation sample_run := (_run sample_ucd repr_int repr_plain sample_engine).








(** X2, witness. *)
Lemma run_executes_when_valid_witness :
  lawful sample_ucd
  /\ (passes_validation sample_ucd (u "SELECT id FROM customers")
      <-> exists stmt,
            trace (sample_run (u "SELECT id FROM customers")) = [SqlExecuted stmt]).
Proof.
  split; [exact sample_lawful|].
  exact (proj1 (run_executes_when_valid sample_ucd sample_lawful Z
                  repr_int repr_plain sample_engine _)).
Defined.

(** X3, witness. *)
Lemma run_error_conditions_witness :
  lawful sample_ucd
  /\ (sample_run (u "SELECT 1; SELECT 2") = ([], Return multiple_error)
      <-> ~ has_pattern_keyword sample_ucd (u "SELECT 1; SELECT 2")
          /\ open_chain (u "SELECT 1; SELECT 2")).
Proof.
  split; [exact sample_lawful|].
  exact (proj1 (run_error_conditions sample_ucd sample_lawful Z
                  repr_int repr_plain sample_engine _)).
Defined.

(** X4, witness: a statement closed with a semicolon. *)
Lemma run_trailing_semicolon_witness :
  lawful sample_ucd
  /\ passes_validation sample_ucd (u "SELECT id FROM customers;")
  /\ ~ has_limit sample_ucd (u "SELECT id FROM customers;")
  /\ ends_with_char semicolon (strip (u "SELECT id FROM customers;"))
  /\ executed (trace (sample_run (u "SELECT id FROM customers;")))
     = [u "SELECT id FROM customers; LIMIT 50"]
  /\ sanitize sample_ucd (u "SELECT id FROM customers; LIMIT 50")
     = Rejected multiple_error.
Proof.
  assert (P : passes_validation sample_ucd (u "SELECT id FROM customers;"))
    by (apply (u_sanitize_accepted sample_ucd sample_lawful); eexists;
        reflexivity).
  assert (L : ~ has_limit sample_ucd (u "SELECT id FROM customers;"))
    by (intros H; apply (u_limit_guard sample_ucd sample_lawful) in H;
        discriminate H).
  assert (T : ends_with_char semicolon (strip (u "SELECT id FROM customers;")))
    by (now exists (u "SELECT id FROM customers")).
  split; [exact sample_lawful | split; [exact P | split; [exact L | split; [exact T|]]]].
  exact (run_trailing_semicolon sample_ucd sample_lawful Z
           repr_int repr_plain sample_engine _ P L T).
Defined.

End URunClaims.

(** * The two models of the validation agree on the code points 0..255 *)

Module Agreement.

Import UChar UStr URe UStrFacts.

Local Open Scope list_scope.

Lemma u_cons (c : ascii) (s : string) : u (String c s) = N_of_ascii c :: u s.
Proof. reflexivity. Qed.

Lemma u_code_eqb (c d : ascii) :
  (N_of_ascii c =? N_of_ascii d)%N = Ascii.eqb c d.
Proof.
  destruct (Ascii.eqb_spec c d) as [-> | N].
  - apply N.eqb_refl.
  - apply N.eqb_neq. intros E. apply N.
    apply (f_equal ascii_of_N) in E. now rewrite !ascii_N_embedding in E.
Qed.

Lemma u_is_empty (s : string) : is_empty (u s) = PyStr.is_empty s.
Proof. now destruct s. Qed.

Lemma u_lstrip (s : string) : lstrip (u s) = u (PyStr.lstrip s).
Proof.
  induction s as [|c s IH]; [reflexivity|].
  rewrite u_cons. simpl. rewrite u_isspace_narrow.
  destruct (PyChar.isspace c); [exact IH | reflexivity].
Qed.

Lemma u_rstrip (s : string) : rstrip (u s) = u (PyStr.rstrip s).
Proof.
  induction s as [|c s IH]; [reflexivity|].
  rewrite u_cons. simpl. rewrite u_isspace_narrow, IH, u_is_empty.
  now destruct (PyChar.isspace c && PyStr.is_empty (PyStr.rstrip s)).
Qed.

Lemma u_strip (s : string) : strip (u s) = u (PyStr.strip s).
Proof. unfold strip, PyStr.strip. now rewrite u_lstrip, u_rstrip. Qed.

Lemma u_eqb (s t : string) : eqb (u s) (u t) = String.eqb s t.
Proof.
  revert t. induction s as [|c s IH]; intros [|d t]; try reflexivity.
  rewrite !u_cons. simpl. now rewrite u_code_eqb, IH.
Qed.

Lemma u_prefix (p s : string) : prefix (u p) (u s) = String.prefix p s.
Proof.
  revert s. induction p as [|c p IH]; intros [|d s]; try reflexivity.
  rewrite !u_cons. simpl. rewrite u_code_eqb, IH.
  destruct (ascii_dec c d) as [E | E].
  - apply Ascii.eqb_eq in E. now rewrite E.
  - apply Ascii.eqb_neq in E. now rewrite E.
Qed.

Lemma u_contains (sub s : string) :
  contains (u sub) (u s) = PyStr.contains sub s.
Proof.
  induction s as [|c s IH].
  - cbn [PyStr.contains]. change (u "") with (@nil N). cbn [contains].
    f_equal. exact (u_prefix sub "").
  - rewrite u_cons. cbn [contains PyStr.contains]. rewrite <- IH.
    f_equal. exact (u_prefix sub (String c s)).
Qed.

Lemma u_endswith (s p : string) :
  endswith (u s) (u p) = PyStr.endswith s p.
Proof.
  induction s as [|c s IH].
  - cbn [PyStr.endswith]. change (u "") with (@nil N). cbn [endswith].
    f_equal. exact (u_eqb "" p).
  - rewrite u_cons. cbn [endswith PyStr.endswith]. rewrite <- IH.
    f_equal. exact (u_eqb (String c s) p).
Qed.

Section Database.

Variable db : ucd.

Lemma u_lit_eq (ic : bool) (c x : ascii) :
  lit_eq ic c (N_of_ascii x) = PyChar.lit_eq ic c x.
Proof. unfold lit_eq. now rewrite u_narrow_code, ascii_N_embedding. Qed.

Lemma u_in_class (p : Re.charclass) (x : ascii) :
  URe.in_class db p (N_of_ascii x) = Re.in_class p x.
Proof.
  destruct p; simpl; [apply u_isspace_narrow | apply u_isdecimal_narrow].
Qed.

Lemma u_isword_opt (prev : option ascii) :
  URe.isword_opt db (up prev) = Re.isword_opt prev.
Proof. destruct prev as [x|]; [apply u_isword_narrow | reflexivity]. Qed.

Lemma u_head (s : string) : URe.head (u s) = up (Re.head s).
Proof. now destruct s. Qed.

Lemma u_at_boundary (prev : option ascii) (s : string) :
  URe.at_boundary db (up prev) (u s) = Re.at_boundary prev s.
Proof.
  unfold URe.at_boundary, Re.at_boundary.
  now rewrite u_head, !u_isword_opt.
Qed.

Lemma u_star_m (p : Re.charclass) (wk : cont) (k : Re.cont) :
  same_cont wk k ->
  same_cont (URe.star_m (URe.in_class db p) wk) (Re.star_m (Re.in_class p) k).
Proof.
  intros K prev s. revert prev.
  induction s as [|x s IH]; intros prev.
  - exact (K prev "").
  - rewrite u_cons. simpl. rewrite u_in_class.
    change (Some (N_of_ascii x)) with (up (Some x)). rewrite (IH (Some x)).
    f_equal. exact (K prev (String x s)).
Qed.

Lemma u_m (ic : bool) (r : Re.regex) (wk : cont) (k : Re.cont) :
  same_cont wk k -> same_cont (URe.m db ic r wk) (Re.m ic r k).
Proof.
  revert wk k.
  induction r as [| c | p | | | a IHa b IHb | a IHa b IHb | p];
    intros wk k K prev s; simpl.
  - apply K.
  - destruct s as [|x s]; [reflexivity|]. rewrite u_cons, u_lit_eq.
    f_equal. exact (K (Some x) s).
  - destruct s as [|x s]; [reflexivity|]. rewrite u_cons, u_in_class.
    f_equal. exact (K (Some x) s).
  - now rewrite u_at_boundary, K.
  - rewrite K. now destruct prev.
  - apply IHa. now apply IHb.
  - now rewrite (IHa wk k K), (IHb wk k K).
  - now apply u_star_m.
Qed.

Lemma u_match_at (p : Re.pattern) (prev : option ascii) (s : string) :
  URe.match_at db p (up prev) (u s) = Re.match_at p prev s.
Proof.
  unfold URe.match_at, Re.match_at. apply u_m. intros ? ?. reflexivity.
Qed.

Lemma u_re_match (p : Re.pattern) (s : string) :
  URe.re_match db p (u s) = Re.re_match p s.
Proof. exact (u_match_at p None s). Qed.

Lemma u_search_from (p : Re.pattern) (prev : option ascii) (s : string) :
  URe.search_from db p (up prev) (u s) = Re.search_from p prev s.
Proof.
  revert prev. induction s as [|c s IH]; intros prev.
  - simpl. f_equal. exact (u_match_at p prev "").
  - rewrite u_cons. simpl.
    change (Some (N_of_ascii c)) with (up (Some c)). rewrite (IH (Some c)).
    f_equal. exact (u_match_at p prev (String c s)).
Qed.

Lemma u_re_search (p : Re.pattern) (s : string) :
  URe.re_search db p (u s) = Re.re_search p s.
Proof. exact (u_search_from p None s). Qed.

(** On a text of code points 0..255 the validation on code points gives
    the verdict of the validation on the 8-bit alphabet, whatever the
    database says of the other code points. *)
Theorem sanitize_agrees (sql : string) :
  USafeSQLTool.sanitize db (u sql)
  = match SafeSQLTool.sanitize sql with
    | SafeSQLTool.Rejected msg => USafeSQLTool.Rejected (u msg)
    | SafeSQLTool.Accepted stmt => USafeSQLTool.Accepted (u stmt)
    end.
Proof.
  unfold USafeSQLTool.sanitize, SafeSQLTool.sanitize.
  rewrite !u_strip, !u_re_search, u_re_match, u_contains, u_endswith.
  destruct (Re.re_search SafeSQLTool.write_operation (PyStr.strip sql));
    [reflexivity|].
  destruct (PyStr.contains ";" (PyStr.strip sql)
            && negb (PyStr.endswith (PyStr.strip (PyStr.strip sql)) ";"));
    [reflexivity|].
  destruct (Re.re_match SafeSQLTool.select_statement (PyStr.strip sql));
    [|reflexivity]. simpl.
  destruct (Re.re_search SafeSQLTool.limit_clause (PyStr.strip sql)); simpl;
    [reflexivity|].
  now rewrite u_app.
Qed.

End Database.

End Agreement.


(** * [/api/query]: every path of the handler *)

Module EndpointExtras.

Import PyChar PyStr Py StrFacts StripFacts Reading SanitizeFacts Sample.
Import Vocabulary EndpointClaims.

Section Paths.

Variable cell : Type.
Variable repr_str : string -> string.
Variable e : env cell.

Local Abbreviation handle := (query_agent repr_str e).

(** What one answer of the fallback does. *)
Lemma fallback_response_shape (f : fallback) :
  exists l s m d,
    fallback_response cell e f = (l, Return (Answer s m d, 200))
    /\ ((l = [] /\ s = false /\ m = quota_message /\ d = NoData)
        \/ exists stmt,
             In stmt fixed_statements /\ l = [SqlExecuted stmt]
             /\ match exec_driver_sql e stmt with
                | Return rs =>
                    s = true
                    /\ d = Table (columns rs) (rows rs) (List.length (rows rs))
                | Raise msg =>
                    s = false /\ m = "Database error: " ++ msg /\ d = NoData
                end).
Proof.
  destruct f; unfold fallback_response, get_customers_data, get_products_data,
    get_orders_data, get_revenue_data, get_data, run_sql, call; simpl;
    try (match goal with
         | |- context [exec_driver_sql e ?stmt] =>
             destruct (exec_driver_sql e stmt) as [rs | msg] eqn:X; simpl;
             do 4 eexists; (split; [reflexivity|]); right; exists stmt;
             (split; [simpl; tauto|]); (split; [reflexivity|]);
             rewrite X; auto
         end).
  do 4 eexists. split; [reflexivity|]. left. auto.
Qed.

(** X12: The fallback never raises and never answers with an error status,
    also when the database fails; it runs at most one statement, one of
    the four fixed ones; a table it returns carries a row count that is
    the number of its rows, and a database failure is reported with
    success false and no data. *)
Theorem handle_quota_exceeded_answers (q : string) :
  exists l s m d,
    handle_quota_exceeded e q = (l, Return (Answer s m d, 200))
    /\ ((l = [] /\ s = false /\ m = quota_message /\ d = NoData)
        \/ exists stmt,
             In stmt fixed_statements /\ l = [SqlExecuted stmt]
             /\ match exec_driver_sql e stmt with
                | Return rs =>
                    s = true
                    /\ d = Table (columns rs) (rows rs) (List.length (rows rs))
                | Raise msg =>
                    s = false /\ m = "Database error: " ++ msg /\ d = NoData
                end).
Proof.
  destruct (handle_quota_exceeded_routes cell e q) as (f & _ & ->).
  apply fallback_response_shape.
Qed.

(** The five ways a request can go. *)
Lemma query_agent_cases (request : outcome value) :
  (exists m, handle request = ([], Return (Error ("Server error: " ++ m), 500)))
  \/ handle request = ([], Return (Error "No query provided", 400))
  \/ exists fields q,
       request = Return (VDict fields)
       /\ lookup "query" fields = Some (VStr q) /\ strip q <> ""
       /\ handle request = answer_query cell repr_str e (strip q).
Proof.
  destruct request as [data | m]; [|left; eexists; reflexivity].
  destruct data as [| b | z | r | s | l | fields];
    try (left; eexists; reflexivity).
  destruct (lookup "query" fields) as [v|] eqn:L.
  - destruct v as [| b | z | r | q | l | d];
      try (left; eexists; unfold query_agent; simpl; rewrite L; reflexivity).
    destruct (string_dec (strip q) "") as [U | U].
    + right. left. apply query_agent_blank. eauto.
    + right. right. exists fields, q. repeat split; auto.
      now apply query_agent_answers.
  - right. left. apply query_agent_blank. auto.
Qed.

Lemma answer_query_shape (uq : string) :
  exists l b st,
    answer_query cell repr_str e uq = (l, Return (b, st))
    /\ ((st = 200 /\ exists s m d, b = Answer s m d)
        \/ (st = 500 /\ exists m, b = Error m))
    /\ (executed l = []
        \/ exists stmt, In stmt fixed_statements /\ executed l = [stmt])
    /\ (invoked l = [] /\ get_sql_agent e = None
        \/ invoked l = [uq] /\ get_sql_agent e <> None).
Proof.
  unfold answer_query.
  destruct (get_sql_agent e) as [invoke|].
  - destruct (invoke uq) as [out | msg].
    + destruct (startswith out "SUCCESS: ");
        [destruct (structured e (drop 9 out)) as [[sd n]|]|];
        (do 3 eexists; split; [unfold jsonify; reflexivity|];
         split; [left; split; [reflexivity | eauto]|];
         split; [now left | right; split; [reflexivity | discriminate]]).
    + destruct (is_quota_error msg).
      * destruct (handle_quota_exceeded_routes cell e uq) as (f & _ & ->).
        destruct (fallback_response_shape f) as (l & s & m & d & -> & H).
        unfold after. simpl. do 3 eexists. split; [reflexivity|].
        split; [left; eauto|]. split.
        -- destruct H as [(-> & _) | (stmt & I & -> & _)]; [now left|].
           right. exists stmt. auto.
        -- right. split; [|discriminate].
           destruct H as [(-> & _) | (stmt & _ & -> & _)]; reflexivity.
      * do 3 eexists. split; [reflexivity|]. split; [right; eauto|].
        split; [now left|]. right. split; [reflexivity | discriminate].
  - do 3 eexists. split; [reflexivity|]. split; [right; eauto|].
    split; [now left|]. left. auto.
Qed.

(** X7: The handler never raises: every request gets a response, with status
    200 and the success/message/data shape, or with status 400 and the
    error "No query provided", or with status 500 and an error. *)
Theorem query_agent_responds (request : outcome value) :
  exists l b st,
    handle request = (l, Return (b, st))
    /\ ((st = 200 /\ exists s m d, b = Answer s m d)
        \/ (st = 400 /\ b = Error "No query provided" /\ l = [])
        \/ (st = 500 /\ exists m, b = Error m)).
Proof.
  destruct (query_agent_cases request)
    as [(m & ->) | [-> | (fields & q & _ & _ & _ & ->)]].
  - do 3 eexists. split; [reflexivity|]. right. right. eauto.
  - do 3 eexists. split; [reflexivity|]. right. left. auto.
  - destruct (answer_query_shape (strip q)) as (l & b & st & -> & H & _).
    exists l, b, st. split; [reflexivity|]. tauto.
Qed.

(** X8: A body that [request.get_json()] cannot give, that is not an object,
    or whose "query" is not a string is answered with status 500 and the
    message of the exception; nothing is called. *)
Theorem query_agent_malformed_body (request : outcome value) :
  (forall m, request = Raise m ->
     handle request = ([], Return (Error ("Server error: " ++ m), 500)))
  /\ (forall data, request = Return data ->
        (forall fields, data <> VDict fields) ->
        handle request
        = ([], Return
                 (Error ("Server error: '" ++ type_name data
                         ++ "' object has no attribute 'get'"), 500)))
  /\ (forall fields v, request = Return (VDict fields) ->
        lookup "query" fields = Some v -> (forall q, v <> VStr q) ->
        handle request
        = ([], Return
                 (Error ("Server error: '" ++ type_name v
                         ++ "' object has no attribute 'strip'"), 500))).
Proof.
  split; [|split].
  - intros m ->. reflexivity.
  - intros data -> N. destruct data; try reflexivity. now elim (N l).
  - intros fields v -> L N. unfold query_agent. simpl. rewrite L.
    destruct v; try reflexivity. now elim (N s).
Qed.

(** X9: The agent is invoked at most once, with the trimmed query, and only
    for an object body whose query is a string that is not blank, when the
    agent could be built. *)
Theorem query_agent_invokes_once (request : outcome value) :
  (forall fields q,
      request = Return (VDict fields) ->
      lookup "query" fields = Some (VStr q) -> strip q <> "" ->
      get_sql_agent e <> None ->
      invoked (trace (handle request)) = [strip q])
  /\ (invoked (trace (handle request)) <> [] ->
      exists fields q,
        request = Return (VDict fields)
        /\ lookup "query" fields = Some (VStr q) /\ strip q <> ""
        /\ get_sql_agent e <> None
        /\ invoked (trace (handle request)) = [strip q]).
Proof.
  split.
  - intros fields q -> L U A. rewrite (query_agent_answers _ _ _ _ _ L U).
    destruct (answer_query_shape (strip q)) as (l & b & st & -> & _ & _ & H).
    simpl. destruct H as [[_ H] | [H _]]; [contradiction | exact H].
  - destruct (query_agent_cases request)
      as [(m & ->) | [-> | (fields & q & -> & L & U & ->)]];
      try (intros H; now elim H).
    destruct (answer_query_shape (strip q)) as (l & b & st & -> & _ & _ & H).
    simpl. destruct H as [[-> _] | [H A]]; [intros H; now elim H|].
    intros _. exists fields, q. auto.
Qed.

(** X10: The handler itself sends at most one statement to the database, and
    only one of the four fixed statements of the fallback: no text of the
    request reaches the database through it. *)
Theorem query_agent_fixed_statements (request : outcome value) :
  executed (trace (handle request)) = []
  \/ exists stmt,
       In stmt fixed_statements
       /\ executed (trace (handle request)) = [stmt].
Proof.
  destruct (query_agent_cases request)
    as [(m & ->) | [-> | (fields & q & _ & _ & _ & ->)]];
    try (now left).
  destruct (answer_query_shape (strip q)) as (l & b & st & -> & _ & H & _).
  exact H.
Qed.

(** X11: When the agent answers, the response has status 200; it is a success
    exactly when the answer starts with "SUCCESS: "; it carries data only
    when the rest of the answer parses as JSON with a "row_count" entry,
    and otherwise the message is the answer as it is. *)
Theorem query_agent_reports_output
    (fields : list (string * value)) (q out : string)
    (invoke : string -> outcome string) :
  lookup "query" fields = Some (VStr q) -> strip q <> "" ->
  get_sql_agent e = Some invoke -> invoke (strip q) = Return out ->
  exists m d,
    handle (Return (VDict fields))
    = ([AgentCreated; AgentInvoked (strip q)],
       Return (Answer (startswith out "SUCCESS: ") m d, 200))
    /\ ((exists sd n,
           startswith out "SUCCESS: " = true
           /\ json_loads e (drop 9 out) = Return sd
           /\ value_getitem sd "row_count" = Some n
           /\ d = Parsed sd
           /\ m = "Query executed successfully. Found "
                  ++ str repr_str n ++ " rows.")
        \/ (d = NoData /\ m = out)).
Proof.
  intros L U A I. rewrite (query_agent_answers _ _ _ _ _ L U).
  unfold answer_query. rewrite A, I.
  assert (Plain : forall s,
             exists m d,
               ([AgentCreated; AgentInvoked (strip q)],
                Return (jsonify (Answer s out (@NoData cell))))
               = ([AgentCreated; AgentInvoked (strip q)],
                  Return (Answer s m d, 200))
               /\ ((exists sd n,
                      s = true
                      /\ json_loads e (drop 9 out) = Return sd
                      /\ value_getitem sd "row_count" = Some n
                      /\ d = Parsed sd
                      /\ m = "Query executed successfully. Found "
                             ++ str repr_str n ++ " rows.")
                   \/ (d = NoData /\ m = out))).
  { intros s. exists out, NoData. split; [reflexivity | right; auto]. }
  destruct (startswith out "SUCCESS: ") eqn:S; [|apply Plain].
  unfold structured.
  destruct (json_loads e (drop 9 out)) as [sd | msg] eqn:J; [|apply Plain].
  destruct (value_getitem sd "row_count") as [n|] eqn:G; [|apply Plain].
  do 2 eexists. split; [reflexivity|]. left. exists sd, n. auto.
Qed.

End Paths.

Local Abbreviation answering q :=
  (query_agent repr_plain answering_env (Return (VDict [("query", VStr q)]))).

(** X8, witness: a query that is not a string. *)
Lemma query_agent_malformed_body_witness :
  query_agent repr_plain sample_env (Return (VDict [("query", VInt 7)]))
  = ([], Return
           (Error "Server error: 'int' object has no attribute 'strip'", 500)).
Proof.
  refine (proj2 (proj2 (query_agent_malformed_body Z repr_plain sample_env _))
            [("query", VInt 7)] (VInt 7) eq_refl eq_refl _).
  discriminate.
Defined.

(** X9, witness: one invocation, with the trimmed query. *)
Lemma query_agent_invokes_once_witness :
  invoked (trace (answering "  how many?  ")) = ["how many?"].
Proof.
  refine (proj1 (query_agent_invokes_once Z repr_plain answering_env _)
            [("query", VStr "  how many?  ")] "  how many?  "
            eq_refl eq_refl _ _); discriminate.
Defined.

(** X11, witness: a structured answer is parsed and counted. *)
Lemma query_agent_reports_output_witness :
  exists m d,
    answering "count"
    = ([AgentCreated; AgentInvoked "count"], Return (Answer true m d, 200))
    /\ ((exists sd n,
           true = true
           /\ json_loads answering_env (drop 9 ("SUCCESS: " ++ counted))
              = Return sd
           /\ value_getitem sd "row_count" = Some n
           /\ d = Parsed sd
           /\ m = "Query executed successfully. Found "
                  ++ str repr_plain n ++ " rows.")
        \/ (d = NoData /\ m = "SUCCESS: " ++ counted)).
Proof.
  refine (query_agent_reports_output Z repr_plain answering_env
            [("query", VStr "count")] "count"
            ("SUCCESS: " ++ counted) answering_agent
            eq_refl _ eq_refl eq_refl).
  discriminate.
Defined.

End EndpointExtras.

(** * [/api/schema]: what the handler asks and what it answers *)

Module SchemaExtras.

Import PyStr Py SchemaEndpoint.

Section Handler.

Variable cell : Type.
Variable ops : cell_ops cell.
Variable e : env cell.

Local Abbreviation info := (fun t => SqlExecuted (table_info_sql ops t)).

Lemma describe_cons (t : cell) (ts : list cell) (d : schema_dict cell) :
  describe ops e (t :: ts) d
  = match exec_driver_sql e (table_info_sql ops t) with
    | Raise m => ([info t], Raise m)
    | Return rs =>
        match comprehension (column_of ops) (rows rs) with
        | Raise m => ([info t], Raise m)
        | Return cols =>
            (info t :: trace (describe ops e ts (dict_set ops t cols d)),
             result (describe ops e ts (dict_set ops t cols d)))
        end
    end.
Proof.
  cbn [describe]. unfold run_sql, call, lift, bind.
  destruct (exec_driver_sql e (table_info_sql ops t)) as [rs | m];
    [|reflexivity].
  destruct (comprehension (column_of ops) (rows rs)) as [cols | m];
    [|reflexivity].
  simpl. now destruct (describe ops e ts (dict_set ops t cols d)).
Qed.


Lemma get_schema_unfold :
  get_schema ops e
  = match exec_driver_sql e tables_sql with
    | Raise m =>
        ([SqlExecuted tables_sql],
         Return (SchemaError ("Failed to get schema: " ++ m), 500))
    | Return rs =>
        match comprehension (fun row => item row 0) (rows rs) with
        | Raise m =>
            ([SqlExecuted tables_sql],
             Return (SchemaError ("Failed to get schema: " ++ m), 500))
        | Return ts =>
            (SqlExecuted tables_sql :: trace (describe ops e ts []),
             match result (describe ops e ts []) with
             | Return s => Return (SchemaInfo s, 200)
             | Raise m =>
                 Return (SchemaError ("Failed to get schema: " ++ m), 500)
             end)
        end
    end.
Proof.
  unfold get_schema, run_sql, call, lift, bind, try_except, ret.
  destruct (exec_driver_sql e tables_sql) as [rs | m]; [|reflexivity].
  destruct (comprehension (fun row => item row 0) (rows rs)) as [ts | m];
    [|reflexivity].
  simpl. destruct (describe ops e ts []) as [l [s | m]]; simpl;
    now rewrite ?app_nil_r.
Qed.

(** X13: The handler never raises: it answers with status 200 and the schema,
    or with status 500 and an error that starts with "Failed to get
    schema: ". *)
Theorem get_schema_responds :
  exists l b st,
    get_schema ops e = (l, Return (b, st))
    /\ ((st = 200 /\ exists s, b = SchemaInfo s)
        \/ (st = 500
            /\ exists m, b = SchemaError ("Failed to get schema: " ++ m))).
Proof.
  rewrite get_schema_unfold.
  destruct (exec_driver_sql e tables_sql) as [rs | m].
  - destruct (comprehension (fun row => item row 0) (rows rs)) as [ts | m].
    + destruct (result (describe ops e ts [])) as [s | m];
        do 3 eexists; (split; [reflexivity|]); [left | right]; eauto.
    + do 3 eexists. split; [reflexivity|]. right. eauto.
  - do 3 eexists. split; [reflexivity|]. right. eauto.
Qed.


Section Entries.

Hypothesis eqb_eq : forall a b, cell_eqb ops a b = true <-> a = b.

Local Abbreviation described t cols :=
  (exists rs,
      exec_driver_sql e (table_info_sql ops t) = Return rs
      /\ comprehension (column_of ops) (rows rs) = Return cols).

Lemma dict_set_keys (t k : cell) (v : list (column cell)) (d : schema_dict cell) :
  In t (keys (dict_set ops k v d)) <-> In t (keys d) \/ t = k.
Proof.
  induction d as [|[k' v'] d IH]; simpl.
  - intuition congruence.
  - destruct (cell_eqb ops k' k) eqn:E; simpl.
    + apply eqb_eq in E. intuition congruence.
    + fold (keys (dict_set ops k v d)). fold (keys d). rewrite IH. tauto.
Qed.

Lemma dict_set_nodup (k : cell) (v : list (column cell)) (d : schema_dict cell) :
  NoDup (keys d) -> NoDup (keys (dict_set ops k v d)).
Proof.
  induction d as [|[k' v'] d IH]; simpl; intros N.
  - constructor; [intros [] | constructor].
  - inversion N as [|x l Hx Hl]; subst.
    destruct (cell_eqb ops k' k) eqn:E; simpl; [exact N|].
    constructor; [|now apply IH].
    fold (keys (dict_set ops k v d)). rewrite dict_set_keys.
    intros [H | ->]; [contradiction|].
    assert (T : cell_eqb ops k k = true) by now apply eqb_eq.
    congruence.
Qed.

Lemma dict_set_in (t k : cell) (c v : list (column cell)) (d : schema_dict cell) :
  In (t, c) (dict_set ops k v d) -> (t = k /\ c = v) \/ In (t, c) d.
Proof.
  induction d as [|[k' v'] d IH]; simpl.
  - intros [H | []]. injection H as <- <-. auto.
  - destruct (cell_eqb ops k' k) eqn:E; simpl.
    + apply eqb_eq in E. subst k'. intros [H | H]; [|auto].
      injection H as <- <-. auto.
    + intros [H | H]; [auto|]. destruct (IH H); auto.
Qed.

Lemma describe_entries (ts : list cell) (d s : schema_dict cell) :
  result (describe ops e ts d) = Return s ->
  NoDup (keys d) -> (forall t c, In (t, c) d -> described t c) ->
  NoDup (keys s)
  /\ (forall t c, In (t, c) s -> described t c)
  /\ (forall t, In t (keys s) <-> In t (keys d) \/ In t ts).
Proof.
  revert d. induction ts as [|t0 ts IH]; intros d.
  - simpl. intros R N D. injection R as <-. repeat split; auto; tauto.
  - rewrite describe_cons.
    destruct (exec_driver_sql e (table_info_sql ops t0)) as [rs | m] eqn:X;
      [|discriminate].
    destruct (comprehension (column_of ops) (rows rs)) as [cols | m] eqn:C;
      [|discriminate].
    simpl. intros R N D.
    destruct (IH (dict_set ops t0 cols d) R) as (N' & D' & K').
    + now apply dict_set_nodup.
    + intros t c H. apply dict_set_in in H.
      destruct H as [[-> ->] | H]; [now exists rs | now apply D].
    + repeat split; auto.
      * intros H. apply K' in H. rewrite dict_set_keys in H.
        simpl. intuition congruence.
      * intros H. apply K'. rewrite dict_set_keys. simpl in H.
        intuition congruence.
Qed.

(** X15: A schema that the handler returns has one entry for each table name
    that the first statement gave, and no other; each entry holds the
    columns that the table-info statement of its table gave, with the name
    taken at index 1, the type at index 2, and nullable the negation of
    the value at index 3. *)
Theorem get_schema_entries (l : list event) (s : schema_dict cell) :
  get_schema ops e = (l, Return (SchemaInfo s, 200)) ->
  exists rs ts,
    exec_driver_sql e tables_sql = Return rs
    /\ comprehension (fun row => item row 0) (rows rs) = Return ts
    /\ (forall t, In t (keys s) <-> In t ts)
    /\ NoDup (keys s)
    /\ (forall t cols, In (t, cols) s ->
        exists info_rows,
          exec_driver_sql e (table_info_sql ops t) = Return info_rows
          /\ comprehension (column_of ops) (rows info_rows) = Return cols).
Proof.
  rewrite get_schema_unfold.
  destruct (exec_driver_sql e tables_sql) as [rs | m] eqn:X; [|discriminate].
  destruct (comprehension (fun row => item row 0) (rows rs)) as [ts | m] eqn:C;
    [|discriminate].
  destruct (result (describe ops e ts [])) as [s' | m] eqn:R; [|discriminate].
  intros H. injection H as _ <-.
  destruct (describe_entries ts [] s' R) as (N & D & K).
  - constructor.
  - intros t c [].
  - exists rs, ts. split; [reflexivity|]. split; [exact C|].
    split; [|split; [exact N | exact D]].
    intros t. rewrite K. simpl. tauto.
Qed.

End Entries.

End Handler.

Lemma datum_eqb_eq (a b : datum) : cell_eqb datum_ops a b = true <-> a = b.
Proof.
  destruct a as [s | x], b as [t | y]; simpl;
    try (split; [discriminate | discriminate]).
  - rewrite String.eqb_eq. split; congruence.
  - rewrite Z.eqb_eq. split; congruence.
Qed.

(** X15, witness: the two tables of the sample database. *)
Lemma get_schema_entries_witness :
  exists rs ts,
    exec_driver_sql schema_env tables_sql = Return rs
    /\ comprehension (fun row => item row 0) (rows rs) = Return ts
    /\ (forall t,
          In t [Text "customers"; Text "orders"] <-> In t ts)
    /\ NoDup [Text "customers"; Text "orders"]
    /\ (forall t cols,
          In (t, cols)
            [(Text "customers",
              [Column (Text "id") (Text "INTEGER") false;
               Column (Text "name") (Text "TEXT") true]);
             (Text "orders", [Column (Text "id") (Text "INTEGER") false])] ->
          exists info_rows,
            exec_driver_sql schema_env (table_info_sql datum_ops t)
            = Return info_rows
            /\ comprehension (column_of datum_ops) (rows info_rows)
               = Return cols).
Proof.
  exact (get_schema_entries datum datum_ops schema_env datum_eqb_eq _ _ eq_refl).
Defined.


End SchemaExtras.

(** * [cli_test.py]: the tests and the menu *)

Module CliExtras.

Import PyStr Py Cli.

Lemma scripts_app (l l' : list event) :
  scripts (l ++ l') = (scripts l ++ scripts l')%list.
Proof.
  induction l as [|[t | p | f] l IH]; simpl; congruence.
Qed.

Lemma prompts_app (l l' : list event) :
  prompts (l ++ l') = (prompts l ++ prompts l')%list.
Proof.
  induction l as [|[t | p | f] l IH]; simpl; congruence.
Qed.

Lemma seq_returned {A : Type} (c : cli unit) (k : cli A) (l : list event) :
  c = (l, Return tt) -> (c ;; k) = ((l ++ fst k)%list, snd k).
Proof. intros ->. unfold seq. now destruct k. Qed.

Lemma test_script_runs (w : world) (banner : text) (number path : string) :
  test_script w banner number path
  = ([Printed banner; Printed [Chars (times "=" 50)]; Executed path;
      Printed (report w number path); Printed []],
     Return tt).
Proof.
  unfold test_script, report, exec, print, attempt, seq.
  now destruct (exec_file w path) as [[] | e].
Qed.

Lemma test_script_returns (w : world) (banner : text) (number path : string) :
  test_script w banner number path
  = (fst (test_script w banner number path), Return tt).
Proof. now rewrite test_script_runs. Qed.

Lemma test_script_events (w : world) (banner : text) (number path : string) :
  scripts (fst (test_script w banner number path)) = [path]
  /\ prompts (fst (test_script w banner number path)) = [].
Proof. now rewrite test_script_runs. Qed.

Section Session.

Variable w : world.

(** The events of the five tests. *)
Local Abbreviation ran banner number path :=
  [Printed banner; Printed [Chars (times "=" 50)]; Executed path;
   Printed (report w number path); Printed []].

Local Abbreviation then_ l rest :=
  ((Asked select_prompt :: l ++ fst (choose w rest))%list,
   snd (choose w rest)).

Lemma choose_single (line : string) (rest : list string)
    (t : world -> cli unit) (l : list event) :
  t w = (l, Return tt) ->
  (asked select_prompt ;; t w ;; choose w rest) = then_ l rest.
Proof.
  intros E. rewrite (seq_returned (t w) (choose w rest) l E).
  unfold asked, seq. reflexivity.
Qed.

(** One turn of the loop, choice by choice. *)
Lemma choose_cons (line : string) (rest : list string) :
  choose w (line :: rest)
  = let choice := lower (strip line) in
    if String.eqb choice "q" then
      ([Asked select_prompt; Printed goodbye], Return tt)
    else if String.eqb choice "0" then then_ (fst (test_script_00 w)) rest
    else if String.eqb choice "1" then then_ (fst (test_script_01 w)) rest
    else if String.eqb choice "2" then
      match rest with
      | [] =>
          ([Asked select_prompt; Printed warning; Asked confirm_prompt],
           Raise end_of_input)
      | answer :: rest' =>
          ((Asked select_prompt :: Printed warning :: Asked confirm_prompt
            :: (if String.eqb (lower (strip answer)) "y"
                then fst (test_script_02 w)
                else [Printed [Chars "Skipped."]])
            ++ fst (choose w rest'))%list,
           snd (choose w rest'))
      end
    else if String.eqb choice "3" then then_ (fst (test_script_03 w)) rest
    else if String.eqb choice "4" then then_ (fst (test_script_04 w)) rest
    else if String.eqb choice "5" then
      then_
        (Printed [Point 0x1f680; Chars " Testing all scripts..."]
         :: fst (test_script_00 w) ++ fst (test_script_01 w)
         ++ fst (test_script_02 w) ++ fst (test_script_03 w)
         ++ fst (test_script_04 w)
         ++ [Printed [Point 0x1f389; Chars " All tests completed!"]])
        rest
    else then_ [Printed invalid] rest.
Proof.
  cbn [choose]. cbv zeta.
  destruct (String.eqb (lower (strip line)) "q"); [reflexivity|].
  destruct (String.eqb (lower (strip line)) "0").
  { apply (choose_single line rest test_script_00), test_script_returns. }
  destruct (String.eqb (lower (strip line)) "1").
  { apply (choose_single line rest test_script_01), test_script_returns. }
  destruct (String.eqb (lower (strip line)) "2").
  { destruct rest as [|answer rest']; [reflexivity|].
    destruct (String.eqb (lower (strip answer)) "y").
    - unfold test_script_02. rewrite test_script_runs.
      unfold asked, print, seq. simpl. now destruct (choose w rest').
    - unfold asked, print, seq. simpl. now destruct (choose w rest'). }
  destruct (String.eqb (lower (strip line)) "3").
  { apply (choose_single line rest test_script_03), test_script_returns. }
  destruct (String.eqb (lower (strip line)) "4").
  { apply (choose_single line rest test_script_04), test_script_returns. }
  destruct (String.eqb (lower (strip line)) "5").
  { unfold test_script_00, test_script_01, test_script_02, test_script_03,
      test_script_04. rewrite !test_script_runs.
    unfold asked, print, seq. simpl. now destruct (choose w rest). }
  unfold asked, print, seq. simpl. now destruct (choose w rest).
Qed.

Lemma test_events :
  (scripts (fst (test_script_00 w)) = ["scripts/00_simple_llm.py"]
   /\ prompts (fst (test_script_00 w)) = [])
  /\ (scripts (fst (test_script_01 w)) = ["scripts/01_simple_agent.py"]
      /\ prompts (fst (test_script_01 w)) = [])
  /\ (scripts (fst (test_script_02 w)) = ["scripts/02_risky_delete_demo.py"]
      /\ prompts (fst (test_script_02 w)) = [])
  /\ (scripts (fst (test_script_03 w)) = ["scripts/03_guardrailed_agent.py"]
      /\ prompts (fst (test_script_03 w)) = [])
  /\ (scripts (fst (test_script_04 w)) = ["scripts/04_complex_queries.py"]
      /\ prompts (fst (test_script_04 w)) = []).
Proof. repeat split; apply test_script_events. Qed.

Local Arguments test_script_00 : simpl never.
Local Arguments test_script_01 : simpl never.
Local Arguments test_script_02 : simpl never.
Local Arguments test_script_03 : simpl never.
Local Arguments test_script_04 : simpl never.

Lemma interactive_mode_unfold (inputs : list string) :
  exists header,
    scripts header = [] /\ prompts header = []
    /\ interactive_mode w inputs
       = ((header ++ fst (choose w inputs))%list, snd (choose w inputs)).
Proof.
  exists [Printed [Point 0x1f3af; Chars " Interactive SQL Agent Testing"];
          Printed [Chars (times "=" 50)];
          Printed [Chars "Available scripts:"];
          Printed [Chars "0 - Simple LLM (no SQL)"];
          Printed [Chars "1 - Simple SQL Agent"];
          Printed [Chars "2 - Dangerous SQL Agent ("; Point 0x26a0;
                   Point 0xfe0f; Chars "  educational)"];
          Printed [Chars "3 - Secure SQL Agent"];
          Printed [Chars "4 - Advanced Analytics"];
          Printed [Chars "5 - Test all scripts"];
          Printed [Chars "q - Quit"];
          Printed []].
  split; [reflexivity | split; [reflexivity|]].
  unfold interactive_mode, print, seq. now destruct (choose w inputs) as [l o].
Qed.

Lemma interactive_mode_scripts (inputs : list string) :
  scripts (fst (interactive_mode w inputs)) = scripts (fst (choose w inputs))
  /\ prompts (fst (interactive_mode w inputs)) = prompts (fst (choose w inputs))
  /\ snd (interactive_mode w inputs) = snd (choose w inputs).
Proof.
  destruct (interactive_mode_unfold inputs) as (h & S & P & ->). simpl.
  now rewrite scripts_app, prompts_app, S, P.
Qed.

(** X17: A choice 0, 1, 3 or 4 runs its one script and the menu goes on. *)
Theorem interactive_mode_runs_choice (line p : string) (rest : list string) :
  script_of (lower (strip line)) = Some p ->
  scripts (fst (interactive_mode w (line :: rest)))
  = p :: scripts (fst (interactive_mode w rest))
  /\ prompts (fst (interactive_mode w (line :: rest)))
     = select_prompt :: prompts (fst (interactive_mode w rest))
  /\ snd (interactive_mode w (line :: rest)) = snd (interactive_mode w rest).
Proof.
  intros H.
  destruct (interactive_mode_scripts (line :: rest)) as (-> & -> & ->).
  destruct (interactive_mode_scripts rest) as (-> & -> & ->).
  assert (T : exists t : world -> cli unit,
             choose w (line :: rest) = then_ (fst (t w)) rest
             /\ scripts (fst (t w)) = [p] /\ prompts (fst (t w)) = []).
  { unfold script_of in H. rewrite choose_cons. cbv zeta.
    destruct (String.eqb (lower (strip line)) "0") eqn:E0.
    { apply String.eqb_eq in E0. injection H as <-. rewrite E0.
      exists test_script_00. split; [reflexivity | apply test_script_events]. }
    destruct (String.eqb (lower (strip line)) "1") eqn:E1.
    { apply String.eqb_eq in E1. injection H as <-. rewrite E1.
      exists test_script_01. split; [reflexivity | apply test_script_events]. }
    destruct (String.eqb (lower (strip line)) "3") eqn:E3.
    { apply String.eqb_eq in E3. injection H as <-. rewrite E3.
      exists test_script_03. split; [reflexivity | apply test_script_events]. }
    destruct (String.eqb (lower (strip line)) "4") eqn:E4.
    { apply String.eqb_eq in E4. injection H as <-. rewrite E4.
      exists test_script_04. split; [reflexivity | apply test_script_events]. }
    discriminate. }
  destruct T as (t & -> & S & P). simpl.
  now rewrite scripts_app, prompts_app, S, P.
Qed.

(** X18: After the choice 2 the dangerous script runs only when the next line,
    trimmed and lowered, is y; any other answer skips it.  Either way the
    menu goes on with the lines that follow. *)
Theorem interactive_mode_confirms (line answer : string) (rest : list string) :
  lower (strip line) = "2" ->
  scripts (fst (interactive_mode w (line :: answer :: rest)))
  = ((if String.eqb (lower (strip answer)) "y"
      then ["scripts/02_risky_delete_demo.py"] else [])
     ++ scripts (fst (interactive_mode w rest)))%list
  /\ prompts (fst (interactive_mode w (line :: answer :: rest)))
     = select_prompt :: confirm_prompt
       :: prompts (fst (interactive_mode w rest))
  /\ snd (interactive_mode w (line :: answer :: rest))
     = snd (interactive_mode w rest).
Proof.
  intros H.
  destruct (interactive_mode_scripts (line :: answer :: rest)) as (-> & -> & ->).
  destruct (interactive_mode_scripts rest) as (-> & -> & ->).
  destruct test_events as (_ & _ & (S2 & P2) & _).
  rewrite choose_cons. cbv zeta. rewrite H. simpl.
  destruct (String.eqb (lower (strip answer)) "y"); simpl;
    rewrite ?scripts_app, ?prompts_app, ?S2, ?P2; auto.
Qed.

(** X19: The choice 5 runs the five scripts in order, the dangerous one
    included, and asks for no confirmation. *)
Theorem interactive_mode_runs_all (line : string) (rest : list string) :
  lower (strip line) = "5" ->
  scripts (fst (interactive_mode w (line :: rest)))
  = (all_scripts ++ scripts (fst (interactive_mode w rest)))%list
  /\ prompts (fst (interactive_mode w (line :: rest)))
     = select_prompt :: prompts (fst (interactive_mode w rest))
  /\ snd (interactive_mode w (line :: rest)) = snd (interactive_mode w rest).
Proof.
  intros H.
  destruct (interactive_mode_scripts (line :: rest)) as (-> & -> & ->).
  destruct (interactive_mode_scripts rest) as (-> & -> & ->).
  destruct test_events as ((S0 & P0) & (S1 & P1) & (S2 & P2) & (S3 & P3) & S4 & P4).
  rewrite choose_cons. cbv zeta. rewrite H. simpl.
  rewrite !scripts_app, !prompts_app, S0, S1, S2, S3, S4, P0, P1, P2, P3, P4.
  auto.
Qed.

(** X20: The choice q ends the menu: nothing runs, and the lines typed after it
    are not read. *)
Theorem interactive_mode_quits (line : string) (rest : list string) :
  lower (strip line) = "q" ->
  interactive_mode w (line :: rest) = interactive_mode w [line]
  /\ scripts (fst (interactive_mode w (line :: rest))) = []
  /\ prompts (fst (interactive_mode w (line :: rest))) = [select_prompt]
  /\ snd (interactive_mode w (line :: rest)) = Return tt.
Proof.
  intros H.
  assert (E : forall r,
             choose w (line :: r)
             = ([Asked select_prompt; Printed goodbye], Return tt)).
  { intros r. rewrite choose_cons. cbv zeta. now rewrite H. }
  split.
  - unfold interactive_mode. now rewrite (E rest), (E []).
  - destruct (interactive_mode_scripts (line :: rest)) as (-> & -> & ->).
    now rewrite E.
Qed.

(** X21: Any line that is not q or one of 0 to 5 runs nothing; the menu prints
    that the choice is invalid and asks again. *)
Theorem interactive_mode_invalid_choice (line : string) (rest : list string) :
  ~ In (lower (strip line)) ["q"; "0"; "1"; "2"; "3"; "4"; "5"] ->
  scripts (fst (interactive_mode w (line :: rest)))
  = scripts (fst (interactive_mode w rest))
  /\ prompts (fst (interactive_mode w (line :: rest)))
     = select_prompt :: prompts (fst (interactive_mode w rest))
  /\ snd (interactive_mode w (line :: rest)) = snd (interactive_mode w rest)
  /\ In (Printed invalid) (fst (interactive_mode w (line :: rest))).
Proof.
  intros N.
  assert (F : forall c, In c ["q"; "0"; "1"; "2"; "3"; "4"; "5"] ->
                        String.eqb (lower (strip line)) c = false).
  { intros c I. apply String.eqb_neq. intros E. apply N. now rewrite E. }
  assert (E : choose w (line :: rest)
              = ((Asked select_prompt :: [Printed invalid]
                  ++ fst (choose w rest))%list,
                 snd (choose w rest))).
  { rewrite choose_cons. cbv zeta.
    rewrite !F by (simpl; tauto). reflexivity. }
  destruct (interactive_mode_scripts (line :: rest)) as (-> & -> & ->).
  destruct (interactive_mode_scripts rest) as (-> & -> & ->).
  rewrite E. simpl. repeat split.
  destruct (interactive_mode_unfold (line :: rest)) as (h & _ & _ & ->).
  rewrite E. simpl. apply in_or_app. right. simpl. auto.
Qed.

(** Induction over the lines, as the loop reads them: one line for a
    choice, two for the choice 2. *)
Lemma by_turns (P : list string -> Prop) :
  P [] ->
  (forall line rest,
      P rest -> (forall answer rest', rest = answer :: rest' -> P rest') ->
      P (line :: rest)) ->
  forall inputs, P inputs.
Proof.
  intros B S inputs.
  assert (Q : P inputs /\ forall a, P (a :: inputs)).
  { induction inputs as [|b t [IH1 IH2]].
    - split; [exact B|]. intros a. apply S; [exact B | discriminate].
    - split; [apply IH2|]. intros a. apply S; [apply IH2|].
      intros answer rest' E. injection E as _ <-. exact IH1. }
  exact (proj1 Q).
Qed.

(** What a turn adds to the scripts and to the prompts. *)
Lemma choose_turn (line : string) (rest : list string) :
  (exists l,
      choose w (line :: rest) = (l, Return tt)
      /\ scripts l = [] /\ last l (Asked "") = Printed goodbye)
  \/ (exists l,
        choose w (line :: rest) = (l, Raise end_of_input) /\ rest = []
        /\ scripts l = [] /\ last l (Printed []) = Asked confirm_prompt)
  \/ (exists l later,
        (later = rest \/ exists answer, rest = answer :: later)
        /\ choose w (line :: rest)
           = ((l ++ fst (choose w later))%list, snd (choose w later))
        /\ l <> []
        /\ (forall p, In p (scripts l) -> In p all_scripts)).
Proof.
  destruct test_events as ((S0 & P0) & (S1 & P1) & (S2 & P2) & (S3 & P3) & S4 & P4).
  rewrite choose_cons. cbv zeta.
  destruct (String.eqb (lower (strip line)) "q").
  { left. eexists. repeat split. }
  assert (One : forall l p,
             scripts l = [p] -> In p all_scripts ->
             exists l0 later,
               (later = rest \/ exists answer, rest = answer :: later)
               /\ then_ l rest
                  = ((l0 ++ fst (choose w later))%list, snd (choose w later))
               /\ l0 <> []
               /\ (forall q, In q (scripts l0) -> In q all_scripts)).
  { intros l p S I. exists (Asked select_prompt :: l), rest.
    split; [now left|]. split; [reflexivity|]. split; [discriminate|].
    simpl. rewrite S. intros q [<- | []]. exact I. }
  destruct (String.eqb (lower (strip line)) "0").
  { right. right. apply (One _ _ S0). simpl. tauto. }
  destruct (String.eqb (lower (strip line)) "1").
  { right. right. apply (One _ _ S1). simpl. tauto. }
  destruct (String.eqb (lower (strip line)) "2").
  { destruct rest as [|answer rest'].
    - right. left. eexists. repeat split.
    - right. right. eexists. exists rest'. split; [right; now exists answer|].
      split; [|split].
      + rewrite !app_comm_cons. reflexivity.
      + discriminate.
      + simpl. destruct (String.eqb (lower (strip answer)) "y"); simpl.
        * rewrite S2. intros q [<- | []]. simpl. tauto.
        * intros q []. }
  destruct (String.eqb (lower (strip line)) "3").
  { right. right. apply (One _ _ S3). simpl. tauto. }
  destruct (String.eqb (lower (strip line)) "4").
  { right. right. apply (One _ _ S4). simpl. tauto. }
  destruct (String.eqb (lower (strip line)) "5").
  { right. right. eexists. exists rest. split; [now left|].
    split; [rewrite app_comm_cons; reflexivity|]. split; [discriminate|].
    simpl. rewrite !scripts_app, S0, S1, S2, S3, S4. simpl. tauto. }
  right. right. eexists. exists rest. split; [now left|].
  split; [rewrite app_comm_cons; reflexivity|]. split; [discriminate|].
  simpl. intros q [].
Qed.

Lemma last_app_nonempty {A : Type} (l l' : list A) (d d' : A) :
  l' <> [] -> last (l ++ l') d = last l' d'.
Proof.
  intros N. induction l as [|a l IH]; simpl.
  - destruct l' as [|b l']; [congruence|]. clear N. revert b.
    induction l' as [|c l' IH]; intros b; [reflexivity|]. apply (IH c).
  - destruct (l ++ l')%list eqn:E; [|exact IH].
    apply List.app_eq_nil in E. destruct E as [_ E]. congruence.
Qed.

Lemma choose_ends (inputs : list string) :
  (snd (choose w inputs) = Return tt
   /\ last (fst (choose w inputs)) (Asked "") = Printed goodbye)
  \/ (snd (choose w inputs) = Raise end_of_input
      /\ exists p, last (fst (choose w inputs)) (Printed []) = Asked p).
Proof.
  induction inputs as [|line rest IH Two] using by_turns.
  - right. split; [reflexivity|]. now exists select_prompt.
  - destruct (choose_turn line rest)
      as [(l & -> & _ & L) | [(l & -> & _ & _ & L) | (l & later & W & -> & _ & _)]].
    + now left.
    + right. split; [reflexivity|]. now exists confirm_prompt.
    + assert (H : (snd (choose w later) = Return tt
                   /\ last (fst (choose w later)) (Asked "") = Printed goodbye)
                  \/ (snd (choose w later) = Raise end_of_input
                      /\ exists p,
                           last (fst (choose w later)) (Printed []) = Asked p)).
      { destruct W as [-> | (answer & E)]; [exact IH | exact (Two _ _ E)]. }
      simpl. destruct H as [[R L] | [R (p & L)]]; [left | right];
        (split; [exact R|]).
      * rewrite (last_app_nonempty l _ _ (Asked "")); [exact L|].
        intros E. rewrite E in L. discriminate.
      * exists p. rewrite (last_app_nonempty l _ _ (Printed [])); [exact L|].
        intros E. rewrite E in L. discriminate.
Qed.

(** X22: As long as every script ends or raises an exception of class
    [Exception], the menu ends in one of two ways: it returns after the
    choice q, and then its last act is to print the goodbye line; or the
    typed lines run out, and then its last act is a prompt and it raises
    the end-of-input error. *)
Theorem interactive_mode_ends (inputs : list string) :
  (snd (interactive_mode w inputs) = Return tt
   /\ last (fst (interactive_mode w inputs)) (Asked "") = Printed goodbye)
  \/ (snd (interactive_mode w inputs) = Raise end_of_input
      /\ exists p,
           last (fst (interactive_mode w inputs)) (Printed []) = Asked p).
Proof.
  destruct (interactive_mode_unfold inputs) as (h & _ & _ & ->). simpl.
  destruct (choose_ends inputs) as [[R L] | [R (p & L)]]; [left | right];
    (split; [exact R|]).
  - rewrite (last_app_nonempty h _ _ (Asked "")); [exact L|].
    intros E. rewrite E in L. discriminate.
  - exists p. rewrite (last_app_nonempty h _ _ (Printed [])); [exact L|].
    intros E. rewrite E in L. discriminate.
Qed.

Lemma choose_scripts (inputs : list string) (p : string) :
  In p (scripts (fst (choose w inputs))) -> In p all_scripts.
Proof.
  induction inputs as [|line rest IH Two] using by_turns; [intros []|].
  destruct (choose_turn line rest)
    as [(l & -> & S & _) | [(l & -> & _ & S & _) | (l & later & W & -> & _ & S)]];
    simpl; try (rewrite S; intros []).
  rewrite scripts_app. intros H. apply in_app_or in H.
  destruct H as [H | H]; [now apply S|].
  destruct W as [-> | (answer & E)]; [now apply IH | now apply (Two _ _ E)].
Qed.

Lemma main_unfold (inputs : list string) :
  (unset (getenv w "GEMINI_API_KEY") = true
   \/ path_exists w "sql_agent_class.db" = false ->
   exists l, main w inputs = (l, Return tt)
             /\ scripts l = [] /\ prompts l = [])
  /\ (unset (getenv w "GEMINI_API_KEY") = false ->
      path_exists w "sql_agent_class.db" = true ->
      exists l,
        main w inputs
        = ((l ++ fst (interactive_mode w inputs))%list,
           snd (interactive_mode w inputs))
        /\ scripts l = [] /\ prompts l = []).
Proof.
  unfold main. split.
  - intros H. destruct (unset (getenv w "GEMINI_API_KEY")).
    + eexists. repeat split.
    + destruct H as [H | H]; [discriminate|]. rewrite H.
      eexists. repeat split.
  - intros -> ->. simpl. unfold print, seq.
    destruct (interactive_mode w inputs) as [l o].
    exists [Printed [Point 0x1f916; Chars " SQL Agent CLI Test Interface"];
            Printed [Chars (times "=" 60)];
            Printed [Chars "Testing SQL Agent scripts with Gemini API"];
            Printed [];
            Printed [Point 0x2705; Chars " GEMINI_API_KEY found"];
            Printed [];
            Printed [Point 0x2705; Chars " Database file found"];
            Printed []].
    repeat split.
Qed.

(** X24: Without the API key, or without the database file, [main] returns
    after its messages: it shows no prompt and runs no script.  With both
    it goes on to the menu, and runs and asks what the menu does. *)
Theorem main_guards (inputs : list string) :
  (unset (getenv w "GEMINI_API_KEY") = true
   \/ path_exists w "sql_agent_class.db" = false ->
   snd (main w inputs) = Return tt
   /\ scripts (fst (main w inputs)) = []
   /\ prompts (fst (main w inputs)) = [])
  /\ (unset (getenv w "GEMINI_API_KEY") = false ->
      path_exists w "sql_agent_class.db" = true ->
      snd (main w inputs) = snd (interactive_mode w inputs)
      /\ scripts (fst (main w inputs))
         = scripts (fst (interactive_mode w inputs))
      /\ prompts (fst (main w inputs))
         = prompts (fst (interactive_mode w inputs))).
Proof.
  destruct (main_unfold inputs) as [A B]. split.
  - intros H. destruct (A H) as (l & -> & S & P). auto.
  - intros K D. destruct (B K D) as (l & -> & S & P). simpl.
    now rewrite scripts_app, prompts_app, S, P.
Qed.

(** X25: Whatever is typed, the only files that the command line runs are the
    five scripts. *)
Theorem main_runs_only_scripts (inputs : list string) (p : string) :
  In p (scripts (fst (main w inputs))) -> In p all_scripts.
Proof.
  destruct (main_unfold inputs) as [A B].
  destruct (unset (getenv w "GEMINI_API_KEY")) eqn:K.
  { destruct (A (or_introl eq_refl)) as (l & -> & S & _). simpl.
    rewrite S. intros []. }
  destruct (path_exists w "sql_agent_class.db") eqn:D.
  - destruct (B eq_refl eq_refl) as (l & -> & S & _). simpl.
    rewrite scripts_app, S. simpl.
    destruct (interactive_mode_scripts inputs) as (-> & _ & _).
    apply choose_scripts.
  - destruct (A (or_intror eq_refl)) as (l & -> & S & _). simpl.
    rewrite S. intros [].
Qed.

(** X16: Each of the five tests prints its banner and a rule of fifty "=",
    runs its script once, prints the success line when the script ran to
    its end and the failure line with the message when it raised an
    exception of class [Exception], prints an empty line, and returns. *)
Theorem test_scripts_report (t : world -> cli unit) (banner : text)
    (number path : string) :
  In (t, banner, number, path)
    [(test_script_00,
      [Point 0x1f916; Chars " Testing Script 00: Simple LLM"],
      "00", "scripts/00_simple_llm.py");
     (test_script_01,
      [Point 0x1f50d; Chars " Testing Script 01: Simple SQL Agent"],
      "01", "scripts/01_simple_agent.py");
     (test_script_02,
      [Point 0x26a0; Point 0xfe0f;
       Chars "  Testing Script 02: Dangerous SQL Agent"],
      "02", "scripts/02_risky_delete_demo.py");
     (test_script_03,
      [Point 0x1f6e1; Point 0xfe0f;
       Chars "  Testing Script 03: Secure SQL Agent"],
      "03", "scripts/03_guardrailed_agent.py");
     (test_script_04,
      [Point 0x1f4ca; Chars " Testing Script 04: Advanced Analytics"],
      "04", "scripts/04_complex_queries.py")] ->
  t w
  = ([Printed banner;
      Printed [Chars "=================================================="];
      Executed path;
      Printed (match exec_file w path with
               | Return _ =>
                   [Point 0x2705;
                    Chars (" Script " ++ number ++ " completed successfully!")]
               | Raise e =>
                   [Point 0x274c;
                    Chars (" Script " ++ number ++ " failed: " ++ e)]
               end);
      Printed []],
     Return tt).
Proof.
  simpl. intros H.
  repeat (destruct H as [H | H];
          [injection H as <- <- <- <-; apply test_script_runs|]).
  destruct H.
Qed.

End Session.

(** X23: Which scripts run, which prompts are shown and how the menu ends
    depend on the typed lines only: a script that fails changes nothing
    of it. *)
Theorem interactive_mode_ignores_failures (w w' : world) (inputs : list string) :
  scripts (fst (interactive_mode w inputs))
  = scripts (fst (interactive_mode w' inputs))
  /\ prompts (fst (interactive_mode w inputs))
     = prompts (fst (interactive_mode w' inputs))
  /\ snd (interactive_mode w inputs) = snd (interactive_mode w' inputs).
Proof.
  destruct (interactive_mode_scripts w inputs) as (-> & -> & ->).
  destruct (interactive_mode_scripts w' inputs) as (-> & -> & ->).
  destruct (test_events w)
    as ((S0 & P0) & (S1 & P1) & (S2 & P2) & (S3 & P3) & S4 & P4).
  destruct (test_events w')
    as ((S0' & P0') & (S1' & P1') & (S2' & P2') & (S3' & P3') & S4' & P4').
  induction inputs as [|line rest IH Two] using by_turns; [repeat split|].
  destruct IH as (I1 & I2 & I3).
  rewrite !choose_cons. cbv zeta.
  destruct (String.eqb (lower (strip line)) "q"); [repeat split|].
  destruct (String.eqb (lower (strip line)) "0").
  { simpl. rewrite !scripts_app, !prompts_app. repeat split; congruence. }
  destruct (String.eqb (lower (strip line)) "1").
  { simpl. rewrite !scripts_app, !prompts_app. repeat split; congruence. }
  destruct (String.eqb (lower (strip line)) "2").
  { destruct rest as [|answer rest']; [repeat split|].
    destruct (Two answer rest' eq_refl) as (T1 & T2 & T3). simpl.
    destruct (String.eqb (lower (strip answer)) "y"); simpl;
      rewrite ?scripts_app, ?prompts_app; repeat split; congruence. }
  destruct (String.eqb (lower (strip line)) "3").
  { simpl. rewrite !scripts_app, !prompts_app. repeat split; congruence. }
  destruct (String.eqb (lower (strip line)) "4").
  { simpl. rewrite !scripts_app, !prompts_app. repeat split; congruence. }
  destruct (String.eqb (lower (strip line)) "5").
  { simpl. rewrite !scripts_app, !prompts_app. simpl.
    repeat split; congruence. }
  simpl. repeat split; congruence.
Qed.

(** X17, witness: the choice 3, typed with spaces. *)
Lemma interactive_mode_runs_choice_witness :
  script_of (lower (strip " 3 ")) = Some "scripts/03_guardrailed_agent.py"
  /\ scripts (fst (interactive_mode sample_world [" 3 "; "q"]))
     = "scripts/03_guardrailed_agent.py"
       :: scripts (fst (interactive_mode sample_world ["q"])).
Proof.
  split; [reflexivity|].
  exact (proj1 (interactive_mode_runs_choice sample_world " 3 "
                  "scripts/03_guardrailed_agent.py" ["q"] eq_refl)).
Defined.

(** X18, witness: the confirmation is not given. *)
Lemma interactive_mode_confirms_witness :
  lower (strip "2") = "2"
  /\ scripts (fst (interactive_mode sample_world ["2"; "yes"; "q"]))
     = ((if String.eqb (lower (strip "yes")) "y"
         then ["scripts/02_risky_delete_demo.py"] else [])
        ++ scripts (fst (interactive_mode sample_world ["q"])))%list.
Proof.
  split; [reflexivity|].
  exact (proj1 (interactive_mode_confirms sample_world "2" "yes" ["q"] eq_refl)).
Defined.

(** X19, witness: all the scripts. *)
Lemma interactive_mode_runs_all_witness :
  lower (strip "5") = "5"
  /\ scripts (fst (interactive_mode sample_world ["5"]))
     = (all_scripts ++ scripts (fst (interactive_mode sample_world [])))%list.
Proof.
  split; [reflexivity|].
  exact (proj1 (interactive_mode_runs_all sample_world "5" [] eq_refl)).
Defined.

(** X20, witness: a capital Q, and lines after it. *)
Lemma interactive_mode_quits_witness :
  lower (strip "Q") = "q"
  /\ interactive_mode sample_world ["Q"; "5"; "2"]
     = interactive_mode sample_world ["Q"].
Proof.
  split; [reflexivity|].
  exact (proj1 (interactive_mode_quits sample_world "Q" ["5"; "2"] eq_refl)).
Defined.

(** X21, witness: a choice that is not on the menu. *)
Lemma interactive_mode_invalid_choice_witness :
  ~ In (lower (strip "6")) ["q"; "0"; "1"; "2"; "3"; "4"; "5"]
  /\ scripts (fst (interactive_mode sample_world ["6"; "q"]))
     = scripts (fst (interactive_mode sample_world ["q"])).
Proof.
  assert (N : ~ In (lower (strip "6")) ["q"; "0"; "1"; "2"; "3"; "4"; "5"]).
  { simpl. intros H.
    repeat (destruct H as [H | H]; [discriminate H|]). exact H. }
  split; [exact N|].
  exact (proj1 (interactive_mode_invalid_choice sample_world "6" ["q"] N)).
Defined.

(** X24, witness: no key. *)
Lemma main_guards_witness :
  unset (getenv keyless_world "GEMINI_API_KEY") = true
  /\ snd (main keyless_world ["5"]) = Return tt
  /\ scripts (fst (main keyless_world ["5"])) = []
  /\ prompts (fst (main keyless_world ["5"])) = [].
Proof.
  split; [reflexivity|].
  exact (proj1 (main_guards keyless_world ["5"]) (or_introl eq_refl)).
Defined.

(** X25, witness: a script that was run. *)
Lemma main_runs_only_scripts_witness :
  In "scripts/01_simple_agent.py" (scripts (fst (main sample_world ["1"; "q"])))
  /\ In "scripts/01_simple_agent.py" all_scripts.
Proof.
  assert (I : In "scripts/01_simple_agent.py"
                (scripts (fst (main sample_world ["1"; "q"]))))
    by (left; reflexivity).
  split; [exact I|].
  exact (main_runs_only_scripts sample_world ["1"; "q"] _ I).
Defined.

(** X16, witness: the test whose script fails in the sample world. *)
Lemma test_scripts_report_witness :
  test_script_01 sample_world
  = ([Printed [Point 0x1f50d; Chars " Testing Script 01: Simple SQL Agent"];
      Printed [Chars "=================================================="];
      Executed "scripts/01_simple_agent.py";
      Printed [Point 0x274c;
               Chars " Script 01 failed: No module named 'langchain'"];
      Printed []],
     Return tt).
Proof.
  refine (test_scripts_report sample_world test_script_01 _ "01"
            "scripts/01_simple_agent.py" _).
  right. left. reflexivity.
Defined.

End CliExtras.
